(** * expense-tracker: a shallow embedding of [index.js]

    The helper functions and the command handlers of the expense tracker
    (add, list, update, delete, set-budget, summary, export), embedded as
    Rocq functions, the properties of its specification proved about them,
    and further properties that the code itself shows.

    Conventions of the embedding.
    - A JavaScript number is a binary64 value: Rocq's primitive [float].
      [+], [-], [<], [<=] and [===] on numbers are the primitive operations;
      [Number::toString], [toFixed], [Math.max] and [parseInt] follow
      ECMA-262 on these values.
    - A JavaScript string is a [string] whose characters are the code units
      0 to 255 (Basic Latin and Latin-1 Supplement), one character per code
      unit; the built-ins are exact on them. The string literals of this
      file hold ASCII only: a character above U+007F is written by its code
      unit, [ascii_of_N 201] for the capital e with acute.
    - A record of [expenses.json] is an object with the properties the
      program creates, typed as the program can find them when it reads the
      file again, and in the order it creates them: [category] may be absent,
      and [amount] is a number or [null], which is what [JSON.stringify]
      leaves in the file for an amount that is no finite number.
    - An object used as a map (the budgets, the per-category subtotals) is
      the list of its own properties, oldest first. A budget is a number or
      [null], for the same reason.
    - A handler is a function from what it reads (the documents as
      [JSON.parse] returns them, the parsed command line, the host's clock
      and locale) to the trace of its effects (console lines and file writes,
      in order) and to how it ends: it returns, or it throws.
*)

From Stdlib Require Import ZArith Floats Ascii Lia Sorted.
From stdpp Require Import base strings list pretty.

Set Warnings "-inexact-float,-register-all".
Open Scope Z_scope.

(** ** JavaScript built-ins used by the program *)

Module JS.

(** *** Numbers *)

(** [ToBoolean] on a number: [+0], [-0] and [NaN] are falsy. *)
Definition truthy (x : float) : bool := negb (is_zero x || is_nan x).

(** The Number value for an integer (round to nearest, ties to even). *)
Definition of_Z (z : Z) : float := SF2Prim (binary_normalize prec emax z 0 false).

(** [s * 10^j] as a Number value (round to nearest, ties to even). *)
Definition decimal_to_double (s : positive) (j : Z) : float :=
  SF2Prim (if 0 <=? j then binary_normalize prec emax (Z.pos s * 10 ^ j) 0 false
           else SFdiv prec emax (S754_finite false s 0)
                      (S754_finite false (Z.to_pos (10 ^ (- j))) 0)).

(** The magnitude of a finite number as an exact fraction [p / q]. *)
Definition exact_fraction (x : float) : Z * Z :=
  match Prim2SF x with
  | S754_finite _ m e => if 0 <=? e then (Z.pos m * 2 ^ e, 1) else (Z.pos m, 2 ^ (- e))
  | _ => (0, 1)
  end.

Fixpoint digits_above (fuel : nat) (v n : Z) : Z :=
  match fuel with
  | O => n
  | S f => if v <? 10 then n else digits_above f (v / 10) (n + 1)
  end.

Fixpoint zeros_below (fuel : nat) (p q n : Z) : Z :=
  match fuel with
  | O => n
  | S f => if q <=? p then n else zeros_below f (p * 10) q (n - 1)
  end.

(** The [n] with [10^(n-1) <= p/q < 10^n], for a positive binary64 magnitude. *)
Definition decimal_exponent (p q : Z) : Z :=
  if q <=? p then digits_above 400 (p / q) 1 else zeros_below 400 (p * 10) q 0.

(** Number::toString, step 5: the shortest digit string [s] (of [k] digits)
    and the exponent [n] with [s * 10^(n-k)] reading back as [x]; among
    several, the one closest to [x]. *)
Fixpoint shortest_digits (fuel : nat) (x : float) (p q n0 k : Z) : Z * Z :=
  match fuel with
  | O => (0, n0)
  | S f =>
    let j := n0 - k in
    let P := if 0 <=? j then p else p * 10 ^ (- j) in
    let Q := if 0 <=? j then q * 10 ^ j else q in
    let lo := P / Q in
    let hi := lo + 1 in
    let ok c := PrimFloat.eqb (decimal_to_double (Z.to_pos c) j) x in
    let pick c := if c =? 10 ^ k then (1, n0 + 1) else (c, n0) in
    match ok lo, ok hi with
    | true, true =>
      match 2 * (P - lo * Q) ?= Q with
      | Lt => pick lo
      | Gt => pick hi
      | Eq => if Z.even lo then pick lo else pick hi
      end
    | true, false => pick lo
    | false, true => pick hi
    | false, false => shortest_digits f x p q n0 (k + 1)
    end
  end.

Definition zeros (n : Z) : string := String.concat "" (replicate (Z.to_nat n) "0"%string).

Definition take (n : Z) (s : string) : string := String.substring 0 (Z.to_nat n) s.

Definition drop (n : Z) (s : string) : string :=
  String.substring (Z.to_nat n) (String.length s - Z.to_nat n) s.

(** Number::toString (radix 10): what a template literal prints for a number. *)
Definition Number_toString (x : float) : string :=
  if is_nan x then "NaN"
  else if is_zero x then "0"
  else if is_infinity x then (if get_sign x then "-Infinity" else "Infinity")
  else
    let '(p, q) := exact_fraction x in
    let '(s, n) := shortest_digits 20 (abs x) p q (decimal_exponent p q) 1 in
    let ds := pretty s in
    let k := Z.of_nat (String.length ds) in
    let body :=
      if (k <=? n) && (n <=? 21) then ds +:+ zeros (n - k)
      else if (0 <? n) && (n <=? 21) then take n ds +:+ "." +:+ drop n ds
      else if (-6 <? n) && (n <=? 0) then "0." +:+ zeros (- n) +:+ ds
      else
        let e := n - 1 in
        let es := (if 0 <=? e then "+" else "-") +:+ pretty (Z.abs e) in
        if k =? 1 then ds +:+ "e" +:+ es
        else take 1 ds +:+ "." +:+ drop 1 ds +:+ "e" +:+ es in
    (if get_sign x then "-" else "") +:+ body.

(** The digits of [n] with [f] of them after the point (toFixed, steps 9-10). *)
Definition fixed_point (f : Z) (n : Z) : string :=
  let m := pretty n in
  if f =? 0 then m
  else
    let k := Z.of_nat (String.length m) in
    let m := if k <=? f then zeros (f + 1 - k) +:+ m else m in
    let k := Z.of_nat (String.length m) in
    take (k - f) m +:+ "." +:+ drop (k - f) m.

(** Number.prototype.toFixed(f), for [0 <= f <= 100]. *)
Definition Number_toFixed (f : Z) (x : float) : string :=
  if negb (is_finite x) then Number_toString x
  else
    let '(p, q) := exact_fraction x in
    let s := if (x <? 0)%float then "-" else "" in
    if 10 ^ 21 * q <=? p then s +:+ Number_toString (abs x)
    else s +:+ fixed_point f ((2 * p * 10 ^ f + q) / (2 * q)).

(** Math.max over numbers: [NaN] if any argument is, [-Infinity] for none. *)
Fixpoint Math_max_from (highest : float) (l : list float) : float :=
  match l with
  | [] => highest
  | number :: rest =>
    if is_nan number then nan
    else if is_zero number && negb (get_sign number)
            && is_zero highest && get_sign highest
    then Math_max_from PrimFloat.zero rest
    else if (highest <? number)%float then Math_max_from number rest
    else Math_max_from highest rest
  end.

Definition Math_max (l : list float) : float := Math_max_from neg_infinity l.

(** *** Numbers read back from a document

    [JSON.stringify] writes [null] for NaN and for the infinities, and
    [JSON.parse] reads [null] back: a member that the program wrote as a
    number is a number or [null] when the program reads the document again. *)

Inductive number_or_null : Type :=
| Number (x : float)
| Null.

(** [ToBoolean]: [null] is falsy. *)
Definition ToBoolean (v : number_or_null) : bool :=
  match v with
  | Number x => truthy x
  | Null => false
  end.

(** [ToNumber], as [+] applies it to an operand: [null] counts as [+0]. *)
Definition ToNumber (v : number_or_null) : float :=
  match v with
  | Number x => x
  | Null => 0%float
  end.

(** [ToString], as a template literal applies it. *)
Definition ToString (v : number_or_null) : string :=
  match v with
  | Number x => Number_toString x
  | Null => "null"
  end.

(** [JSON.parse(JSON.stringify(v))]: what the program reads back for a
    member it wrote. The text of a finite number reads back as that number
    ([-0] is written as [0]). *)
Definition read_back (v : number_or_null) : number_or_null :=
  match v with
  | Number x => if is_finite x then Number (if is_zero x then 0%float else x) else Null
  | Null => Null
  end.

(** *** Strings *)

(** [ToBoolean] on a string: only the empty string is falsy. *)
Definition nonempty (s : string) : bool := negb (String.eqb s "").

(** [a || b] where [a] is a string-valued property that may be absent. *)
Definition or_else (a : option string) (b : string) : string :=
  match a with
  | Some s => if nonempty s then s else b
  | None => b
  end.

(** String.prototype.split with a one-character separator. *)
Fixpoint String_split (sep : ascii) (s : string) : list string :=
  match s with
  | EmptyString => [EmptyString]
  | String c rest =>
    if Ascii.eqb c sep then EmptyString :: String_split sep rest
    else match String_split sep rest with
         | first :: others => String c first :: others
         | [] => [String c EmptyString]
         end
  end.

(** The lower case of a code unit below 256: the capitals A to Z, and those
    of Latin-1 (U+00C0 to U+00DE, the multiplication sign U+00D7 apart),
    are 32 below their small letter. *)
Definition lower (c : ascii) : ascii :=
  let n := N_of_ascii c in
  if ((65 <=? n) && (n <=? 90))%N then ascii_of_N (n + 32)
  else if ((192 <=? n) && (n <=? 222) && negb (n =? 215))%N then ascii_of_N (n + 32)
  else c.

(** String.prototype.toLowerCase. *)
Fixpoint toLowerCase (s : string) : string :=
  match s with
  | EmptyString => EmptyString
  | String c rest => String (lower c) (toLowerCase rest)
  end.

(** White space and line terminators below 256: TAB, LF, VT, FF, CR, SP and
    NBSP. *)
Definition is_white_space (c : ascii) : bool :=
  let n := N_of_ascii c in
  (((9 <=? n) && (n <=? 13)) || (n =? 32) || (n =? 160))%N.

Fixpoint trim_start (s : string) : string :=
  match s with
  | String c rest => if is_white_space c then trim_start rest else s
  | EmptyString => s
  end.

Definition digit_value (c : ascii) : option Z :=
  let n := Z.of_N (N_of_ascii c) in
  if (48 <=? n) && (n <=? 57) then Some (n - 48)
  else if (97 <=? n) && (n <=? 122) then Some (n - 87)
  else if (65 <=? n) && (n <=? 90) then Some (n - 55)
  else None.

(** The value of the longest prefix of [s] made of digits of the radix;
    [acc] is [None] until a digit has been read. *)
Fixpoint read_digits (radix : Z) (acc : option Z) (s : string) : option Z :=
  match s with
  | EmptyString => acc
  | String c rest =>
    match digit_value c with
    | Some d =>
      if d <? radix then read_digits radix (Some (default 0 acc * radix + d)) rest
      else acc
    | None => acc
    end
  end.

(** parseInt(string) with no radix argument. *)
Definition parseInt (input : string) : float :=
  let s := trim_start input in
  let '(negative, s) :=
    match s with
    | String "-" rest => (true, rest)
    | String "+" rest => (false, rest)
    | _ => (false, s)
    end in
  let '(radix, s) :=
    match s with
    | String "0" (String "x" rest) => (16, rest)
    | String "0" (String "X" rest) => (16, rest)
    | _ => (10, s)
    end in
  match read_digits radix None s with
  | None => nan
  | Some 0 => if negative then neg_zero else PrimFloat.zero
  | Some mathInt => of_Z (if negative then - mathInt else mathInt)
  end.

(** parseInt of a value that may be [undefined] (which reads "undefined"). *)
Definition parseInt_of (v : option string) : float :=
  parseInt (default "undefined"%string v).

(** *** Ordinary objects used as maps

    The own properties of an object, oldest first. Reading a property that
    was never set gives [None] ([undefined]); properties inherited from
    [Object.prototype] are handled where the program can reach them. *)

Definition object (A : Type) : Type := list (string * A).

Fixpoint get {A} (o : object A) (k : string) : option A :=
  match o with
  | [] => None
  | (k', v) :: rest => if String.eqb k' k then Some v else get rest k
  end.

(** [o[k] = v]: an existing property keeps its place. *)
Fixpoint set {A} (o : object A) (k : string) (v : A) : object A :=
  match o with
  | [] => [(k, v)]
  | (k', v') :: rest =>
    if String.eqb k' k then (k', v) :: rest else (k', v') :: set rest k v
  end.

Fixpoint read_decimal (acc : N) (s : string) : option N :=
  match s with
  | EmptyString => Some acc
  | String c rest =>
    let n := N_of_ascii c in
    if ((48 <=? n) && (n <=? 57))%N then read_decimal (acc * 10 + (n - 48)) rest
    else None
  end.

(** An array index: a canonical numeric string below [2^32 - 1]. *)
Definition array_index (k : string) : option N :=
  match k with
  | EmptyString => None
  | _ =>
    match read_decimal 0 k with
    | Some n => if String.eqb (pretty n) k && (n <? 4294967295)%N then Some n else None
    | None => None
    end
  end.

Fixpoint insert_by_index {A} (n : N) (kv : string * A) (l : list (N * (string * A)))
  : list (N * (string * A)) :=
  match l with
  | [] => [(n, kv)]
  | (m, kv') :: rest =>
    if (n <? m)%N then (n, kv) :: l else (m, kv') :: insert_by_index n kv rest
  end.

Fixpoint index_properties {A} (o : object A) : list (N * (string * A)) :=
  match o with
  | [] => []
  | (k, v) :: rest =>
    match array_index k with
    | Some n => insert_by_index n (k, v) (index_properties rest)
    | None => index_properties rest
    end
  end.

Fixpoint string_properties {A} (o : object A) : list (string * A) :=
  match o with
  | [] => []
  | (k, v) :: rest =>
    match array_index k with
    | Some _ => string_properties rest
    | None => (k, v) :: string_properties rest
    end
  end.

(** Object.entries: array indices ascending, then the other keys oldest first. *)
Definition Object_entries {A} (o : object A) : list (string * A) :=
  map snd (index_properties o) ++ string_properties o.

(** The property names every object inherits from [Object.prototype]. *)
Definition inherited : list string :=
  ["constructor"; "hasOwnProperty"; "isPrototypeOf"; "propertyIsEnumerable";
   "toLocaleString"; "toString"; "valueOf"; "__defineGetter__";
   "__defineSetter__"; "__lookupGetter__"; "__lookupSetter__"; "__proto__"]%string.

(** *** JSON.stringify *)

Inductive json : Type :=
| JSON_null
| JSON_number (x : float)
| JSON_string (s : string)
| JSON_array (elements : list json)
| JSON_object (members : list (string * json)).

Definition hex_digit (n : N) : ascii :=
  if (n <? 10)%N then ascii_of_N (48 + n) else ascii_of_N (87 + n).

Definition quote_char (c : ascii) : string :=
  let n := N_of_ascii c in
  if (n =? 8)%N then "\b"
  else if (n =? 9)%N then "\t"
  else if (n =? 10)%N then "\n"
  else if (n =? 12)%N then "\f"
  else if (n =? 13)%N then "\r"
  else if (n =? 34)%N then String "\" (String c EmptyString)
  else if (n =? 92)%N then "\\"
  else if (n <? 32)%N then
    "\u00" +:+ String (hex_digit (n / 16)) (String (hex_digit (n mod 16)) EmptyString)
  else String c EmptyString.

Fixpoint quote_chars (s : string) : string :=
  match s with
  | EmptyString => EmptyString
  | String c rest => quote_char c +:+ quote_chars rest
  end.

(** QuoteJSONString. *)
Definition quote (s : string) : string :=
  String (ascii_of_N 34) (quote_chars s) +:+ String (ascii_of_N 34) EmptyString.

Definition newline : string := String (ascii_of_N 10) EmptyString.

(** SerializeJSONProperty with a non-empty [gap]; [indent] is the current
    indentation. *)
Fixpoint serialize (gap indent : string) (v : json) : string :=
  match v with
  | JSON_null => "null"
  | JSON_number x => if is_finite x then Number_toString x else "null"
  | JSON_string s => quote s
  | JSON_array [] => "[]"
  | JSON_array elements =>
    let inner := indent +:+ gap in
    "[" +:+ newline +:+ inner
    +:+ String.concat ("," +:+ newline +:+ inner) (map (serialize gap inner) elements)
    +:+ newline +:+ indent +:+ "]"
  | JSON_object [] => "{}"
  | JSON_object members =>
    let inner := indent +:+ gap in
    "{" +:+ newline +:+ inner
    +:+ String.concat ("," +:+ newline +:+ inner)
          (map (fun m => quote (fst m) +:+ ": " +:+ serialize gap inner (snd m)) members)
    +:+ newline +:+ indent +:+ "}"
  end.

(** JSON.stringify(value, null, 2). *)
Definition JSON_stringify_2 (v : json) : string := serialize "  " "" v.

Definition to_json (v : number_or_null) : json :=
  match v with
  | Number x => JSON_number x
  | Null => JSON_null
  end.

End JS.

(** ** Effects

    What a handler does to the outside world, in order, and how it ends. *)

Inductive file : Type :=
| DATA_FILE                  (* path.join(__dirname, 'expenses.json') *)
| budgetsFile                (* path.join(__dirname, 'budgets.json') *)
| path (name : string)       (* a path given on the command line *).

Inductive effect : Type :=
| console_log (line : string)
| console_error (line : string)
| writeFileSync (f : file) (data : string).

Inductive completion (A : Type) : Type :=
| Return (a : A)
| Throw (message : string).
Arguments Return {A} a.
Arguments Throw {A} message.

Definition run (A : Type) : Type := list effect * completion A.

Definition throw {A} (message : string) : run A := ([], Throw message).

Definition perform (e : effect) : run unit := ([e], Return tt).

#[global] Instance run_ret : MRet run := fun A a => ([], Return a).

#[global] Instance run_bind : MBind run := fun A B k m =>
  match m with
  | (t, Return a) => let '(t', r) := k a in (t ++ t', r)
  | (t, Throw message) => (t, Throw message)
  end.

Definition trace {A} (m : run A) : list effect := fst m.

Definition writes {A} (m : run A) : list (file * string) :=
  omap (fun e => match e with writeFileSync f d => Some (f, d) | _ => None end) (trace m).

(** What the file system and JSON.parse give a handler: the parsed document,
    or the error that [readFileSync] or [JSON.parse] throws. *)
Inductive read (A : Type) : Type :=
| parsed (v : A)
| unreadable (message : string).
Arguments parsed {A} v.
Arguments unreadable {A} message.

(** What the host provides: the clock, and the long month name of the
    default locale for [new Date(2024, monthIndex)]. *)
Record host : Type := {
  toISOString : string;
  monthLong : float -> string
}.

(** ** Data model *)

Module Expense.
Record t : Type := mk {
  id : float;
  date : string;
  description : string;
  amount : JS.number_or_null;
  category : option string
}.
End Expense.
Abbreviation expense := Expense.t.

Definition expense_to_json (e : expense) : JS.json :=
  JS.JSON_object
    ([("id", JS.JSON_number (Expense.id e));
      ("date", JS.JSON_string (Expense.date e));
      ("description", JS.JSON_string (Expense.description e));
      ("amount", JS.to_json (Expense.amount e))]%string
     ++ match Expense.category e with
        | Some c => [("category"%string, JS.JSON_string c)]
        | None => []
        end).

Definition expenses_document (expenses : list expense) : string :=
  JS.JSON_stringify_2 (JS.JSON_array (map expense_to_json expenses)).

Definition budgets_document (BUDGETS : JS.object JS.number_or_null) : string :=
  JS.JSON_stringify_2
    (JS.JSON_object (map (fun kv => (fst kv, JS.to_json (snd kv))) (JS.Object_entries BUDGETS))).

(** ** Helper functions *)

(** The first statement of the program: the data file is created, holding
    the empty list, when it does not exist. *)
Definition initialize (exists_DATA_FILE : bool) : run unit :=
  if exists_DATA_FILE then mret tt
  else perform (writeFileSync DATA_FILE (JS.JSON_stringify_2 (JS.JSON_array []))).

Definition readExpenses (doc : read (list expense)) : run (list expense) :=
  match doc with
  | parsed expenses => mret expenses
  | unreadable message =>
    perform (console_error ("Error reading expenses: " +:+ message));; mret []
  end.

Definition validateAmount (amount : float) : run float :=
  if is_nan amount || (amount <=? 0)%float
  then throw "Amount must be a positive number"
  else mret amount.

(** [description.replace(/<[^>]*>?/gm, '')]: a match runs from a [<] to the
    next [>], or to the end of the text when there is none. *)
Fixpoint sanitizeDescription_from (inside : bool) (description : string) : string :=
  match description with
  | EmptyString => EmptyString
  | String c rest =>
    if inside then
      if Ascii.eqb c ">" then sanitizeDescription_from false rest
      else sanitizeDescription_from true rest
    else if Ascii.eqb c "<" then sanitizeDescription_from true rest
    else String c (sanitizeDescription_from false rest)
  end.

Definition sanitizeDescription (description : string) : string :=
  sanitizeDescription_from false description.

(** The test of [writeExpenses] on one record. *)
Definition invalid (e : expense) : bool :=
  negb (JS.truthy (Expense.id e)) || negb (JS.nonempty (Expense.date e))
  || negb (JS.nonempty (Expense.description e)) || negb (JS.ToBoolean (Expense.amount e)).

Fixpoint validate_each (expenses : list expense) : run unit :=
  match expenses with
  | [] => mret tt
  | e :: rest => if invalid e then throw "Invalid expense data" else validate_each rest
  end.

Definition writeExpenses (expenses : list expense) : run unit :=
  validate_each expenses;;
  perform (writeFileSync DATA_FILE (expenses_document expenses)).

Definition generateId (expenses : list expense) : float :=
  if (0 <? length expenses)%nat
  then (JS.Math_max (map Expense.id expenses) + 1)%float
  else 1%float.

Definition formatDate (h : host) : string :=
  default ""%string (head (JS.String_split "T" (toISOString h))).

Definition CATEGORIES : list string :=
  ["Food"; "Transportation"; "Housing"; "Entertainment";
   "Utilities"; "Healthcare"; "Education"; "Other"]%string.

(** [readBudgets] assigns the global [BUDGETS]; it is passed in and returned. *)
Definition readBudgets (doc : option (read (JS.object JS.number_or_null)))
  (BUDGETS : JS.object JS.number_or_null) : run (JS.object JS.number_or_null) :=
  match doc with
  | None => mret BUDGETS
  | Some (parsed budgets) => mret budgets
  | Some (unreadable message) =>
    perform (console_error ("Error reading budgets: " +:+ message));; mret BUDGETS
  end.

Definition writeBudgets (BUDGETS : JS.object JS.number_or_null) : run unit :=
  perform (writeFileSync budgetsFile (budgets_document BUDGETS)).

Definition monthName (h : host) (month : float) : string :=
  monthLong h (month - 1)%float.

Fixpoint findIndex {A} (p : A -> bool) (l : list A) : option nat :=
  match l with
  | [] => None
  | x :: rest => if p x then Some O else S <$> findIndex p rest
  end.

(** ** Command handlers *)

Module Add.
Record options : Type := {
  description : string;        (* required *)
  amount : float;              (* required, parseFloat *)
  category : option string
}.

Definition newExpense (h : host) (o : options) (expenses : list expense) : expense :=
  Expense.mk (generateId expenses) (formatDate h) (description o) (JS.Number (amount o))
             (Some (JS.or_else (category o) "Other")).

Definition action (h : host) (doc : read (list expense)) (o : options) : run unit :=
  expenses ← readExpenses doc;
  let newExpense := newExpense h o expenses in
  let expenses := expenses ++ [newExpense] in
  writeExpenses expenses;;
  perform (console_log ("# Expense added successfully (ID: "
                        +:+ JS.Number_toString (Expense.id newExpense) +:+ ")")).
End Add.

Module Update.
Record options : Type := {
  id : float;                  (* required, parseInt *)
  description : option string;
  amount : option float;       (* parseFloat *)
  category : option string
}.

(** The three conditional assignments to the record found. *)
Definition assign (o : options) (e : expense) : expense :=
  let e := match description o with
           | Some d => if JS.nonempty d
                       then Expense.mk (Expense.id e) (Expense.date e) d (Expense.amount e) (Expense.category e)
                       else e
           | None => e
           end in
  let e := match amount o with
           | Some a => if JS.truthy a
                       then Expense.mk (Expense.id e) (Expense.date e) (Expense.description e)
                                       (JS.Number a) (Expense.category e)
                       else e
           | None => e
           end in
  match category o with
  | Some c => if JS.nonempty c
              then Expense.mk (Expense.id e) (Expense.date e) (Expense.description e) (Expense.amount e) (Some c)
              else e
  | None => e
  end.

Definition action (doc : read (list expense)) (o : options) : run unit :=
  expenses ← readExpenses doc;
  match findIndex (fun e => (Expense.id e =? id o)%float) expenses with
  | None =>
    perform (console_log ("# Expense with ID " +:+ JS.Number_toString (id o) +:+ " not found"))
  | Some index =>
    let expenses := alter (assign o) index expenses in
    writeExpenses expenses;;
    perform (console_log "# Expense updated successfully")
  end.
End Update.

Module Delete.
Record options : Type := {
  id : float                   (* required, parseInt *)
}.

Definition action (doc : read (list expense)) (o : options) : run unit :=
  expenses ← readExpenses doc;
  match findIndex (fun e => (Expense.id e =? id o)%float) expenses with
  | None =>
    perform (console_log ("# Expense with ID " +:+ JS.Number_toString (id o) +:+ " not found"))
  | Some index =>
    let expenses := delete index expenses in
    writeExpenses expenses;;
    perform (console_log "# Expense deleted successfully")
  end.
End Delete.

Module SetBudget.
Record options : Type := {
  month : float;               (* required, parseInt *)
  amount : float               (* required, parseFloat *)
}.

Definition action (h : host) (doc : option (read (JS.object JS.number_or_null)))
  (o : options) : run unit :=
  BUDGETS ← readBudgets doc [];
  let BUDGETS := JS.set BUDGETS (JS.Number_toString (month o)) (JS.Number (amount o)) in
  writeBudgets BUDGETS;;
  perform (console_log ("# Budget for " +:+ monthName h (month o) +:+ " set to $"
                        +:+ JS.Number_toString (amount o))).
End SetBudget.

Module Summary.
Record options : Type := {
  month : option float;        (* parseInt *)
  category : option string;
  byCategory : bool
}.

Definition in_category (c : string) (e : expense) : bool :=
  String.eqb (JS.toLowerCase (JS.or_else (Expense.category e) "Other")) (JS.toLowerCase c).

(** [parseInt(e.date.split('-')[1])] *)
Definition month_of (e : expense) : float :=
  JS.parseInt_of (JS.String_split "-" (Expense.date e) !! 1%nat).

Definition in_month (m : float) (e : expense) : bool := (month_of e =? m)%float.

Definition sum (expenses : list expense) : float :=
  fold_left (fun sum e => (sum + JS.ToNumber (Expense.amount e))%float) expenses 0%float.

(** A property of the [byCategory] accumulator: a number, or what adding a
    number to an inherited method leaves there. *)
Inductive subtotal : Type :=
| number (x : float)
| not_a_number.

(** [acc[category] = (acc[category] || 0) + expense.amount]. Reading a name
    that [Object.prototype] defines gives a function, and adding to it a
    string; assigning to [__proto__] creates no property. *)
Definition accumulate (acc : JS.object subtotal) (e : expense) : JS.object subtotal :=
  let category := JS.or_else (Expense.category e) "Other" in
  if String.eqb category "__proto__" then acc
  else
    match JS.get acc category with
    | Some (number x) =>
      JS.set acc category
        (number ((if JS.truthy x then x else 0) + JS.ToNumber (Expense.amount e))%float)
    | Some not_a_number => acc
    | None =>
      if bool_decide (category ∈ JS.inherited) then JS.set acc category not_a_number
      else JS.set acc category (number (0 + JS.ToNumber (Expense.amount e))%float)
    end.

Definition padEnd (n : nat) (s : string) : string :=
  s +:+ String.concat "" (replicate (n - String.length s)%nat " "%string).

Fixpoint print_entries (entries : list (string * subtotal)) : run unit :=
  match entries with
  | [] => mret tt
  | (category, number amount) :: rest =>
    perform (console_log ("# " +:+ padEnd 12 category +:+ ": $" +:+ JS.Number_toFixed 2 amount));;
    print_entries rest
  | (category, not_a_number) :: rest => throw "amount.toFixed is not a function"
  end.

Definition budget_check (h : host) (doc : option (read (JS.object JS.number_or_null)))
  (month total : float) : run unit :=
  BUDGETS ← readBudgets doc [];
  match JS.get BUDGETS (JS.Number_toString month) with
  | Some (JS.Number budget) =>
    if JS.truthy budget then
      if (budget <=? total)%float then
        perform (console_log ("# WARNING: You've exceeded your " +:+ monthName h month
                              +:+ " budget of $" +:+ JS.Number_toString budget
                              +:+ " by $" +:+ JS.Number_toFixed 2 (total - budget)%float))
      else
        perform (console_log ("# Remaining budget for " +:+ monthName h month +:+ ": $"
                              +:+ JS.Number_toFixed 2 (budget - total)%float))
    else mret tt
  | Some JS.Null => mret tt
  | None => mret tt
  end.

Definition action (h : host) (doc : read (list expense))
  (budgets : option (read (JS.object JS.number_or_null))) (o : options) : run unit :=
  expenses ← readExpenses doc;
  let filtered :=
    match category o with
    | Some c => if JS.nonempty c then filter (fun e => in_category c e) expenses else expenses
    | None => expenses
    end in
  filtered ←
    match month o with
    | Some m =>
      if JS.truthy m then
        let filtered := filter (fun e => in_month m e) expenses in
        let total := sum filtered in
        perform (console_log ("# Total expenses for " +:+ monthName h m +:+ ": $"
                              +:+ JS.Number_toString total));;
        budget_check h budgets m total;;
        mret filtered
      else
        perform (console_log ("# Total expenses: $" +:+ JS.Number_toString (sum filtered)));;
        mret filtered
    | None =>
      perform (console_log ("# Total expenses: $" +:+ JS.Number_toString (sum filtered)));;
      mret filtered
    end;
  if byCategory o then
    perform (console_log (JS.newline +:+ "# Expenses by category:"));;
    print_entries (JS.Object_entries (fold_left accumulate filtered []))
  else mret tt.
End Summary.

Module ExportCsv.
Record options : Type := {
  file : option string
}.

Definition row (e : expense) : string :=
  JS.Number_toString (Expense.id e) +:+ "," +:+ Expense.date e +:+ ","
  +:+ JS.or_else (Expense.category e) "Other" +:+ ","
  +:+ String (ascii_of_N 34) (Expense.description e) +:+ String (ascii_of_N 34) ","
  +:+ JS.ToString (Expense.amount e) +:+ JS.newline.

Definition header : string := "ID,Date,Category,Description,Amount" +:+ JS.newline.

Definition csv (expenses : list expense) : string :=
  fold_left (fun csv e => csv +:+ row e) expenses header.

Definition action (doc : read (list expense)) (o : options) : run unit :=
  expenses ← readExpenses doc;
  let outputFile := JS.or_else (file o) "expenses.csv" in
  perform (writeFileSync (path outputFile) (csv expenses));;
  perform (console_log ("# Expenses exported to " +:+ outputFile)).
End ExportCsv.

(** [array.forEach(f)] for an [f] with effects: the first throw ends it. *)
Fixpoint forEach {A} (f : A -> run unit) (l : list A) : run unit :=
  match l with
  | [] => mret tt
  | x :: rest => f x;; forEach f rest
  end.

(** [array.map(f)] for an [f] that may throw: the first throw ends it. *)
Fixpoint array_map {A B} (f : A -> run B) (l : list A) : run (list B) :=
  match l with
  | [] => mret []
  | x :: rest => y ← f x; ys ← array_map f rest; mret (y :: ys)
  end.

Module ListCmd.
Record options : Type := {
  category : option string
}.

(** [Math.max(floor, ...lengths)]: the arguments are lengths of strings, on
    which [Math.max] is the maximum of natural numbers. *)
Definition width (floor : nat) (lengths : list nat) : nat :=
  foldr Nat.max floor lengths.

Definition padEnd (n : nat) (s : string) : string :=
  s +:+ String.concat "" (replicate (n - String.length s)%nat " "%string).

Definition padStart (n : nat) (s : string) : string :=
  String.concat "" (replicate (n - String.length s)%nat " "%string) +:+ s.

Definition in_category (c : string) (e : expense) : bool :=
  String.eqb (JS.toLowerCase (JS.or_else (Expense.category e) "Other")) (JS.toLowerCase c).

Definition idWidth (expenses : list expense) : nat :=
  width 2 (map (fun e => String.length (JS.Number_toString (Expense.id e))) expenses).

Definition dateWidth : nat := 10.

Definition categoryWidth (expenses : list expense) : nat :=
  width 8 (map (fun e => String.length (JS.or_else (Expense.category e) "Other")) expenses).

Definition descWidth (expenses : list expense) : nat :=
  width 11 (map (fun e => String.length (Expense.description e)) expenses).

(** [e.amount.toString()] and [expense.amount.toFixed(2)]: reading a property
    of [null] throws a TypeError. *)
Definition amount_toString (e : expense) : run string :=
  match Expense.amount e with
  | JS.Number x => mret (JS.Number_toString x)
  | JS.Null => throw "Cannot read properties of null (reading 'toString')"
  end.

Definition amount_toFixed (e : expense) : run string :=
  match Expense.amount e with
  | JS.Number x => mret (JS.Number_toFixed 2 x)
  | JS.Null => throw "Cannot read properties of null (reading 'toFixed')"
  end.

Definition amountWidth (expenses : list expense) : run nat :=
  lengths ← array_map (fun e => s ← amount_toString e; mret (String.length s + 3)%nat)
                      expenses;
  mret (width 6 lengths).

Definition header (idWidth categoryWidth descWidth amountWidth : nat) : string :=
  "# " +:+ padEnd idWidth "ID" +:+ "  " +:+ padEnd dateWidth "Date" +:+ "  "
  +:+ padEnd categoryWidth "Category" +:+ "  "
  +:+ padEnd descWidth "Description" +:+ "  "
  +:+ padStart amountWidth "Amount".

(** The row of [expense]; [amount] is what [expense.amount.toFixed(2)] gave. *)
Definition row (idWidth categoryWidth descWidth amountWidth : nat) (expense : expense)
  (amount : string) : string :=
  "# " +:+ padEnd idWidth (JS.Number_toString (Expense.id expense)) +:+ "  "
  +:+ padEnd dateWidth (Expense.date expense) +:+ "  "
  +:+ padEnd categoryWidth (JS.or_else (Expense.category expense) "Other") +:+ "  "
  +:+ padEnd descWidth (Expense.description expense) +:+ "  $"
  +:+ padStart (amountWidth - 1) amount.

Definition action (doc : read (list expense)) (o : options) : run unit :=
  expenses ← readExpenses doc;
  let expenses :=
    match category o with
    | Some c => if JS.nonempty c then filter (fun e => in_category c e) expenses else expenses
    | None => expenses
    end in
  if (length expenses =? 0)%nat then perform (console_log "# No expenses found")
  else
    let idWidth := idWidth expenses in
    let categoryWidth := categoryWidth expenses in
    let descWidth := descWidth expenses in
    amountWidth ← amountWidth expenses;
    perform (console_log (header idWidth categoryWidth descWidth amountWidth));;
    forEach (fun expense =>
               amount ← amount_toFixed expense;
               perform (console_log (row idWidth categoryWidth descWidth amountWidth
                                         expense amount)))
            expenses.
End ListCmd.

(** ** Vocabulary of the properties *)

(** The order of binary64 values other than NaN, as a lexicographic order on
    integer triples: it is the order [SFcompare] decides. *)
Definition key (x : spec_float) : Z * Z * Z :=
  match x with
  | S754_nan => (0, 0, 0)
  | S754_zero _ => (0, 0, 0)
  | S754_infinity true => (-2, 0, 0)
  | S754_infinity false => (2, 0, 0)
  | S754_finite true m e => (-1, - e, Z.neg m)
  | S754_finite false m e => (1, e, Z.pos m)
  end.

Definition lex (a b : Z * Z * Z) : comparison :=
  match a.1.1 ?= b.1.1 with
  | Eq => match a.1.2 ?= b.1.2 with
          | Eq => a.2 ?= b.2
          | c => c
          end
  | c => c
  end.

Definition below (a b : Z * Z * Z) : Prop :=
  a.1.1 < b.1.1 \/ (a.1.1 = b.1.1 /\ (a.1.2 < b.1.2 \/ (a.1.2 = b.1.2 /\ a.2 < b.2))).

Definition SFnan (x : spec_float) : bool :=
  match x with S754_nan => true | _ => false end.

Definition fkey (x : float) : Z * Z * Z := key (Prim2SF x).


(** [m] is a maximum of the numbers [l]: it equals ([===]) one of them and
    none exceeds it. *)
Definition is_maximum (m : float) (l : list float) : Prop :=
  (exists i, i ∈ l /\ (i =? m)%float = true) /\
  (forall i, i ∈ l -> (i <=? m)%float = true).

(** A record that [writeExpenses] refuses, in the words of the
    specification: its id, date, description or amount is falsy. *)
Definition has_falsy_field (e : expense) : Prop :=
  JS.truthy (Expense.id e) = false \/ Expense.date e = ""%string
  \/ Expense.description e = ""%string \/ JS.ToBoolean (Expense.amount e) = false.

(** The text of a number in a document: [null] for what is no finite
    number. *)
Definition number_text (v : JS.number_or_null) : string :=
  match v with
  | JS.Number x => if is_finite x then JS.Number_toString x else "null"
  | JS.Null => "null"
  end.

(** The pretty-printed document with a 2-space indent, written out: the
    brackets of the array in column 0, the braces of each record in column 2,
    one member per line in column 4. *)
Definition member_layout (k v : string) : string :=
  "    " +:+ JS.quote k +:+ ": " +:+ v.

Definition record_layout (e : expense) : string :=
  "{" +:+ JS.newline
  +:+ String.concat ("," +:+ JS.newline)
        ([member_layout "id" (number_text (JS.Number (Expense.id e)));
          member_layout "date" (JS.quote (Expense.date e));
          member_layout "description" (JS.quote (Expense.description e));
          member_layout "amount" (number_text (Expense.amount e))]
         ++ match Expense.category e with
            | Some c => [member_layout "category" (JS.quote c)]
            | None => []
            end)
  +:+ JS.newline +:+ "  }".

Definition document_layout (expenses : list expense) : string :=
  match expenses with
  | [] => "[]"
  | _ =>
    "[" +:+ JS.newline +:+ "  "
    +:+ String.concat ("," +:+ JS.newline +:+ "  ") (map record_layout expenses)
    +:+ JS.newline +:+ "]"
  end.

(** The budgets document with a 2-space indent, written out: the braces in
    column 0, one member per line in column 2, in the order of
    [Object.entries]. *)
Definition budget_member (kv : string * JS.number_or_null) : string :=
  JS.quote (fst kv) +:+ ": " +:+ number_text (snd kv).

Definition budgets_layout (members : list (string * JS.number_or_null)) : string :=
  match members with
  | [] => "{}"
  | _ =>
    "{" +:+ JS.newline +:+ "  "
    +:+ String.concat ("," +:+ JS.newline +:+ "  ") (map budget_member members)
    +:+ JS.newline +:+ "}"
  end.

(** The budgets as a later run of the program reads them: [JSON.parse] of
    the document that [writeBudgets] wrote, its members in the order of the
    document. *)
Definition reread_budgets (BUDGETS : JS.object JS.number_or_null)
  : JS.object JS.number_or_null :=
  map (fun kv => (fst kv, JS.read_back (snd kv))) (JS.Object_entries BUDGETS).

(** One row of the CSV export in the words of the specification: the five
    fields separated by commas, the description between double quotes as it
    is, "Other" for a category that is absent (or empty). *)
Definition csv_category (e : expense) : string :=
  match Expense.category e with
  | None => "Other"
  | Some c => if String.eqb c "" then "Other" else c
  end.

Definition csv_row (e : expense) : string :=
  String.concat ","
    [JS.Number_toString (Expense.id e);
     Expense.date e;
     csv_category e;
     String (ascii_of_N 34) (Expense.description e +:+ String (ascii_of_N 34) EmptyString);
     JS.ToString (Expense.amount e)]
  +:+ JS.newline.

Definition csv_header : string := "ID,Date,Category,Description,Amount" +:+ JS.newline.


(** A printed amount with exactly two decimal digits: it ends with a point
    and two digits, and what precedes the point is not empty and holds no
    other point. *)
Definition is_digit (c : ascii) : bool :=
  let n := N_of_ascii c in ((48 <=? n) && (n <=? 57))%N.

Definition two_decimals (s : string) : bool :=
  match rev (String.list_ascii_of_string s) with
  | d2 :: d1 :: point :: before =>
    is_digit d2 && is_digit d1 && Ascii.eqb point "."
    && negb (existsb (Ascii.eqb ".") before) && (0 <? length before)%nat
  | _ => false
  end.

(** The magnitude of a finite number is below [bound]. *)
Definition magnitude_below (x : float) (bound : Z) : bool :=
  let '(p, q) := JS.exact_fraction x in p <? bound * q.

(** The entries that the breakdown of summary prints: those before the
    first that is no number. *)
Fixpoint printed_entries (entries : list (string * Summary.subtotal))
  : list (string * float) :=
  match entries with
  | (category, Summary.number amount) :: rest => (category, amount) :: printed_entries rest
  | _ => []
  end.

(** An effect on the console only: not a write to a file. *)
Definition on_console (e : effect) : bool :=
  match e with
  | writeFileSync _ _ => false
  | _ => true
  end.

(** The character [c] occurs in the text [s]. *)
Definition occurs (c : ascii) (s : string) : Prop :=
  c ∈ String.list_ascii_of_string s.

(** The ids of a store are pairwise distinct ([===] never holds between two
    positions). *)
Definition distinct_ids (expenses : list expense) : Prop :=
  forall i j a b,
    expenses !! i = Some a -> expenses !! j = Some b ->
    (Expense.id a =? Expense.id b)%float = true -> i = j.

(** ** Sample data for the instances below *)

Definition long_month_names : list string :=
  ["January"; "February"; "March"; "April"; "May"; "June"; "July"; "August";
   "September"; "October"; "November"; "December"]%string.

Fixpoint name_at (names : list string) (i monthIndex : float) : string :=
  match names with
  | [] => "Invalid Date"
  | name :: rest => if (i =? monthIndex)%float then name else name_at rest (i + 1)%float monthIndex
  end.

(** A host with an English locale (month indices 0 to 11), on 15 August 2024. *)
Definition sample_host : host := {|
  toISOString := "2024-08-15T10:00:00.000Z";
  monthLong := name_at long_month_names 0%float
|}.

Definition lunch : expense :=
  Expense.mk 1 "2024-08-01" "Lunch" (JS.Number 100) (Some "Food"%string).
Definition taxi : expense := Expense.mk 2 "2024-08-02" "Taxi" (JS.Number 200) None.
Definition rent : expense :=
  Expense.mk 3 "2024-08-03" "Rent" (JS.Number 300) (Some "Housing"%string).
Definition nameless : expense := Expense.mk 4 "2024-08-04" "" (JS.Number 5) None.

(** * Properties *)

(** ** Sanity checks of the built-ins against known outputs *)

Example Number_toString_examples :
  map JS.Number_toString
    [0.1; 0.1 + 0.2; 600; -25; 1e21; 1e20; 1e-7; 0.000001; 1 / 3; 5e-324;
     1.7976931348623157e308; 9007199254740993; 12.5; -0; nan; infinity]%float
  = ["0.1"; "0.30000000000000004"; "600"; "-25"; "1e+21"; "100000000000000000000";
     "1e-7"; "0.000001"; "0.3333333333333333"; "5e-324";
     "1.7976931348623157e+308"; "9007199254740992"; "12.5"; "0"; "NaN";
     "Infinity"]%string.
Proof. vm_compute. reflexivity. Qed.

Example Number_toFixed_examples :
  map (JS.Number_toFixed 2)
    [100; 0.5; 123.456; 1.005; 2.675; -0.001; -1.5; 0; 1e21; nan]%float
  = ["100.00"; "0.50"; "123.46"; "1.00"; "2.67"; "-0.00"; "-1.50"; "0.00"; "1e+21";
     "NaN"]%string.
Proof. vm_compute. reflexivity. Qed.

Example parseInt_examples :
  map (fun s => JS.Number_toString (JS.parseInt s))
    ["08"; " 12abc"; "-7"; "0x1f"; "abc"; ""; "3.9"]%string
  = ["8"; "12"; "-7"; "31"; "NaN"; "NaN"; "3"]%string.
Proof. vm_compute. reflexivity. Qed.

Example String_split_examples :
  map (JS.String_split "-") ["2024-08-15"; "20240815"; ""; "-"]%string
  = [["2024"; "08"; "15"]; ["20240815"]; [""]; [""; ""]]%string.
Proof. reflexivity. Qed.

Example Math_max_examples :
  map JS.Math_max [[1; 5; 3]; [-2; -7]; []; [1; nan; 9]]%float
  = [5; -2; neg_infinity; nan]%float.
Proof. reflexivity. Qed.

Example Object_entries_example :
  map fst (JS.Object_entries [("x", 1); ("12", 2); ("8", 3); ("08", 4)]%string%float)
  = ["8"; "12"; "x"; "08"]%string.
Proof. reflexivity. Qed.

(** Characters above U+007F are written by their code unit: U+00C9 and
    U+00E9 are the capital and the small e with acute, U+00D7 is the
    multiplication sign. *)
Example toLowerCase_examples :
  map JS.toLowerCase
    ["Food"; "OTHER"; "CAF" +:+ String (ascii_of_N 201) ""; String (ascii_of_N 215) "2"]%string
  = ["food"; "other"; "caf" +:+ String (ascii_of_N 233) ""; String (ascii_of_N 215) "2"]%string.
Proof. reflexivity. Qed.

Example in_category_example :
  Summary.in_category ("CAF" +:+ String (ascii_of_N 201) "")
    (Expense.mk 1 "2024-08-01" "Espresso" (JS.Number 3)
       (Some ("Caf" +:+ String (ascii_of_N 233) "")))
  = true.
Proof. reflexivity. Qed.

Example read_back_examples :
  map JS.read_back [JS.Number 12.5; JS.Number (-0); JS.Number infinity;
                    JS.Number neg_infinity; JS.Number nan; JS.Null]
  = [JS.Number 12.5; JS.Number 0; JS.Null; JS.Null; JS.Null; JS.Null].
Proof. reflexivity. Qed.

Example sanitizeDescription_example :
  sanitizeDescription "a<b>c<d" = "ac"%string.
Proof. reflexivity. Qed.

Example month_of_example : Summary.month_of lunch = 8%float.
Proof. reflexivity. Qed.

(** ** The scenarios of the specification, run on the embedding *)

Example scenario_two_adds :
  Add.action sample_host (parsed [])
    {| Add.description := "Lunch"; Add.amount := 20; Add.category := None |}
  = ([writeFileSync DATA_FILE
        (expenses_document [Expense.mk 1 "2024-08-15" "Lunch" (JS.Number 20) (Some "Other"%string)]);
      console_log "# Expense added successfully (ID: 1)"],
     Return tt)
  /\ Add.action sample_host
       (parsed [Expense.mk 1 "2024-08-15" "Lunch" (JS.Number 20) (Some "Other"%string)])
       {| Add.description := "Coffee"; Add.amount := 5; Add.category := None |}
     = ([writeFileSync DATA_FILE
           (expenses_document
              [Expense.mk 1 "2024-08-15" "Lunch" (JS.Number 20) (Some "Other"%string);
               Expense.mk 2 "2024-08-15" "Coffee" (JS.Number 5) (Some "Other"%string)]);
         console_log "# Expense added successfully (ID: 2)"],
        Return tt).
Proof. split; vm_compute; reflexivity. Qed.

Example scenario_summary_by_category :
  Summary.action sample_host
    (parsed [Expense.mk 1 "2024-08-15" "Lunch" (JS.Number 20) (Some "Other"%string);
             Expense.mk 2 "2024-08-15" "Coffee" (JS.Number 5) (Some "Other"%string)])
    None
    {| Summary.month := None; Summary.category := None; Summary.byCategory := true |}
  = ([console_log "# Total expenses: $25";
      console_log (JS.newline +:+ "# Expenses by category:");
      console_log "# Other       : $25.00"],
     Return tt).
Proof. vm_compute. reflexivity. Qed.

Example scenario_delete :
  Delete.action (parsed [lunch; taxi; rent]) {| Delete.id := 2 |}
  = ([writeFileSync DATA_FILE (expenses_document [lunch; rent]);
      console_log "# Expense deleted successfully"],
     Return tt).
Proof. vm_compute. reflexivity. Qed.

(** A record whose amount reads back as [null] (an infinite amount was
    added): list throws, summary counts it as 0, export prints [null], and
    the validation of [writeExpenses] refuses the store. *)
Example scenario_null_amount :
  let gift := Expense.mk 2 "2024-08-15" "Gift" JS.Null (Some "Other"%string) in
  ListCmd.action (parsed [lunch; gift]) {| ListCmd.category := None |}
  = ([], Throw "Cannot read properties of null (reading 'toString')")
  /\ Summary.action sample_host (parsed [lunch; gift]) None
       {| Summary.month := None; Summary.category := None; Summary.byCategory := true |}
     = ([console_log "# Total expenses: $100";
         console_log (JS.newline +:+ "# Expenses by category:");
         console_log "# Food        : $100.00";
         console_log "# Other       : $0.00"],
        Return tt)
  /\ ExportCsv.row gift
     = "2,2024-08-15,Other," +:+ String (ascii_of_N 34) "Gift"
       +:+ String (ascii_of_N 34) ",null" +:+ JS.newline
  /\ Delete.action (parsed [lunch; gift]) {| Delete.id := 1 |}
     = ([], Throw "Invalid expense data").
Proof. repeat split; vm_compute; reflexivity. Qed.

Example scenario_inherited_category :
  Summary.action sample_host
    (parsed [lunch; Expense.mk 2 "2024-08-02" "Odd" (JS.Number 7) (Some "constructor"%string)])
    None
    {| Summary.month := None; Summary.category := None; Summary.byCategory := true |}
  = ([console_log "# Total expenses: $107";
      console_log (JS.newline +:+ "# Expenses by category:");
      console_log "# Food        : $100.00"],
     Throw "amount.toFixed is not a function").
Proof. vm_compute. reflexivity. Qed.


(** ** The order of numbers *)

Lemma SFcompare_lex (x y : spec_float) :
  SFcompare x y = if SFnan x || SFnan y then None else Some (lex (key x) (key y)).
Proof.
  destruct x as [[]|[]| |[] m1 e1], y as [[]|[]| |[] m2 e2];
    try reflexivity; unfold lex; cbn [SFcompare key fst snd SFnan orb].
  rewrite Z.compare_opp, (Z.compare_antisym e1 e2). destruct (e1 ?= e2); reflexivity.
Qed.

Lemma lex_Lt a b : lex a b = Lt <-> below a b.
Proof.
  destruct a as [[a1 a2] a3], b as [[b1 b2] b3]; unfold lex, below; cbn [fst snd].
  destruct (Z.compare_spec a1 b1), (Z.compare_spec a2 b2), (Z.compare_spec a3 b3);
    split; intros; try discriminate; try reflexivity; lia.
Qed.

Lemma lex_Eq a b : lex a b = Eq <-> a = b.
Proof.
  destruct a as [[a1 a2] a3], b as [[b1 b2] b3]; unfold lex; cbn [fst snd].
  destruct (Z.compare_spec a1 b1), (Z.compare_spec a2 b2), (Z.compare_spec a3 b3);
    split; intros H'; try discriminate; try reflexivity; try (injection H'; lia); congruence.
Qed.

Lemma lex_Gt a b : lex a b = Gt <-> below b a.
Proof.
  destruct a as [[a1 a2] a3], b as [[b1 b2] b3]; unfold lex, below; cbn [fst snd].
  destruct (Z.compare_spec a1 b1), (Z.compare_spec a2 b2), (Z.compare_spec a3 b3);
    split; intros; try discriminate; try reflexivity; lia.
Qed.

Lemma lex_refl a : lex a a = Eq.
Proof. apply lex_Eq. reflexivity. Qed.

Lemma is_nan_spec (x : float) : is_nan x = SFnan (Prim2SF x).
Proof.
  unfold is_nan. rewrite FloatAxioms.eqb_spec. unfold SFeqb. rewrite SFcompare_lex.
  destruct (SFnan (Prim2SF x)); cbn; [reflexivity | now rewrite lex_refl].
Qed.

Lemma ltb_below (x y : float) :
  (x <? y)%float = true <-> is_nan x = false /\ is_nan y = false /\ below (fkey x) (fkey y).
Proof.
  rewrite !is_nan_spec, FloatAxioms.ltb_spec. unfold SFltb, fkey. rewrite SFcompare_lex, <- lex_Lt.
  destruct (SFnan (Prim2SF x)), (SFnan (Prim2SF y)); cbn; try (split; [discriminate | intros (? & ? & ?); discriminate]).
  destruct (lex _ _); split; try discriminate; try tauto; intros (? & ? & ?); discriminate.
Qed.

Lemma eqb_key (x y : float) :
  (x =? y)%float = true <-> is_nan x = false /\ is_nan y = false /\ fkey x = fkey y.
Proof.
  rewrite !is_nan_spec, FloatAxioms.eqb_spec. unfold SFeqb, fkey. rewrite SFcompare_lex, <- lex_Eq.
  destruct (SFnan (Prim2SF x)), (SFnan (Prim2SF y)); cbn; try (split; [discriminate | intros (? & ? & ?); discriminate]).
  destruct (lex _ _); split; try discriminate; try tauto; intros (? & ? & ?); discriminate.
Qed.

Lemma leb_key (x y : float) :
  (x <=? y)%float = true <->
  is_nan x = false /\ is_nan y = false /\ (below (fkey x) (fkey y) \/ fkey x = fkey y).
Proof.
  rewrite !is_nan_spec, FloatAxioms.leb_spec. unfold SFleb, fkey. rewrite SFcompare_lex, <- lex_Lt, <- lex_Eq.
  destruct (SFnan (Prim2SF x)), (SFnan (Prim2SF y)); cbn; try (split; [discriminate | intros (? & ? & ?); discriminate]).
  destruct (lex _ _); split; try discriminate; try tauto; intros (? & ? & [?|?]); discriminate.
Qed.

Lemma below_total a b : below a b \/ a = b \/ below b a.
Proof.
  destruct a as [[a1 a2] a3], b as [[b1 b2] b3]; unfold below; cbn [fst snd].
  destruct (Z.lt_total a1 b1) as [|[|]], (Z.lt_total a2 b2) as [|[|]], (Z.lt_total a3 b3) as [|[|]];
    subst; auto; lia.
Qed.

Lemma below_trans a b c : below a b -> below b c -> below a c.
Proof. unfold below. lia. Qed.

Lemma below_irrefl a : ~ below a a.
Proof. unfold below. lia. Qed.

Lemma ltb_false_leb (x y : float) :
  is_nan x = false -> is_nan y = false -> (x <? y)%float = false -> (y <=? x)%float = true.
Proof.
  intros Hx Hy H. apply leb_key. repeat split; try assumption.
  destruct (below_total (fkey x) (fkey y)) as [Hb|[->|Hb]]; auto.
  assert ((x <? y)%float = true) by (apply ltb_below; auto). congruence.
Qed.

Lemma leb_trans (x y z : float) :
  (x <=? y)%float = true -> (y <=? z)%float = true -> (x <=? z)%float = true.
Proof.
  rewrite !leb_key. intros (? & ? & H1) (? & ? & H2). repeat split; try assumption.
  destruct H1 as [H1| ->], H2 as [H2| <-]; eauto using below_trans.
Qed.

Lemma ltb_leb (x y : float) : (x <? y)%float = true -> (x <=? y)%float = true.
Proof. rewrite ltb_below, leb_key. tauto. Qed.

Lemma eqb_leb (x y : float) : (x =? y)%float = true -> (x <=? y)%float = true.
Proof. rewrite eqb_key, leb_key. tauto. Qed.

Lemma eqb_sym (x y : float) : (x =? y)%float = true -> (y =? x)%float = true.
Proof. rewrite !eqb_key. intuition congruence. Qed.

Lemma eqb_trans (x y z : float) :
  (x =? y)%float = true -> (y =? z)%float = true -> (x =? z)%float = true.
Proof. rewrite !eqb_key. intuition congruence. Qed.

Lemma leb_antisym (x y : float) :
  (x <=? y)%float = true -> (y <=? x)%float = true -> (x =? y)%float = true.
Proof.
  rewrite !leb_key, eqb_key. intros (? & ? & H1) (_ & _ & H2). repeat split; try assumption.
  destruct H1 as [H1|H1]; [|assumption]. destruct H2 as [H2|H2]; [|congruence].
  destruct (below_irrefl (fkey x)). eauto using below_trans.
Qed.

Lemma leb_refl (x : float) : is_nan x = false -> (x <=? x)%float = true.
Proof. intros. apply leb_key. auto. Qed.

Lemma neg_infinity_least (x : float) : is_nan x = false -> (neg_infinity <=? x)%float = true.
Proof.
  intros H. apply leb_key. split; [reflexivity | split; [assumption |]].
  rewrite is_nan_spec in H. unfold fkey.
  change (Prim2SF neg_infinity) with (S754_infinity true).
  destruct (Prim2SF x) as [[]|[]| |[] m e]; try discriminate;
    first [right; reflexivity | left; unfold below; cbn; lia].
Qed.

(** ** [Math.max] *)

Lemma Math_max_from_nan (l : list float) (h : float) :
  Exists (fun i => is_nan i = true) l -> JS.Math_max_from h l = nan.
Proof.
  intros H. revert h. induction H as [x l Hx | x l _ IH]; intros h; cbn [JS.Math_max_from].
  - now rewrite Hx.
  - destruct (is_nan x); [reflexivity |].
    destruct (_ && _); [apply IH |]. destruct (h <? x)%float; apply IH.
Qed.

Lemma Math_max_from_spec (l : list float) :
  Forall (fun i => is_nan i = false) l ->
  forall h, is_nan h = false ->
  let m := JS.Math_max_from h l in
  (h <=? m)%float = true /\
  (forall i, i ∈ l -> (i <=? m)%float = true) /\
  ((h =? m)%float = true \/ exists i, i ∈ l /\ (i =? m)%float = true).
Proof.
  induction 1 as [| x l Hx Hl IH]; intros h Hh; cbn [JS.Math_max_from].
  - split; [now apply leb_refl |]. split.
    + intros i Hi. inversion Hi.
    + left. unfold is_nan in Hh. now destruct (h =? h)%float.
  - rewrite Hx.
    destruct (is_zero x && negb (get_sign x) && is_zero h && get_sign h) eqn:Hswap.
    + apply andb_prop in Hswap as [Hswap _]. apply andb_prop in Hswap as [Hswap Hzh].
      apply andb_prop in Hswap as [Hzx _]. unfold is_zero in Hzx, Hzh.
      destruct (IH PrimFloat.zero eq_refl) as (H0 & Hall & Hin).
      split; [eauto using leb_trans, eqb_leb |]. split.
      * intros i Hi. apply elem_of_cons in Hi as [-> | Hi]; eauto using leb_trans, eqb_leb.
      * right. destruct Hin as [Hin | (i & Hi & Hin)].
        -- exists x. split; [left | eauto using eqb_trans].
        -- exists i. split; [now right | assumption].
    + destruct (h <? x)%float eqn:Hlt.
      * destruct (IH x Hx) as (H0 & Hall & Hin).
        split; [eauto using leb_trans, ltb_leb |]. split.
        -- intros i Hi. apply elem_of_cons in Hi as [-> | Hi]; auto.
        -- right. destruct Hin as [Hin | (i & Hi & Hin)].
           ++ exists x. split; [left | assumption].
           ++ exists i. split; [now right | assumption].
      * destruct (IH h Hh) as (H0 & Hall & Hin).
        split; [assumption |]. split.
        -- intros i Hi. apply elem_of_cons in Hi as [-> | Hi]; auto.
           eauto using leb_trans, ltb_false_leb.
        -- destruct Hin as [Hin | (i & Hi & Hin)]; [now left |].
           right. exists i. split; [now right | assumption].
Qed.

Lemma Math_max_is_maximum (l : list float) :
  l <> [] -> Forall (fun i => is_nan i = false) l -> is_maximum (JS.Math_max l) l.
Proof.
  intros Hne Hl. unfold JS.Math_max.
  destruct (Math_max_from_spec l Hl neg_infinity eq_refl) as (H0 & Hall & Hin).
  split; [| assumption].
  destruct Hin as [Hin | Hin]; [| assumption].
  destruct l as [| x l]; [congruence |].
  exists x. split; [left |].
  apply leb_antisym; [apply Hall; left |].
  apply leb_trans with neg_infinity; [now apply eqb_leb, eqb_sym |].
  apply neg_infinity_least. now inversion Hl.
Qed.

(** ** The laws of [run] *)

Lemma bind_ret {A B} (a : A) (k : A -> run B) : (mret a ≫= k) = k a.
Proof. unfold mbind, run_bind, mret, run_ret. now destruct (k a). Qed.

Lemma bind_throw {A B} (message : string) (k : A -> run B) :
  (throw message ≫= k) = throw message.
Proof. reflexivity. Qed.

Lemma bind_perform {B} (e : effect) (k : unit -> run B) :
  (perform e ≫= k) = (e :: trace (k tt), snd (k tt)).
Proof. unfold mbind, run_bind, perform, trace. now destruct (k tt). Qed.

Lemma bind_assoc {A B C} (m : run A) (f : A -> run B) (g : B -> run C) :
  ((m ≫= f) ≫= g) = (m ≫= fun a => f a ≫= g).
Proof.
  unfold mbind, run_bind. destruct m as [t [a | msg]]; [| reflexivity].
  destruct (f a) as [t1 [b | msg]]; [| reflexivity].
  destruct (g b) as [t2 r]. now rewrite app_assoc.
Qed.

Lemma trace_bind {A B} (m : run A) (k : A -> run B) :
  trace (m ≫= k)
  = trace m ++ match snd m with Return a => trace (k a) | Throw _ => [] end.
Proof.
  unfold mbind, run_bind, trace. destruct m as [t [a | msg]]; cbn [fst snd].
  - now destruct (k a).
  - now rewrite app_nil_r.
Qed.

(** ** C1: the identifier of a new expense *)

Lemma add_action_unfold (h : host) (o : Add.options) (expenses : list expense) :
  Add.action h (parsed expenses) o
  = (writeExpenses (expenses ++ [Add.newExpense h o expenses]);;
     perform (console_log ("# Expense added successfully (ID: "
        +:+ JS.Number_toString (Expense.id (Add.newExpense h o expenses)) +:+ ")"))).
Proof.
  unfold Add.action, readExpenses, mbind, run_bind, mret, run_ret.
  destruct (writeExpenses _) as [t [[]|msg]]; reflexivity.
Qed.

(** C1. The add handler appends one record to the list it read; the id of
    that record is 1 when the list is empty and otherwise one more than the
    maximum of the ids in the list ([Math.max], which is NaN as soon as one
    id is). *)
Theorem add_assigns_generated_id (h : host) (o : Add.options) (expenses : list expense) :
  let e := Add.newExpense h o expenses in
  let ids := map Expense.id expenses in
  Add.action h (parsed expenses) o
  = (writeExpenses (expenses ++ [e]);;
     perform (console_log ("# Expense added successfully (ID: "
        +:+ JS.Number_toString (Expense.id e) +:+ ")")))
  /\ (expenses = [] -> Expense.id e = 1%float)
  /\ (expenses <> [] -> Forall (fun i => is_nan i = false) ids ->
      exists m, is_maximum m ids /\ Expense.id e = (m + 1)%float)
  /\ (Exists (fun i => is_nan i = true) ids -> is_nan (Expense.id e) = true).
Proof.
  intros e ids. split; [apply add_action_unfold |].
  subst e ids. cbn [Add.newExpense Expense.id]. unfold generateId.
  split; [intros ->; reflexivity |]. split.
  - intros Hne Hids. exists (JS.Math_max (map Expense.id expenses)). split.
    + apply Math_max_is_maximum; [| assumption]. now destruct expenses.
    + destruct expenses; [congruence | reflexivity].
  - intros Hnan. destruct expenses as [| x l]; [inversion Hnan |].
    cbn [length Nat.ltb Nat.leb]. unfold JS.Math_max. rewrite Math_max_from_nan by assumption.
    reflexivity.
Qed.

Lemma add_assigns_generated_id_witness :
  exists m, is_maximum m [1; 2]%float
            /\ Expense.id (Add.newExpense sample_host
                             {| Add.description := "Bus"; Add.amount := 3; Add.category := None |}
                             [lunch; taxi]) = (m + 1)%float.
Proof.
  apply (add_assigns_generated_id sample_host
           {| Add.description := "Bus"; Add.amount := 3; Add.category := None |}
           [lunch; taxi]).
  - discriminate.
  - repeat constructor.
Defined.

(** ** C2: [writeExpenses] validates before it writes *)

Lemma invalid_iff (e : expense) : invalid e = true <-> has_falsy_field e.
Proof.
  unfold invalid, has_falsy_field, JS.nonempty.
  rewrite !orb_true_iff, !negb_true_iff, !negb_false_iff, !String.eqb_eq. tauto.
Qed.

Lemma validate_each_throws (expenses : list expense) :
  Exists (fun e => invalid e = true) expenses ->
  validate_each expenses = ([], Throw "Invalid expense data").
Proof.
  induction 1 as [e l He | e l _ IH]; cbn [validate_each].
  - now rewrite He.
  - destruct (invalid e); [reflexivity | exact IH].
Qed.

Lemma validate_each_passes (expenses : list expense) :
  Forall (fun e => invalid e = false) expenses ->
  validate_each expenses = ([], Return tt).
Proof.
  induction 1 as [| e l He _ IH]; cbn [validate_each]; [reflexivity |].
  now rewrite He.
Qed.

Lemma record_layout_correct (e : expense) :
  JS.serialize "  " "  " (expense_to_json e) = record_layout e.
Proof. destruct e as [i d s [a |] [c |]]; reflexivity. Qed.

Lemma expenses_document_layout (expenses : list expense) :
  expenses_document expenses = document_layout expenses.
Proof.
  unfold expenses_document, JS.JSON_stringify_2, document_layout.
  destruct expenses as [| e l]; [reflexivity |].
  cbn [map JS.serialize]. rewrite record_layout_correct.
  rewrite map_map. rewrite (map_ext _ _ record_layout_correct). reflexivity.
Qed.

(** C2. When some record has a falsy id, date, description or amount,
    [writeExpenses] throws its validation error and has no effect at all: no
    byte is written. When no record has, its one effect is to write the whole
    list to the data file, pretty-printed with a 2-space indent. *)
Theorem writeExpenses_all_or_nothing (expenses : list expense) :
  (Exists has_falsy_field expenses ->
   writeExpenses expenses = ([], Throw "Invalid expense data"))
  /\ (Forall (fun e => ~ has_falsy_field e) expenses ->
      writeExpenses expenses
      = ([writeFileSync DATA_FILE (document_layout expenses)], Return tt)).
Proof.
  unfold writeExpenses. split; intros H.
  - rewrite validate_each_throws; [reflexivity |].
    eapply Exists_impl; [exact H |]. intros e. apply invalid_iff.
  - rewrite validate_each_passes.
    + now rewrite expenses_document_layout.
    + eapply Forall_impl; [exact H |]. intros e He. cbn in He.
      destruct (invalid e) eqn:E; [| reflexivity]. destruct He. now apply invalid_iff.
Qed.

Lemma writeExpenses_all_or_nothing_witness :
  writeExpenses [lunch; nameless] = ([], Throw "Invalid expense data")
  /\ writeExpenses [lunch; taxi]
     = ([writeFileSync DATA_FILE (document_layout [lunch; taxi])], Return tt).
Proof.
  split.
  - apply (writeExpenses_all_or_nothing [lunch; nameless]).
    right. left. right. right. left. reflexivity.
  - apply (writeExpenses_all_or_nothing [lunch; taxi]).
    repeat constructor; intros [H | [H | [H | H]]]; discriminate H.
Defined.

(** ** [findIndex] *)

Lemma findIndex_Some {A} (p : A -> bool) (l : list A) (i : nat) :
  findIndex p l = Some i ->
  (exists x, l !! i = Some x /\ p x = true)
  /\ (forall j y, (j < i)%nat -> l !! j = Some y -> p y = false).
Proof.
  revert i. induction l as [| y l IH]; intros i; cbn [findIndex]; [discriminate |].
  destruct (p y) eqn:Hy.
  - intros [= <-]. split; [exists y; now split | intros j z Hj; lia].
  - destruct (findIndex p l) as [k |]; [| discriminate].
    intros [= <-]. destruct (IH k eq_refl) as ((x & Hx & Hp) & Hfirst). split.
    + now exists x.
    + intros [| j] z Hj Hz; [now injection Hz as <- |].
      apply (Hfirst j z); [lia | exact Hz].
Qed.

Lemma findIndex_None {A} (p : A -> bool) (l : list A) :
  findIndex p l = None <-> forall x, x ∈ l -> p x = false.
Proof.
  induction l as [| y l IH]; cbn [findIndex].
  - split; [intros _ x Hx; inversion Hx | reflexivity].
  - destruct (p y) eqn:Hy.
    + split; [discriminate |]. intros H. rewrite H in Hy; [discriminate | left].
    + destruct (findIndex p l) as [j |]; cbn [fmap option_fmap option_map].
      * split; [discriminate |]. intros H.
        assert (Some j = None) as E by (apply IH; intros x Hx; apply H; now right).
        discriminate E.
      * split; [| reflexivity]. intros _ x Hx.
        apply elem_of_cons in Hx as [-> | Hx]; [assumption |]. now apply IH.
Qed.

Lemma findIndex_found {A} (p : A -> bool) (l : list A) :
  (exists x, x ∈ l /\ p x = true) -> exists i, findIndex p l = Some i.
Proof.
  intros (x & Hx & Hp). destruct (findIndex p l) as [i |] eqn:E; [now exists i |].
  rewrite (proj1 (findIndex_None p l) E x Hx) in Hp. discriminate.
Qed.

(** ** What a guarded write can leave behind *)

Lemma writes_of_persist (expenses : list expense) (line : string) :
  writes (writeExpenses expenses;; perform (console_log line)) = []
  \/ writes (writeExpenses expenses;; perform (console_log line))
     = [(DATA_FILE, expenses_document expenses)].
Proof.
  unfold writeExpenses.
  destruct (validate_each expenses) as [t [[] | msg]] eqn:E.
  - assert (t = []) as ->.
    { clear -E. revert E. induction expenses as [| e l IH]; cbn [validate_each].
      - now intros [= <-].
      - destruct (invalid e); [discriminate | exact IH]. }
    right. reflexivity.
  - assert (t = []) as ->.
    { clear -E. revert E. induction expenses as [| e l IH]; cbn [validate_each].
      - discriminate.
      - destruct (invalid e); [now intros [= <- _] | exact IH]. }
    left. reflexivity.
Qed.

(** ** C3: update changes the fields supplied, and nothing else *)

Lemma assign_frame (o : Update.options) (e : expense) :
  Expense.id (Update.assign o e) = Expense.id e
  /\ Expense.date (Update.assign o e) = Expense.date e
  /\ (Update.description o = None ->
      Expense.description (Update.assign o e) = Expense.description e)
  /\ (Update.amount o = None -> Expense.amount (Update.assign o e) = Expense.amount e)
  /\ (Update.category o = None -> Expense.category (Update.assign o e) = Expense.category e).
Proof.
  unfold Update.assign.
  destruct (Update.description o) as [d |], (Update.amount o) as [a |],
    (Update.category o) as [c |];
    repeat match goal with |- context [if ?b then _ else _] => destruct b end;
    cbn; repeat split; intros; congruence.
Qed.

(** C3. When some record of the store has the given id, what update writes
    (if the validation lets it write) is the store with one record replaced:
    the first one with that id. The replacement keeps the id and the date,
    and keeps each of description, amount and category that the command line
    did not supply; every other position of the store holds the record it
    held before. *)
Theorem update_changes_supplied_fields_only (expenses : list expense) (o : Update.options) :
  (exists e, e ∈ expenses /\ (Expense.id e =? Update.id o)%float = true) ->
  exists (index : nat) (old : expense) (updated : list expense),
    expenses !! index = Some old
    /\ (Expense.id old =? Update.id o)%float = true
    /\ (forall j e, (j < index)%nat -> expenses !! j = Some e ->
        (Expense.id e =? Update.id o)%float = false)
    /\ Update.action (parsed expenses) o
       = (writeExpenses updated;; perform (console_log "# Expense updated successfully"))
    /\ (writes (Update.action (parsed expenses) o) = []
        \/ writes (Update.action (parsed expenses) o) = [(DATA_FILE, expenses_document updated)])
    /\ length updated = length expenses
    /\ (forall j, j <> index -> updated !! j = expenses !! j)
    /\ (exists new, updated !! index = Some new
        /\ Expense.id new = Expense.id old
        /\ Expense.date new = Expense.date old
        /\ (Update.description o = None -> Expense.description new = Expense.description old)
        /\ (Update.amount o = None -> Expense.amount new = Expense.amount old)
        /\ (Update.category o = None -> Expense.category new = Expense.category old)).
Proof.
  intros Hfound.
  destruct (findIndex_found (fun e => (Expense.id e =? Update.id o)%float) expenses Hfound)
    as [index Hindex].
  destruct (findIndex_Some _ _ _ Hindex) as ((old & Hold & Hid) & Hfirst).
  exists index, old, (alter (Update.assign o) index expenses).
  assert (Update.action (parsed expenses) o
          = (writeExpenses (alter (Update.assign o) index expenses);;
             perform (console_log "# Expense updated successfully"))) as Haction.
  { unfold Update.action, readExpenses. cbn [mbind run_bind mret run_ret].
    rewrite Hindex. now destruct (_ ;; _) as [t r]. }
  split; [assumption |]. split; [assumption |]. split; [exact Hfirst |].
  split; [assumption |].
  split; [rewrite Haction; apply writes_of_persist |].
  split; [apply length_alter |].
  split; [intros j Hj; now apply list_lookup_alter_ne |].
  exists (Update.assign o old). split.
  - now rewrite list_lookup_alter_eq, Hold.
  - apply assign_frame.
Qed.

Lemma update_changes_supplied_fields_only_witness :
  exists (index : nat) (old : expense) (updated : list expense),
    [lunch; taxi; rent] !! index = Some old
    /\ (Expense.id old =? 2)%float = true
    /\ Update.action (parsed [lunch; taxi; rent])
         {| Update.id := 2; Update.description := Some "Bus"%string;
            Update.amount := None; Update.category := None |}
       = (writeExpenses updated;; perform (console_log "# Expense updated successfully"))
    /\ length updated = 3%nat.
Proof.
  destruct (update_changes_supplied_fields_only [lunch; taxi; rent]
              {| Update.id := 2; Update.description := Some "Bus"%string;
                 Update.amount := None; Update.category := None |})
    as (index & old & updated & H1 & H2 & _ & H3 & _ & H5 & _).
  - exists taxi. split; [right; left | reflexivity].
  - exists index, old, updated. auto.
Defined.

(** ** C6: delete of an unknown id *)

(** C6. When no record of the store has the given id, delete has exactly one
    effect, the line "# Expense with ID <id> not found" on the console: it
    writes nothing, so the store is unchanged, and it returns normally. (A
    store that cannot be read counts as empty: the read error is reported
    first, and the handler goes on the same way.) *)
Theorem delete_unknown_id_reports_not_found (expenses : list expense) (o : Delete.options) :
  (forall e, e ∈ expenses -> (Expense.id e =? Delete.id o)%float = false) ->
  Delete.action (parsed expenses) o
  = ([console_log ("# Expense with ID " +:+ JS.Number_toString (Delete.id o) +:+ " not found")],
     Return tt)
  /\ writes (Delete.action (parsed expenses) o) = []
  /\ (forall message,
      Delete.action (unreadable message) o
      = ([console_error ("Error reading expenses: " +:+ message);
          console_log ("# Expense with ID " +:+ JS.Number_toString (Delete.id o)
                       +:+ " not found")],
         Return tt)).
Proof.
  intros Hnone.
  assert (findIndex (fun e => (Expense.id e =? Delete.id o)%float) expenses = None) as E
    by now apply findIndex_None.
  unfold Delete.action, readExpenses. cbn [mbind run_bind mret run_ret]. rewrite E.
  repeat split; reflexivity.
Qed.

Lemma delete_unknown_id_reports_not_found_witness :
  Delete.action (parsed [lunch; taxi; rent]) {| Delete.id := 999 |}
  = ([console_log "# Expense with ID 999 not found"], Return tt).
Proof.
  apply (delete_unknown_id_reports_not_found [lunch; taxi; rent] {| Delete.id := 999 |}).
  intros e He. repeat (apply elem_of_cons in He as [-> | He]; [reflexivity |]).
  inversion He.
Defined.

(** ** Strings *)

Lemma append_cons (x : ascii) (a b : string) : String x a +:+ b = String x (a +:+ b).
Proof. reflexivity. Qed.

Lemma append_assoc (a b c : string) : (a +:+ b) +:+ c = a +:+ b +:+ c.
Proof. induction a as [| x a IH]; [reflexivity |]. now rewrite !append_cons, IH. Qed.

Lemma append_nil_r (a : string) : a +:+ "" = a.
Proof. induction a as [| x a IH]; [reflexivity |]. now rewrite append_cons, IH. Qed.

Lemma length_append (a b : string) :
  String.length (a +:+ b) = (String.length a + String.length b)%nat.
Proof.
  induction a as [| x a IH]; [reflexivity |].
  rewrite append_cons. cbn [String.length]. now rewrite IH.
Qed.

(** ** C8: the CSV export *)

Lemma csv_loop (rows : list expense) (acc : string) :
  fold_left (fun csv e => csv +:+ ExportCsv.row e) rows acc
  = acc +:+ String.concat "" (map ExportCsv.row rows).
Proof.
  revert acc. induction rows as [| e rows IH]; intros acc; cbn [fold_left map].
  - cbn. now rewrite append_nil_r.
  - rewrite IH, append_assoc. destruct rows; cbn; [now rewrite append_nil_r | reflexivity].
Qed.

Lemma row_is_csv_row (e : expense) : ExportCsv.row e = csv_row e.
Proof.
  unfold ExportCsv.row, csv_row, csv_category, JS.or_else, JS.nonempty.
  destruct (Expense.category e) as [c |]; [destruct (String.eqb c "") |];
    cbn [negb String.concat]; repeat (rewrite append_cons || rewrite append_assoc);
    reflexivity.
Qed.

(** C8. Export writes one file: the header row, then one row per expense of
    the store, in the order of the store. A row is the id, the date, the
    category ("Other" when the record has none), the description between
    double quotes with nothing escaped, and the amount, separated by commas. *)
Theorem export_writes_header_and_rows (expenses : list expense) (o : ExportCsv.options) :
  let rows := map csv_row expenses in
  ExportCsv.action (parsed expenses) o
  = ([writeFileSync (path (JS.or_else (ExportCsv.file o) "expenses.csv"))
        (csv_header +:+ String.concat "" rows);
      console_log ("# Expenses exported to " +:+ JS.or_else (ExportCsv.file o) "expenses.csv")],
     Return tt)
  /\ length rows = length expenses
  /\ (forall i e, expenses !! i = Some e -> rows !! i = Some (csv_row e))
  /\ (forall e, Expense.category e = None ->
      csv_row e
      = JS.Number_toString (Expense.id e) +:+ "," +:+ Expense.date e +:+ ",Other,"
        +:+ String (ascii_of_N 34) (Expense.description e)
        +:+ String (ascii_of_N 34) "," +:+ JS.ToString (Expense.amount e)
        +:+ JS.newline).
Proof.
  intros rows. subst rows. split; [| split; [| split]].
  - unfold ExportCsv.action, readExpenses, ExportCsv.csv. cbn [mbind run_bind mret run_ret].
    rewrite csv_loop. rewrite (map_ext _ _ row_is_csv_row). reflexivity.
  - apply length_map.
  - intros i e He. now rewrite list_lookup_fmap, He.
  - intros e He. unfold csv_row, csv_category. rewrite He.
    cbn [String.concat]. repeat (rewrite append_cons || rewrite append_assoc). reflexivity.
Qed.

Lemma export_writes_header_and_rows_witness :
  csv_row taxi = "2,2024-08-02,Other," +:+ String (ascii_of_N 34) "Taxi"
                 +:+ String (ascii_of_N 34) ",200" +:+ JS.newline.
Proof.
  apply (export_writes_header_and_rows [taxi] {| ExportCsv.file := None |}).
  reflexivity.
Defined.

(** ** Objects used as maps *)

Lemma get_set_eq {A} (o : JS.object A) (k : string) (v : A) :
  JS.get (JS.set o k v) k = Some v.
Proof.
  induction o as [| [k' v'] o IH]; cbn [JS.set JS.get].
  - now rewrite String.eqb_refl.
  - destruct (String.eqb k' k) eqn:E; cbn [JS.get]; rewrite E; [reflexivity | exact IH].
Qed.

Lemma get_set_ne {A} (o : JS.object A) (k k' : string) (v : A) :
  k' <> k -> JS.get (JS.set o k v) k' = JS.get o k'.
Proof.
  intros Hne. induction o as [| [k0 v0] o IH]; cbn [JS.set JS.get].
  - apply String.eqb_neq in Hne. rewrite String.eqb_sym in Hne. now rewrite Hne.
  - destruct (String.eqb k0 k) eqn:E; cbn [JS.get].
    + apply String.eqb_eq in E. subst k0.
      apply String.eqb_neq in Hne. rewrite String.eqb_sym in Hne. now rewrite Hne.
    + now rewrite IH.
Qed.

Lemma elem_of_set_ne {A} (o : JS.object A) (k k' : string) (v v' : A) :
  k' <> k -> (k', v') ∈ JS.set o k v <-> (k', v') ∈ o.
Proof.
  intros Hne. induction o as [| [k0 v0] o IH]; cbn [JS.set].
  - rewrite list_elem_of_singleton. split; [intros [= -> _]; congruence | intros H; inversion H].
  - destruct (String.eqb k0 k) eqn:E.
    + apply String.eqb_eq in E. subst k0. rewrite !elem_of_cons.
      split; (intros [[= -> _] | H]; [congruence | now right]).
    + rewrite !elem_of_cons, IH. reflexivity.
Qed.

Lemma elem_of_insert_by_index {A} (n : N) (kv : string * A) (l : list (N * (string * A)))
  (x : N * (string * A)) :
  x ∈ JS.insert_by_index n kv l <-> x = (n, kv) \/ x ∈ l.
Proof.
  induction l as [| [m kv'] l IH]; cbn [JS.insert_by_index].
  - rewrite list_elem_of_singleton. split; [now left | intros [|H]; [assumption | inversion H]].
  - destruct (n <? m)%N; rewrite !elem_of_cons; [reflexivity |]. rewrite IH. tauto.
Qed.

Lemma elem_of_Object_entries {A} (o : JS.object A) (kv : string * A) :
  kv ∈ JS.Object_entries o <-> kv ∈ o.
Proof.
  unfold JS.Object_entries. rewrite elem_of_app, list_elem_of_fmap.
  induction o as [| [k v] o IH]; cbn [JS.index_properties JS.string_properties].
  - split; [intros [(x & _ & H) | H]; inversion H | intros H; inversion H].
  - rewrite elem_of_cons, <- IH. destruct (JS.array_index k) as [n |].
    + split.
      * intros [(x & -> & H) | H]; [| tauto].
        apply elem_of_insert_by_index in H as [-> | H]; [now left |].
        right. left. now exists x.
      * intros [-> | [(x & -> & H) | H]]; [| | tauto].
        -- left. exists (n, (k, v)). split; [reflexivity |].
           apply elem_of_insert_by_index. now left.
        -- left. exists x. split; [reflexivity |]. apply elem_of_insert_by_index. now right.
    + rewrite elem_of_cons. tauto.
Qed.

(** ** The budgets document *)

Lemma serialize_number (gap indent : string) (v : JS.number_or_null) :
  JS.serialize gap indent (JS.to_json v) = number_text v.
Proof. destruct v; reflexivity. Qed.

Lemma budgets_document_layout (BUDGETS : JS.object JS.number_or_null) :
  budgets_document BUDGETS = budgets_layout (JS.Object_entries BUDGETS).
Proof.
  unfold budgets_document, JS.JSON_stringify_2, budgets_layout.
  destruct (JS.Object_entries BUDGETS) as [| m l]; [reflexivity |].
  cbn [map JS.serialize fst snd]. rewrite serialize_number, map_map.
  rewrite (map_ext _ budget_member); [reflexivity |].
  intros kv. cbn [fst snd]. now rewrite serialize_number.
Qed.

(** The order of [Object.entries] among the properties of other keys does
    not depend on the property of one key. *)

Lemma filter_set_other {A} (o : JS.object A) (key : string) (v : A) :
  filter (fun kv => fst kv <> key) (JS.set o key v) = filter (fun kv => fst kv <> key) o.
Proof.
  unfold JS.object in *. induction o as [| [k' v'] o IH]; cbn [JS.set].
  - rewrite filter_cons_False; [reflexivity |]. cbn. tauto.
  - destruct (String.eqb_spec k' key) as [-> | Hne].
    + rewrite !filter_cons_False by (cbn; tauto). reflexivity.
    + rewrite !filter_cons_True by exact Hne. now rewrite IH.
Qed.

Lemma insert_by_index_front {A} (n : N) (kv : string * A) (l : list (N * (string * A))) :
  Forall (fun y => (n < fst y)%N) l -> JS.insert_by_index n kv l = (n, kv) :: l.
Proof.
  destruct 1 as [| [m kv'] l Hm _]; cbn [JS.insert_by_index]; [reflexivity |].
  cbn in Hm. apply N.ltb_lt in Hm. now rewrite Hm.
Qed.

Lemma insert_by_index_sorted {A} (n : N) (kv : string * A) (l : list (N * (string * A))) :
  StronglySorted (fun x y => (fst x <= fst y)%N) l ->
  StronglySorted (fun x y => (fst x <= fst y)%N) (JS.insert_by_index n kv l).
Proof.
  induction 1 as [| [m kv'] l Hl IH Hm]; cbn [JS.insert_by_index].
  - repeat constructor.
  - destruct (N.ltb_spec n m) as [Hlt | Hge].
    + constructor; [now constructor |]. constructor; [cbn; lia |].
      eapply List.Forall_impl; [| exact Hm]. cbn. intros; lia.
    + constructor; [exact IH |].
      apply Forall_forall. intros x Hx. apply elem_of_insert_by_index in Hx as [-> | Hx].
      * cbn. lia.
      * rewrite List.Forall_forall in Hm. apply Hm. now apply list_elem_of_In.
Qed.

Lemma index_properties_sorted {A} (o : JS.object A) :
  StronglySorted (fun x y => (fst x <= fst y)%N) (JS.index_properties o).
Proof.
  induction o as [| [k v] o IH]; cbn [JS.index_properties]; [constructor |].
  destruct (JS.array_index k); [now apply insert_by_index_sorted | exact IH].
Qed.

Lemma filter_insert_by_index {A} (P : N * (string * A) -> Prop) `{!forall x, Decision (P x)}
  (n : N) (kv : string * A) (l : list (N * (string * A))) :
  StronglySorted (fun x y => (fst x <= fst y)%N) l ->
  filter P (JS.insert_by_index n kv l)
  = if decide (P (n, kv)) then JS.insert_by_index n kv (filter P l) else filter P l.
Proof.
  induction 1 as [| [m kv'] l Hl IH Hm]; cbn [JS.insert_by_index].
  - rewrite filter_cons, filter_nil. now destruct (decide (P (n, kv))).
  - destruct (N.ltb_spec n m) as [Hlt | Hge].
    + rewrite filter_cons. destruct (decide (P (n, kv))); [| reflexivity].
      symmetry. apply insert_by_index_front.
      apply Forall_forall. intros y Hy. apply list_elem_of_filter in Hy as [_ Hy].
      apply elem_of_cons in Hy as [-> | Hy]; [exact Hlt |].
      rewrite List.Forall_forall in Hm. apply list_elem_of_In, Hm in Hy. cbn in Hy. lia.
    + rewrite !(filter_cons _ (m, kv')), IH.
      destruct (decide (P (m, kv'))), (decide (P (n, kv))); cbn [JS.insert_by_index];
        try reflexivity.
      apply N.ltb_ge in Hge. now rewrite Hge.
Qed.

Lemma filter_map_snd {A B} (P : B -> Prop) `{!forall x, Decision (P x)} (l : list (A * B)) :
  filter P (map snd l) = map snd (filter (fun x => P (snd x)) l).
Proof.
  induction l as [| x l IH]; [reflexivity |].
  cbn [map]. rewrite !filter_cons, IH. now destruct (decide (P (snd x))).
Qed.

Lemma Object_entries_filter {A} (key : string) (o : JS.object A) :
  JS.Object_entries (filter (fun kv => fst kv <> key) o)
  = filter (fun kv => fst kv <> key) (JS.Object_entries o).
Proof.
  unfold JS.object in *.
  unfold JS.Object_entries. rewrite filter_app, filter_map_snd. f_equal; [f_equal |].
  - induction o as [| [k v] o IH]; [reflexivity |].
    cbn [JS.index_properties]. rewrite filter_cons.
    destruct (decide (fst (k, v) <> key)) as [Hk | Hk]; cbn [JS.index_properties].
    + destruct (JS.array_index k) as [n |]; [| exact IH].
      rewrite filter_insert_by_index by apply index_properties_sorted.
      rewrite decide_True by exact Hk. now rewrite IH.
    + destruct (JS.array_index k) as [n |]; [| exact IH].
      rewrite filter_insert_by_index by apply index_properties_sorted.
      rewrite decide_False by exact Hk. exact IH.
  - induction o as [| [k v] o IH]; [reflexivity |].
    cbn [JS.string_properties]. rewrite filter_cons.
    destruct (decide (fst (k, v) <> key)) as [Hk | Hk]; cbn [JS.string_properties];
      destruct (JS.array_index k) as [n |]; try exact IH.
    + rewrite filter_cons_True by exact Hk. now rewrite IH.
    + rewrite filter_cons_False by exact Hk. exact IH.
Qed.

(** ** C10: set-budget keeps the budgets of the other months *)

(** C10. With an existing budget mapping, set-budget writes one document:
    the mapping it read with the property of the given month set to the
    amount, one member per line. The members of the other keys are, in the
    written document, those of the existing mapping, each with its value and
    in the same order; only the member of the given month is set. *)
Theorem set_budget_keeps_other_months (h : host) (existing : JS.object JS.number_or_null)
  (o : SetBudget.options) :
  let key := JS.Number_toString (SetBudget.month o) in
  let written := JS.set existing key (JS.Number (SetBudget.amount o)) in
  SetBudget.action h (Some (parsed existing)) o
  = ([writeFileSync budgetsFile (budgets_layout (JS.Object_entries written));
      console_log ("# Budget for " +:+ monthName h (SetBudget.month o) +:+ " set to $"
                   +:+ JS.Number_toString (SetBudget.amount o))],
     Return tt)
  /\ filter (fun member => fst member <> key) (JS.Object_entries written)
     = filter (fun member => fst member <> key) (JS.Object_entries existing)
  /\ JS.get written key = Some (JS.Number (SetBudget.amount o))
  /\ (forall k, k <> key -> JS.get written k = JS.get existing k)
  /\ (forall k v, k <> key ->
      (k, v) ∈ JS.Object_entries written <-> (k, v) ∈ JS.Object_entries existing).
Proof.
  intros key written. subst key written. split.
  - unfold SetBudget.action, readBudgets, writeBudgets.
    now rewrite bind_ret, budgets_document_layout.
  - split; [| split; [apply get_set_eq | split]].
    + now rewrite <- !Object_entries_filter, filter_set_other.
    + intros k Hk. now apply get_set_ne.
    + intros k v Hk. rewrite !elem_of_Object_entries. now apply elem_of_set_ne.
Qed.

Lemma set_budget_keeps_other_months_witness :
  SetBudget.action sample_host
    (Some (parsed [("7", JS.Number 300); ("8", JS.Number 500)]%string%float))
    {| SetBudget.month := 8; SetBudget.amount := 650 |}
  = ([writeFileSync budgetsFile
        ("{" +:+ JS.newline
         +:+ "  " +:+ JS.quote "7" +:+ ": 300," +:+ JS.newline
         +:+ "  " +:+ JS.quote "8" +:+ ": 650" +:+ JS.newline +:+ "}");
      console_log "# Budget for August set to $650"],
     Return tt).
Proof.
  etrans;
    [apply (set_budget_keeps_other_months sample_host
              [("7", JS.Number 300); ("8", JS.Number 500)]%string%float
              {| SetBudget.month := 8; SetBudget.amount := 650 |}) |].
  vm_compute. reflexivity.
Defined.

(** ** C4: summary with a month and a category *)

Lemma sum_is_sum_of_amounts (expenses : list expense) (start : float) :
  fold_left (fun sum e => (sum + JS.ToNumber (Expense.amount e))%float) expenses start
  = fold_left PrimFloat.add (map (fun e => JS.ToNumber (Expense.amount e)) expenses) start.
Proof.
  revert start. induction expenses as [| e l IH]; intros start; cbn [fold_left map];
    [reflexivity | apply IH].
Qed.

(** C4, as the code has it. When the month option is a number other than 0
    and NaN, the category option has no effect on anything summary does: the
    month branch filters the whole record list by month only. The first line
    reports the sum of the amounts of all records whose date has that month,
    whatever their category (an amount of [null] counts as 0 in a sum). *)
Theorem summary_month_discards_category (h : host) (expenses : list expense)
  (budgets : option (read (JS.object JS.number_or_null))) (o : Summary.options) (m : float) :
  Summary.month o = Some m ->
  JS.truthy m = true ->
  Summary.action h (parsed expenses) budgets o
  = Summary.action h (parsed expenses) budgets
      {| Summary.month := Some m; Summary.category := None;
         Summary.byCategory := Summary.byCategory o |}
  /\ exists rest,
      trace (Summary.action h (parsed expenses) budgets o)
      = console_log ("# Total expenses for " +:+ monthName h m +:+ ": $"
                     +:+ JS.Number_toString
                           (fold_left PrimFloat.add
                              (map (fun e => JS.ToNumber (Expense.amount e))
                                 (filter (fun e => (Summary.month_of e =? m)%float) expenses))
                              0%float))
        :: rest.
Proof.
  intros Hm Ht. unfold Summary.action, readExpenses.
  cbn [Summary.month Summary.category Summary.byCategory].
  rewrite !bind_ret, Hm, Ht. split; [reflexivity |].
  unfold Summary.sum, Summary.in_month. rewrite sum_is_sum_of_amounts.
  rewrite bind_assoc, bind_perform. eexists. reflexivity.
Qed.

Lemma summary_month_discards_category_witness :
  exists rest,
    trace (Summary.action sample_host (parsed [lunch; taxi; rent]) None
             {| Summary.month := Some 8%float; Summary.category := Some "Food"%string;
                Summary.byCategory := false |})
    = console_log "# Total expenses for August: $600" :: rest.
Proof.
  apply (summary_month_discards_category sample_host [lunch; taxi; rent] None
           {| Summary.month := Some 8%float; Summary.category := Some "Food"%string;
              Summary.byCategory := false |} 8%float);
    reflexivity.
Defined.

(** The claim as stated fails when the month option is 0: the month branch
    is not taken and the category filter decides the total. *)
Lemma summary_month_zero_keeps_category :
  Summary.action sample_host (parsed [lunch; taxi; rent]) None
    {| Summary.month := Some 0%float; Summary.category := Some "Food"%string;
       Summary.byCategory := false |}
  = ([console_log "# Total expenses: $100"], Return tt)
  /\ Summary.action sample_host (parsed [lunch; taxi; rent]) None
       {| Summary.month := Some 0%float; Summary.category := None;
          Summary.byCategory := false |}
     = ([console_log "# Total expenses: $600"], Return tt).
Proof. split; vm_compute; reflexivity. Qed.

(** ** C7: the budget comparison of the monthly summary *)

(** C7, as the code has it. When the month option is a number other than 0
    and NaN and the budget mapping holds a budget other than 0 and NaN for
    that month, summary prints the month total and then one budget line: the
    warning, with the excess [total - budget] formatted by [toFixed(2)], when
    the total is at least the budget; otherwise the remaining budget
    [budget - total], formatted the same way. *)
Theorem summary_budget_comparison (h : host) (expenses : list expense)
  (BUDGETS : JS.object JS.number_or_null) (o : Summary.options) (m budget : float) :
  Summary.month o = Some m ->
  JS.truthy m = true ->
  JS.get BUDGETS (JS.Number_toString m) = Some (JS.Number budget) ->
  JS.truthy budget = true ->
  let total := Summary.sum (filter (fun e => (Summary.month_of e =? m)%float) expenses) in
  exists rest,
    trace (Summary.action h (parsed expenses) (Some (parsed BUDGETS)) o)
    = console_log ("# Total expenses for " +:+ monthName h m +:+ ": $"
                   +:+ JS.Number_toString total)
      :: console_log
           (if (budget <=? total)%float
            then "# WARNING: You've exceeded your " +:+ monthName h m +:+ " budget of $"
                 +:+ JS.Number_toString budget +:+ " by $"
                 +:+ JS.Number_toFixed 2 (total - budget)%float
            else "# Remaining budget for " +:+ monthName h m +:+ ": $"
                 +:+ JS.Number_toFixed 2 (budget - total)%float)
      :: rest.
Proof.
  intros Hm Ht Hb Hbt total. unfold Summary.action, readExpenses.
  rewrite !bind_ret, Hm, Ht. rewrite bind_assoc, bind_perform. cbn [trace fst].
  unfold Summary.budget_check, readBudgets. rewrite bind_ret, Hb, Hbt.
  fold total. unfold Summary.in_month. fold total.
  destruct (budget <=? total)%float;
    rewrite !bind_assoc, bind_perform; eexists; reflexivity.
Qed.

(** The scenario of the specification: a budget of 500 for month 8 and three
    August expenses that total 600. *)
Lemma summary_budget_comparison_witness :
  exists rest,
    trace (Summary.action sample_host (parsed [lunch; taxi; rent])
             (Some (parsed [("8"%string, JS.Number 500)]))
             {| Summary.month := Some 8%float; Summary.category := None;
                Summary.byCategory := false |})
    = console_log "# Total expenses for August: $600"
      :: console_log "# WARNING: You've exceeded your August budget of $500 by $100.00"
      :: rest.
Proof.
  apply (summary_budget_comparison sample_host [lunch; taxi; rent]
           [("8"%string, JS.Number 500)]
           {| Summary.month := Some 8%float; Summary.category := None;
              Summary.byCategory := false |} 8%float 500%float);
    vm_compute; reflexivity.
Defined.

(** The claim as stated fails for a budget of 0: the budget is set, the total
    is at least the budget, and no budget line is printed. *)
Lemma summary_zero_budget_prints_no_comparison :
  JS.get [("8"%string, JS.Number 0)] (JS.Number_toString 8) = Some (JS.Number 0)
  /\ (0 <=? Summary.sum [lunch; taxi; rent])%float = true
  /\ Summary.action sample_host (parsed [lunch; taxi; rent])
       (Some (parsed [("8"%string, JS.Number 0)]))
       {| Summary.month := Some 8%float; Summary.category := None;
          Summary.byCategory := false |}
     = ([console_log "# Total expenses for August: $600"], Return tt).
Proof. repeat split; vm_compute; reflexivity. Qed.

(** ** C9: add does not check that the amount is positive *)

Lemma negative_is_truthy (a : float) : (a <? 0)%float = true -> JS.truthy a = true.
Proof.
  intros H. apply ltb_below in H as (Hnan & _ & Hlt).
  unfold JS.truthy, is_zero. rewrite Hnan, orb_false_r.
  destruct (a =? PrimFloat.zero)%float eqn:E; [| reflexivity].
  apply eqb_key in E as (_ & _ & E). change PrimFloat.zero with 0%float in E.
  rewrite E in Hlt. now apply below_irrefl in Hlt.
Qed.

Lemma negative_text (a : float) :
  (a <? 0)%float = true -> is_finite a = true ->
  exists digits, JS.Number_toString a = "-" +:+ digits.
Proof.
  intros Hneg Hfin. pose proof (negative_is_truthy _ Hneg) as Ht.
  unfold JS.truthy in Ht. apply negb_true_iff, orb_false_iff in Ht as [Hz Hn].
  unfold is_finite in Hfin. rewrite Hn in Hfin. cbn [orb] in Hfin.
  apply negb_true_iff in Hfin.
  unfold JS.Number_toString. rewrite Hn, Hz, Hfin.
  destruct (JS.exact_fraction a) as [p q].
  destruct (JS.shortest_digits 20 (abs a) p q (JS.decimal_exponent p q) 1) as [digits n].
  assert (get_sign a = true) as ->.
  { unfold get_sign. rewrite Hz. exact Hneg. }
  eexists. reflexivity.
Qed.

Lemma invalid_new_expense (h : host) (o : Add.options) (expenses : list expense) :
  JS.truthy (Add.amount o) = true ->
  Add.description o <> ""%string ->
  JS.truthy (generateId expenses) = true ->
  formatDate h <> ""%string ->
  invalid (Add.newExpense h o expenses) = false.
Proof.
  intros Ha Hd Hi Hf. unfold invalid, Add.newExpense, JS.nonempty. cbn [Expense.id Expense.date
    Expense.description Expense.amount JS.ToBoolean]. rewrite Ha, Hi.
  apply String.eqb_neq in Hd, Hf. now rewrite Hd, Hf.
Qed.

Lemma document_layout_snoc (expenses : list expense) (e : expense) :
  document_layout (expenses ++ [e])
  = "[" +:+ JS.newline +:+ "  "
    +:+ String.concat ("," +:+ JS.newline +:+ "  ")
          (map record_layout expenses ++ [record_layout e])
    +:+ JS.newline +:+ "]".
Proof. unfold document_layout. rewrite map_app. now destruct expenses. Qed.

(** C9, as the code has it. For a negative amount the amount test of
    [writeExpenses] passes, although [validateAmount] would throw on it. When
    the write goes through on the other tests (every record read is valid,
    the description and the date are not empty, the generated id is neither 0
    nor NaN) and the amount is finite, the data file is written with the new
    record last, and the amount member of that record is the text of the
    negative number, sign included: it reads back as the same number. *)
Theorem add_persists_negative_amount (h : host) (o : Add.options) (expenses : list expense) :
  (Add.amount o <? 0)%float = true ->
  let new := Add.newExpense h o expenses in
  let record :=
    "{" +:+ JS.newline
    +:+ String.concat ("," +:+ JS.newline)
          [member_layout "id" (number_text (JS.Number (generateId expenses)));
           member_layout "date" (JS.quote (formatDate h));
           member_layout "description" (JS.quote (Add.description o));
           member_layout "amount" (JS.Number_toString (Add.amount o));
           member_layout "category" (JS.quote (JS.or_else (Add.category o) "Other"))]
    +:+ JS.newline +:+ "  }" in
  JS.truthy (Add.amount o) = true
  /\ validateAmount (Add.amount o) = throw "Amount must be a positive number"
  /\ (Forall (fun e => ~ has_falsy_field e) expenses ->
      Add.description o <> ""%string ->
      JS.truthy (generateId expenses) = true ->
      formatDate h <> ""%string ->
      is_finite (Add.amount o) = true ->
      Add.action h (parsed expenses) o
      = ([writeFileSync DATA_FILE
            ("[" +:+ JS.newline +:+ "  "
             +:+ String.concat ("," +:+ JS.newline +:+ "  ")
                   (map record_layout expenses ++ [record])
             +:+ JS.newline +:+ "]");
          console_log ("# Expense added successfully (ID: "
                       +:+ JS.Number_toString (generateId expenses) +:+ ")")],
         Return tt)
      /\ (exists digits, JS.Number_toString (Add.amount o) = "-" +:+ digits)
      /\ JS.read_back (Expense.amount new) = JS.Number (Add.amount o)).
Proof.
  intros Hneg new record. pose proof (negative_is_truthy _ Hneg) as Ht.
  split; [assumption |]. split.
  - unfold validateAmount. now rewrite (ltb_leb _ _ Hneg), orb_true_r.
  - intros Hall Hd Hi Hf Hfin. split; [| split].
    + rewrite add_action_unfold. fold new. unfold writeExpenses.
      rewrite validate_each_passes.
      * rewrite expenses_document_layout, document_layout_snoc.
        replace (record_layout new) with record; [reflexivity |].
        subst record new. unfold record_layout, Add.newExpense.
        cbn [Expense.id Expense.date Expense.description Expense.amount Expense.category
             number_text app]. now rewrite Hfin.
      * apply Forall_app. split.
        -- eapply Forall_impl; [exact Hall |]. intros e He. cbn in He.
           destruct (invalid e) eqn:E; [| reflexivity]. destruct He. now apply invalid_iff.
        -- constructor; [| constructor]. now apply invalid_new_expense.
    + now apply negative_text.
    + subst new. cbn [Add.newExpense Expense.amount JS.read_back]. rewrite Hfin.
      unfold JS.truthy in Ht. apply negb_true_iff, orb_false_iff in Ht as [-> _].
      reflexivity.
Qed.

Lemma add_persists_negative_amount_witness :
  Add.action sample_host (parsed [lunch])
    {| Add.description := "Refund"; Add.amount := -5; Add.category := None |}
  = ([writeFileSync DATA_FILE
        ("[" +:+ JS.newline +:+ "  " +:+ record_layout lunch +:+ "," +:+ JS.newline
         +:+ "  {" +:+ JS.newline
         +:+ "    " +:+ JS.quote "id" +:+ ": 2," +:+ JS.newline
         +:+ "    " +:+ JS.quote "date" +:+ ": " +:+ JS.quote "2024-08-15" +:+ "," +:+ JS.newline
         +:+ "    " +:+ JS.quote "description" +:+ ": " +:+ JS.quote "Refund" +:+ ","
         +:+ JS.newline
         +:+ "    " +:+ JS.quote "amount" +:+ ": -5," +:+ JS.newline
         +:+ "    " +:+ JS.quote "category" +:+ ": " +:+ JS.quote "Other" +:+ JS.newline
         +:+ "  }" +:+ JS.newline +:+ "]");
      console_log "# Expense added successfully (ID: 2)"],
     Return tt).
Proof.
  etrans;
    [apply (add_persists_negative_amount sample_host
              {| Add.description := "Refund"; Add.amount := -5; Add.category := None |}
              [lunch]) |].
  - reflexivity.
  - repeat constructor; intros [H | [H | [H | H]]]; discriminate H.
  - discriminate.
  - reflexivity.
  - discriminate.
  - reflexivity.
  - vm_compute. reflexivity.
Defined.

(** The claim as stated fails in two ways. When another test of
    [writeExpenses] fails, nothing is persisted: a negative amount with an
    empty description throws. And a negative amount that is not finite is
    not persisted unchanged: [-Infinity] passes the test and is written as
    [null]. *)
Lemma add_negative_amount_not_persisted_unchanged :
  ((-5 <? 0)%float = true
   /\ Add.action sample_host (parsed [])
        {| Add.description := ""; Add.amount := -5; Add.category := None |}
      = ([], Throw "Invalid expense data"))
  /\ ((neg_infinity <? 0)%float = true
      /\ Add.action sample_host (parsed [])
           {| Add.description := "Refund"; Add.amount := neg_infinity; Add.category := None |}
         = ([writeFileSync DATA_FILE
               ("[" +:+ JS.newline
                +:+ "  {" +:+ JS.newline
                +:+ "    " +:+ JS.quote "id" +:+ ": 1," +:+ JS.newline
                +:+ "    " +:+ JS.quote "date" +:+ ": " +:+ JS.quote "2024-08-15" +:+ ","
                +:+ JS.newline
                +:+ "    " +:+ JS.quote "description" +:+ ": " +:+ JS.quote "Refund" +:+ ","
                +:+ JS.newline
                +:+ "    " +:+ JS.quote "amount" +:+ ": null," +:+ JS.newline
                +:+ "    " +:+ JS.quote "category" +:+ ": " +:+ JS.quote "Other" +:+ JS.newline
                +:+ "  }" +:+ JS.newline +:+ "]");
             console_log "# Expense added successfully (ID: 1)"],
            Return tt)).
Proof. repeat split; vm_compute; reflexivity. Qed.

(** ** Digits *)

Lemma list_of_append (a b : string) :
  String.list_ascii_of_string (a +:+ b) = String.list_ascii_of_string a ++ String.list_ascii_of_string b.
Proof.
  induction a as [| x a IH]; [reflexivity |].
  rewrite append_cons. cbn [String.list_ascii_of_string]. now rewrite IH.
Qed.

Lemma length_list_of_string (s : string) :
  length (String.list_ascii_of_string s) = String.length s.
Proof. induction s as [| x s IH]; cbn; [reflexivity | now rewrite IH]. Qed.

Lemma list_of_substring (s : string) (a b : nat) :
  String.list_ascii_of_string (String.substring a b s) = take b (drop a (String.list_ascii_of_string s)).
Proof.
  revert a b. induction s as [| x s IH]; intros [| a] [| b]; cbn; try reflexivity.
  - now rewrite IH.
  - apply IH.
  - apply IH.
Qed.

Lemma list_of_zeros (n : Z) :
  String.list_ascii_of_string (JS.zeros n) = replicate (Z.to_nat n) "0"%char.
Proof.
  unfold JS.zeros. induction (Z.to_nat n) as [| j IH]; [reflexivity |].
  destruct j as [| j]; [reflexivity |].
  change (String.concat "" (replicate (S (S j)) "0"%string))
    with ("0" +:+ "" +:+ String.concat "" (replicate (S j) "0"%string)).
  rewrite !list_of_append, IH. reflexivity.
Qed.

Lemma pretty_N_char_digit (x : N) : is_digit (pretty_N_char x) = true.
Proof. unfold pretty_N_char. repeat case_match; reflexivity. Qed.

Lemma pretty_N_go_digits (x : N) (s : string) :
  Forall (fun c => is_digit c = true) (String.list_ascii_of_string s) ->
  Forall (fun c => is_digit c = true) (String.list_ascii_of_string (pretty_N_go x s)).
Proof.
  revert s. induction (N.lt_wf_0 x) as [x _ IH]; intros s Hs.
  destruct (decide (x = 0)%N) as [-> | Hx]; [assumption |].
  rewrite pretty_N_go_step by lia. apply IH.
  - apply N.div_lt; lia.
  - cbn [String.list_ascii_of_string]. constructor; [apply pretty_N_char_digit | assumption].
Qed.

Lemma pretty_N_go_length (x : N) (s : string) :
  (String.length s <= String.length (pretty_N_go x s))%nat.
Proof.
  revert s. induction (N.lt_wf_0 x) as [x _ IH]; intros s.
  destruct (decide (x = 0)%N) as [-> | Hx]; [reflexivity |].
  rewrite pretty_N_go_step by lia.
  etrans; [| apply IH; apply N.div_lt; lia]. cbn. lia.
Qed.

Lemma pretty_digits (n : Z) :
  0 <= n ->
  Forall (fun c => is_digit c = true) (String.list_ascii_of_string (pretty n))
  /\ (1 <= String.length (pretty n))%nat.
Proof.
  intros Hn. destruct n as [| p | p]; [| | lia].
  - split; [repeat constructor | cbn; lia].
  - unfold pretty, pretty_Z, pretty, pretty_positive, pretty, pretty_N.
    destruct (decide (N.pos p = 0)%N); [discriminate |]. split.
    + apply pretty_N_go_digits. constructor.
    + rewrite pretty_N_go_step by lia.
      etrans; [| apply pretty_N_go_length]. cbn. lia.
Qed.

Lemma pretty_head (s : Z) :
  exists c rest, pretty s = String c rest /\ (is_digit c = true \/ c = "-"%char).
Proof.
  destruct s as [| p | p].
  - exists "0"%char, ""%string. split; [reflexivity | now left].
  - destruct (pretty_digits (Z.pos p)) as [Hd Hl]; [lia |].
    destruct (pretty (Z.pos p)) as [| c rest]; [cbn in Hl; lia |].
    exists c, rest. split; [reflexivity |]. left. cbn in Hd. now inversion Hd.
  - exists "-"%char, (pretty p). split; [reflexivity | now right].
Qed.

(** The text of a finite number begins with a digit or with the sign: it is
    never the text [null]. *)
Lemma Number_toString_head (x : float) :
  is_finite x = true ->
  exists c rest, JS.Number_toString x = String c rest /\ (is_digit c = true \/ c = "-"%char).
Proof.
  intros Hfin. unfold is_finite in Hfin. apply negb_true_iff, orb_false_iff in Hfin as [Hn Hi].
  unfold JS.Number_toString. rewrite Hn, Hi.
  destruct (is_zero x); [exists "0"%char, ""%string; split; [reflexivity | now left] |].
  destruct (JS.exact_fraction x) as [p q].
  destruct (JS.shortest_digits 20 (abs x) p q (JS.decimal_exponent p q) 1) as [s n].
  destruct (get_sign x); [eexists "-"%char, _; split; [reflexivity | now right] |].
  destruct (pretty_head s) as (c & rest & E & Hc). cbv zeta. rewrite E.
  change ("" +:+ ?b)%string with b.
  assert (forall m, 0 < m -> exists rest', JS.take m (String c rest) = String c rest') as Htake.
  { intros m Hm. unfold JS.take. destruct (Z.to_nat m) as [| j] eqn:Ej; [lia |].
    eexists. reflexivity. }
  destruct ((_ <=? n) && (n <=? 21)); [eexists c, _; split; [reflexivity | exact Hc] |].
  destruct ((0 <? n) && (n <=? 21)) eqn:E2.
  { apply andb_prop in E2 as [E2 _]. apply Z.ltb_lt in E2.
    destruct (Htake n E2) as [rest' ->]. eexists c, _. split; [reflexivity | exact Hc]. }
  destruct ((-6 <? n) && (n <=? 0)); [eexists "0"%char, _; split; [reflexivity | now left] |].
  destruct (_ =? 1); [eexists c, _; split; [reflexivity | exact Hc] |].
  destruct (Htake 1 eq_refl) as [rest' ->]. eexists c, _. split; [reflexivity | exact Hc].
Qed.

Lemma number_text_null (v : JS.number_or_null) :
  number_text v = "null"%string <-> JS.read_back v = JS.Null.
Proof.
  destruct v as [x |]; cbn [number_text JS.read_back]; [| tauto].
  destruct (is_finite x) eqn:Hfin; [| tauto].
  destruct (Number_toString_head x Hfin) as (c & rest & -> & Hc).
  split; [| discriminate]. intros [= -> _]. destruct Hc; discriminate.
Qed.

Lemma two_decimals_point (sign : string) (D : list ascii) :
  sign = ""%string \/ sign = "-"%string ->
  Forall (fun c => is_digit c = true) D ->
  (3 <= length D)%nat ->
  two_decimals
    (sign +:+ String.string_of_list_ascii (take (length D - 2) D) +:+ "."
     +:+ String.string_of_list_ascii (drop (length D - 2) D)) = true.
Proof.
  intros Hsign HD Hlen. unfold two_decimals.
  rewrite !list_of_append, !String.list_ascii_of_string_of_list_ascii.
  pose proof (take_drop (length D - 2) D) as Hsplit.
  assert (length (drop (length D - 2) D) = 2%nat) as Hdrop by (rewrite length_drop; lia).
  assert (length (take (length D - 2) D) = (length D - 2)%nat) as Htake
    by (rewrite length_take; lia).
  rewrite <- Hsplit in HD. apply Forall_app in HD as [Hint Hfrac].
  destruct (drop (length D - 2) D) as [| d1 [| d2 [| ? ?]]]; try discriminate Hdrop.
  inversion Hfrac as [| ? ? Hd1 Hfrac']; subst. inversion Hfrac' as [| ? ? Hd2 _]; subst.
  rewrite !rev_app_distr. cbn [rev app String.list_ascii_of_string].
  rewrite Hd1, Hd2, Ascii.eqb_refl. cbn [andb].
  rewrite length_app, length_rev, Htake.
  replace (0 <? length D - 2 + _)%nat with true by (symmetry; apply Nat.ltb_lt; lia).
  rewrite andb_true_r, negb_true_iff, existsb_app, orb_false_iff. split.
  - clear -Hint. apply Forall_rev in Hint. induction Hint as [| c l Hc _ IH]; [reflexivity |].
    cbn [existsb]. rewrite IH, orb_false_r.
    destruct (Ascii.eqb_spec "." c) as [<- |]; [discriminate Hc | reflexivity].
  - destruct Hsign as [-> | ->]; reflexivity.
Qed.

Lemma take_as_list (j : nat) (s : string) :
  String.substring 0 j s
  = String.string_of_list_ascii (take j (String.list_ascii_of_string s)).
Proof.
  rewrite <- (String.string_of_list_ascii_of_string (String.substring 0 j s)).
  now rewrite list_of_substring.
Qed.

Lemma drop_as_list (j : nat) (s : string) :
  String.substring j (String.length s - j) s
  = String.string_of_list_ascii (drop j (String.list_ascii_of_string s)).
Proof.
  rewrite <- (String.string_of_list_ascii_of_string (String.substring j _ s)).
  rewrite list_of_substring. f_equal. apply take_ge.
  rewrite length_drop, length_list_of_string. lia.
Qed.

Lemma fixed_point_two_decimals (sign : string) (n : Z) :
  sign = ""%string \/ sign = "-"%string ->
  0 <= n ->
  two_decimals (sign +:+ JS.fixed_point 2 n) = true.
Proof.
  intros Hsign Hn. destruct (pretty_digits n Hn) as [Hdigits Hlen].
  unfold JS.fixed_point. cbn [Z.eqb].
  set (m := if Z.of_nat (String.length (pretty n)) <=? 2
            then JS.zeros (2 + 1 - Z.of_nat (String.length (pretty n))) +:+ pretty n
            else pretty n).
  assert (Forall (fun c => is_digit c = true) (String.list_ascii_of_string m)
          /\ (3 <= String.length m)%nat) as [Hm Hm3].
  { subst m. destruct (Z.leb_spec (Z.of_nat (String.length (pretty n))) 2) as [Hk | Hk].
    - split.
      + rewrite list_of_append, list_of_zeros. apply Forall_app. split; [| assumption].
        apply Forall_replicate. reflexivity.
      + rewrite length_append, <- (length_list_of_string (JS.zeros _)), list_of_zeros,
          length_replicate. lia.
    - split; [assumption | lia]. }
  unfold JS.take, JS.drop.
  replace (Z.to_nat (Z.of_nat (String.length m) - 2)) with (String.length m - 2)%nat by lia.
  rewrite take_as_list, drop_as_list, <- (length_list_of_string m).
  apply two_decimals_point; [assumption | assumption |].
  now rewrite length_list_of_string.
Qed.

Lemma exact_fraction_sign (x : float) :
  0 <= fst (JS.exact_fraction x) /\ 0 < snd (JS.exact_fraction x).
Proof.
  unfold JS.exact_fraction. destruct (Prim2SF x) as [s | s | | s m e]; cbn; try lia.
  destruct (Z.leb_spec 0 e); cbn; [lia |]. split; [lia |]. apply Z.pow_pos_nonneg; lia.
Qed.

Lemma toFixed_two_decimals (x : float) :
  is_finite x = true ->
  magnitude_below x (10 ^ 21) = true ->
  two_decimals (JS.Number_toFixed 2 x) = true.
Proof.
  intros Hfin Hmag. unfold JS.Number_toFixed, magnitude_below in *. rewrite Hfin. cbn [negb].
  pose proof (exact_fraction_sign x) as [Hp Hq].
  destruct (JS.exact_fraction x) as [p q]. cbn [fst snd] in *.
  apply Z.ltb_lt in Hmag. replace (10 ^ 21 * q <=? p) with false by (symmetry; apply Z.leb_gt; lia).
  apply fixed_point_two_decimals.
  - destruct (x <? 0)%float; auto.
  - apply Z.div_pos; lia.
Qed.

(** ** C5: which summary lines are formatted *)

Lemma print_entries_trace (entries : list (string * Summary.subtotal)) :
  trace (Summary.print_entries entries)
  = map (fun entry => console_log ("# " +:+ Summary.padEnd 12 (fst entry) +:+ ": $"
                                   +:+ JS.Number_toFixed 2 (snd entry)))
        (printed_entries entries).
Proof.
  induction entries as [| [category [amount |]] entries IH];
    cbn [Summary.print_entries printed_entries map]; [reflexivity | | reflexivity].
  rewrite bind_perform. cbn [trace fst snd]. f_equal. exact IH.
Qed.

Lemma budget_check_run (h : host) (budgets : option (read (JS.object JS.number_or_null)))
  (m total : float) :
  Summary.budget_check h budgets m total
  = (match budgets with
     | Some (parsed BUDGETS) =>
       match JS.get BUDGETS (JS.Number_toString m) with
       | Some (JS.Number budget) =>
         if JS.truthy budget then
           [console_log
              (if (budget <=? total)%float
               then "# WARNING: You've exceeded your " +:+ monthName h m +:+ " budget of $"
                    +:+ JS.Number_toString budget +:+ " by $"
                    +:+ JS.Number_toFixed 2 (total - budget)%float
               else "# Remaining budget for " +:+ monthName h m +:+ ": $"
                    +:+ JS.Number_toFixed 2 (budget - total)%float)]
         else []
       | _ => []
       end
     | Some (unreadable message) => [console_error ("Error reading budgets: " +:+ message)]
     | None => []
     end,
     Return tt).
Proof.
  unfold Summary.budget_check, readBudgets.
  destruct budgets as [[BUDGETS | message] |].
  - rewrite bind_ret.
    destruct (JS.get BUDGETS (JS.Number_toString m)) as [[budget |] |]; try reflexivity.
    destruct (JS.truthy budget); [| reflexivity].
    destruct (budget <=? total)%float; reflexivity.
  - rewrite bind_assoc, bind_perform, bind_ret. reflexivity.
  - rewrite bind_ret. reflexivity.
Qed.

(** C5, as the code has it: the whole output of summary. Both total lines,
    the overall one and the one of a month, print the sum as a template
    literal does, with no fixed number of decimals. The budget line, which
    follows the total of a month when the month has a budget other than 0,
    and the lines of the per-category breakdown print their amount through
    [toFixed(2)], which gives exactly two decimal digits for every finite
    amount below 10^21. *)
Theorem summary_number_formats (h : host) (expenses : list expense)
  (budgets : option (read (JS.object JS.number_or_null))) (o : Summary.options) :
  let by_category :=
    match Summary.category o with
    | Some c => if JS.nonempty c
                then filter (fun e => Summary.in_category c e) expenses
                else expenses
    | None => expenses
    end in
  let breakdown (filtered : list expense) :=
    if Summary.byCategory o then
      console_log (JS.newline +:+ "# Expenses by category:")
      :: map (fun entry => console_log ("# " +:+ Summary.padEnd 12 (fst entry) +:+ ": $"
                                        +:+ JS.Number_toFixed 2 (snd entry)))
             (printed_entries (JS.Object_entries (fold_left Summary.accumulate filtered [])))
    else [] in
  (forall m, Summary.month o = Some m -> JS.truthy m = true ->
     let of_month := filter (fun e => Summary.in_month m e) expenses in
     let total := Summary.sum of_month in
     trace (Summary.action h (parsed expenses) budgets o)
     = console_log ("# Total expenses for " +:+ monthName h m +:+ ": $"
                    +:+ JS.Number_toString total)
       :: match budgets with
          | Some (parsed BUDGETS) =>
            match JS.get BUDGETS (JS.Number_toString m) with
            | Some (JS.Number budget) =>
              if JS.truthy budget then
                [console_log
                   (if (budget <=? total)%float
                    then "# WARNING: You've exceeded your " +:+ monthName h m
                         +:+ " budget of $" +:+ JS.Number_toString budget +:+ " by $"
                         +:+ JS.Number_toFixed 2 (total - budget)%float
                    else "# Remaining budget for " +:+ monthName h m +:+ ": $"
                         +:+ JS.Number_toFixed 2 (budget - total)%float)]
              else []
            | _ => []
            end
          | Some (unreadable message) =>
            [console_error ("Error reading budgets: " +:+ message)]
          | None => []
          end
       ++ breakdown of_month)
  /\ ((forall m, Summary.month o = Some m -> JS.truthy m = false) ->
      trace (Summary.action h (parsed expenses) budgets o)
      = console_log ("# Total expenses: $" +:+ JS.Number_toString (Summary.sum by_category))
        :: breakdown by_category)
  /\ (forall x, is_finite x = true -> magnitude_below x (10 ^ 21) = true ->
        two_decimals (JS.Number_toFixed 2 x) = true).
Proof.
  intros by_category breakdown.
  assert (forall filtered,
            trace (if Summary.byCategory o
                   then perform (console_log (JS.newline +:+ "# Expenses by category:"));;
                        Summary.print_entries
                          (JS.Object_entries (fold_left Summary.accumulate filtered []))
                   else mret tt)
            = breakdown filtered) as Hbreakdown.
  { intros filtered. subst breakdown. cbn beta. destruct (Summary.byCategory o); [| reflexivity].
    rewrite bind_perform. cbn [trace fst]. now rewrite <- print_entries_trace. }
  split; [| split].
  - intros m Hm Ht of_month total. unfold Summary.action, readExpenses.
    rewrite bind_ret, Hm, Ht. fold of_month. fold total.
    rewrite !bind_assoc, bind_perform. cbn [trace fst]. f_equal.
    rewrite budget_check_run, trace_bind. cbn [trace fst snd].
    rewrite bind_ret. now rewrite Hbreakdown.
  - intros Hm. unfold Summary.action, readExpenses. rewrite bind_ret. fold by_category.
    destruct (Summary.month o) as [m |]; [rewrite (Hm m eq_refl) |];
      rewrite bind_assoc, bind_perform, bind_ret; cbn [trace fst]; now rewrite Hbreakdown.
  - apply toFixed_two_decimals.
Qed.

(** The scenario of the specification, with the breakdown: a budget of 500
    for month 8 and three August expenses that total 600. *)
Lemma summary_number_formats_witness :
  trace (Summary.action sample_host (parsed [lunch; taxi; rent])
           (Some (parsed [("8"%string, JS.Number 500)]))
           {| Summary.month := Some 8%float; Summary.category := None;
              Summary.byCategory := true |})
  = [console_log "# Total expenses for August: $600";
     console_log "# WARNING: You've exceeded your August budget of $500 by $100.00";
     console_log (JS.newline +:+ "# Expenses by category:");
     console_log "# Food        : $100.00";
     console_log "# Other       : $200.00";
     console_log "# Housing     : $300.00"].
Proof.
  destruct (summary_number_formats sample_host [lunch; taxi; rent]
              (Some (parsed [("8"%string, JS.Number 500)]))
              {| Summary.month := Some 8%float; Summary.category := None;
                 Summary.byCategory := true |}) as (H & _ & _).
  rewrite (H 8%float eq_refl eq_refl). vm_compute. reflexivity.
Defined.

(** The claim as stated fails on the total line of a month: it prints the
    sum as it is ("600"), not with two decimals ("600.00"). *)
Lemma summary_month_total_is_not_fixed :
  Summary.action sample_host (parsed [lunch; taxi; rent]) None
    {| Summary.month := Some 8%float; Summary.category := None;
       Summary.byCategory := false |}
  = ([console_log ("# Total expenses for August: $" +:+ "600")], Return tt)
  /\ two_decimals "600" = false
  /\ JS.Number_toFixed 2 (Summary.sum [lunch; taxi; rent]) = "600.00"%string.
Proof. repeat split; vm_compute; reflexivity. Qed.

(** * Further properties of the code *)

(** ** Traces *)

Lemma console_bind {A B} (m : run A) (k : A -> run B) :
  Forall (fun e => on_console e = true) (trace m) ->
  (forall a, Forall (fun e => on_console e = true) (trace (k a))) ->
  Forall (fun e => on_console e = true) (trace (m ≫= k)).
Proof.
  intros Hm Hk. rewrite trace_bind. apply Forall_app. split; [assumption |].
  destruct (snd m); [apply Hk | constructor].
Qed.

Lemma console_writes {A} (m : run A) :
  Forall (fun e => on_console e = true) (trace m) -> writes m = [].
Proof.
  unfold writes. induction 1 as [| e t He _ IH]; [reflexivity |].
  destruct e; [exact IH | exact IH | discriminate He].
Qed.

Lemma console_readExpenses (doc : read (list expense)) :
  Forall (fun e => on_console e = true) (trace (readExpenses doc)).
Proof. destruct doc; repeat constructor. Qed.

Lemma console_forEach {A} (f : A -> run unit) (l : list A) :
  (forall x, Forall (fun e => on_console e = true) (trace (f x))) ->
  Forall (fun e => on_console e = true) (trace (forEach f l)).
Proof.
  intros Hf. induction l as [| x l IH]; cbn [forEach]; [constructor |].
  apply console_bind; [apply Hf | intros _; exact IH].
Qed.

Lemma console_print_entries (entries : list (string * Summary.subtotal)) :
  Forall (fun e => on_console e = true) (trace (Summary.print_entries entries)).
Proof.
  induction entries as [| [c [x |]] l IH]; cbn [Summary.print_entries]; try constructor.
  apply console_bind; [repeat constructor | intros _; exact IH].
Qed.

Lemma console_budget_check (h : host) (budgets : option (read (JS.object JS.number_or_null)))
  (m total : float) :
  Forall (fun e => on_console e = true) (trace (Summary.budget_check h budgets m total)).
Proof.
  unfold Summary.budget_check. apply console_bind.
  - destruct budgets as [[b | msg] |]; repeat constructor.
  - intros B. destruct (JS.get B _) as [[budget |] |]; [| constructor | constructor].
    destruct (JS.truthy budget); [| constructor].
    destruct (budget <=? total)%float; repeat constructor.
Qed.

Lemma console_array_map {A B} (f : A -> run B) (l : list A) :
  (forall x, Forall (fun e => on_console e = true) (trace (f x))) ->
  Forall (fun e => on_console e = true) (trace (array_map f l)).
Proof.
  intros Hf. induction l as [| x l IH]; cbn [array_map]; [constructor |].
  apply console_bind; [apply Hf | intros y].
  apply console_bind; [exact IH | intros ys; constructor].
Qed.

(** ** The read-only commands *)

(** X1. Summary and list are read-only: whatever the store, the budgets and
    the options, none of the two writes a file. *)
Theorem read_only_commands_never_write (h : host) (doc : read (list expense))
  (budgets : option (read (JS.object JS.number_or_null))) (o : Summary.options)
  (l : ListCmd.options) :
  writes (Summary.action h doc budgets o) = []
  /\ writes (ListCmd.action doc l) = [].
Proof.
  split; apply console_writes.
  - unfold Summary.action. apply console_bind; [apply console_readExpenses |].
    intros expenses. apply console_bind.
    + destruct (Summary.month o) as [m |].
      * destruct (JS.truthy m).
        -- apply console_bind; [repeat constructor | intros _].
           apply console_bind; [apply console_budget_check | intros _; constructor].
        -- apply console_bind; [repeat constructor | intros _; constructor].
      * apply console_bind; [repeat constructor | intros _; constructor].
    + intros filtered. destruct (Summary.byCategory o); [| constructor].
      apply console_bind; [repeat constructor | intros _; apply console_print_entries].
  - unfold ListCmd.action. apply console_bind; [apply console_readExpenses |].
    intros expenses. destruct (length _ =? 0)%nat; [repeat constructor |].
    apply console_bind.
    + unfold ListCmd.amountWidth. apply console_bind; [| intros lengths; constructor].
      apply console_array_map. intros x. unfold ListCmd.amount_toString.
      destruct (Expense.amount x); repeat constructor.
    + intros w. apply console_bind; [repeat constructor | intros _].
      apply console_forEach. intros x. unfold ListCmd.amount_toFixed.
      destruct (Expense.amount x); repeat constructor.
Qed.

(** ** The table of list *)

Lemma length_spaces (n : nat) :
  String.length (String.concat "" (replicate n " "%string)) = n.
Proof.
  induction n as [| n IH]; [reflexivity |].
  destruct n as [| n]; [reflexivity |].
  change (String.concat "" (replicate (S (S n)) " "%string))
    with (" " +:+ "" +:+ String.concat "" (replicate (S n) " "%string)).
  rewrite !length_append, IH. reflexivity.
Qed.

Lemma length_padEnd (n : nat) (s : string) :
  String.length (ListCmd.padEnd n s) = Nat.max n (String.length s).
Proof. unfold ListCmd.padEnd. rewrite length_append, length_spaces. lia. Qed.

Lemma length_padStart (n : nat) (s : string) :
  String.length (ListCmd.padStart n s) = Nat.max n (String.length s).
Proof. unfold ListCmd.padStart. rewrite length_append, length_spaces. lia. Qed.

Lemma width_bounds (floor : nat) (lengths : list nat) :
  (floor <= ListCmd.width floor lengths)%nat
  /\ Forall (fun n => (n <= ListCmd.width floor lengths)%nat) lengths.
Proof.
  unfold ListCmd.width. induction lengths as [| n l [IH1 IH2]]; cbn [foldr].
  - split; [lia | constructor].
  - split; [lia |]. constructor; [lia |].
    eapply Forall_impl; [exact IH2 |]. cbn. intros; lia.
Qed.

Lemma width_covers {A} (f : A -> nat) (floor : nat) (l : list A) (x : A) :
  x ∈ l -> (f x <= ListCmd.width floor (map f l))%nat.
Proof.
  intros Hx. destruct (width_bounds floor (map f l)) as [_ H].
  rewrite Forall_forall in H. apply H. apply list_elem_of_fmap. now exists x.
Qed.

Lemma amountWidth_numbers (shown : list expense) :
  Forall (fun e => Expense.amount e <> JS.Null) shown ->
  ListCmd.amountWidth shown
  = mret (ListCmd.width 6
            (map (fun e => (String.length
                              (JS.Number_toString (JS.ToNumber (Expense.amount e)))
                            + 3)%nat) shown)).
Proof.
  intros H. unfold ListCmd.amountWidth.
  assert (array_map (fun e => s ← ListCmd.amount_toString e; mret (String.length s + 3)%nat)
            shown
          = mret (map (fun e => (String.length
                                   (JS.Number_toString (JS.ToNumber (Expense.amount e)))
                                 + 3)%nat) shown)) as ->.
  { unfold ListCmd.amount_toString.
    induction H as [| e l He _ IH]; cbn [array_map map]; [reflexivity |].
    destruct (Expense.amount e) as [x |]; [| congruence].
    now rewrite !bind_ret, IH, bind_ret. }
  now rewrite bind_ret.
Qed.

Lemma amountWidth_null (shown : list expense) :
  Exists (fun e => Expense.amount e = JS.Null) shown ->
  ListCmd.amountWidth shown
  = ([], Throw "Cannot read properties of null (reading 'toString')").
Proof.
  intros H. unfold ListCmd.amountWidth.
  assert (array_map (fun e => s ← ListCmd.amount_toString e; mret (String.length s + 3)%nat)
            shown
          = throw "Cannot read properties of null (reading 'toString')") as ->;
    [| reflexivity].
  unfold ListCmd.amount_toString.
  induction shown as [| e l IH]; [inversion H |]. cbn [array_map].
  destruct (Expense.amount e) as [x |] eqn:E.
  - rewrite !bind_ret, IH; [reflexivity |].
    inversion H as [? ? He | ? ? Hl]; subst; [congruence | exact Hl].
  - reflexivity.
Qed.

Lemma forEach_rows (line : expense -> string -> string) (shown : list expense) :
  Forall (fun e => Expense.amount e <> JS.Null) shown ->
  forEach (fun e => amount ← ListCmd.amount_toFixed e; perform (console_log (line e amount)))
          shown
  = (map (fun e => console_log
                     (line e (JS.Number_toFixed 2 (JS.ToNumber (Expense.amount e))))) shown,
     Return tt).
Proof.
  unfold ListCmd.amount_toFixed.
  induction 1 as [| e l He _ IH]; cbn [forEach map]; [reflexivity |].
  destruct (Expense.amount e) as [x |]; [| congruence].
  rewrite bind_ret, bind_perform, IH. reflexivity.
Qed.

(** X2. List prints the single line "# No expenses found" when no record
    passes the category filter. Otherwise, when the amount of every record
    that passes is a number, it prints the header and then one row per
    record, in the order of the store, and returns; when one of these
    amounts is [null], it prints nothing and throws the TypeError of
    [e.amount.toString()]. *)
Theorem list_prints_header_and_rows (expenses : list expense) (o : ListCmd.options) :
  let shown :=
    match ListCmd.category o with
    | Some c => if JS.nonempty c
                then filter (fun e => ListCmd.in_category c e) expenses else expenses
    | None => expenses
    end in
  let idWidth := ListCmd.idWidth shown in
  let categoryWidth := ListCmd.categoryWidth shown in
  let descWidth := ListCmd.descWidth shown in
  let amountWidth :=
    ListCmd.width 6
      (map (fun e => (String.length (JS.Number_toString (JS.ToNumber (Expense.amount e)))
                      + 3)%nat) shown) in
  (shown = [] ->
   ListCmd.action (parsed expenses) o = ([console_log "# No expenses found"], Return tt))
  /\ (shown <> [] ->
      Forall (fun e => Expense.amount e <> JS.Null) shown ->
      ListCmd.action (parsed expenses) o
      = (console_log (ListCmd.header idWidth categoryWidth descWidth amountWidth)
         :: map (fun e => console_log
                            (ListCmd.row idWidth categoryWidth descWidth amountWidth e
                               (JS.Number_toFixed 2 (JS.ToNumber (Expense.amount e)))))
                shown,
         Return tt))
  /\ (Exists (fun e => Expense.amount e = JS.Null) shown ->
      ListCmd.action (parsed expenses) o
      = ([], Throw "Cannot read properties of null (reading 'toString')")).
Proof.
  intros shown idWidth categoryWidth descWidth amountWidth.
  unfold ListCmd.action, readExpenses. rewrite bind_ret. fold shown.
  split; [| split].
  - intros H. now rewrite H.
  - intros Hne Hnumbers. destruct shown as [| e l] eqn:E; [congruence |].
    cbn [length Nat.eqb]. rewrite amountWidth_numbers by assumption.
    rewrite bind_ret, bind_perform, forEach_rows by assumption. reflexivity.
  - intros Hnull. destruct shown as [| e l] eqn:E; [inversion Hnull |].
    cbn [length Nat.eqb]. now rewrite amountWidth_null.
Qed.

Lemma list_prints_header_and_rows_witness :
  ListCmd.action (parsed [lunch; taxi; rent]) {| ListCmd.category := Some "FOOD"%string |}
  = ([console_log "# ID  Date        Category  Description  Amount";
      console_log "# 1   2024-08-01  Food      Lunch        $100.00"],
     Return tt).
Proof.
  destruct (list_prints_header_and_rows [lunch; taxi; rent]
              {| ListCmd.category := Some "FOOD"%string |}) as (_ & H & _).
  etrans; [apply H |].
  - vm_compute. discriminate.
  - vm_compute. repeat constructor. discriminate.
  - vm_compute. reflexivity.
Defined.

(** X3. The columns of list are aligned up to the amount: in the header and
    in the row of every record whose date has at most 10 characters, the
    amount cell starts at the same offset. The amount cell of a row (the
    dollar sign and the amount with two decimals) is at least as wide as the
    header's, never narrower. (The table is printed when the amounts of the
    records shown are numbers.) *)
Theorem list_columns_aligned (shown : list expense) :
  Forall (fun e => Expense.amount e <> JS.Null) shown ->
  let idWidth := ListCmd.idWidth shown in
  let categoryWidth := ListCmd.categoryWidth shown in
  let descWidth := ListCmd.descWidth shown in
  let offset := (2 + idWidth + 2 + 10 + 2 + categoryWidth + 2 + descWidth + 2)%nat in
  exists amountWidth,
    ListCmd.amountWidth shown = ([], Return amountWidth)
    /\ (exists cells,
          ListCmd.header idWidth categoryWidth descWidth amountWidth
          = cells +:+ ListCmd.padStart amountWidth "Amount"
          /\ String.length cells = offset
          /\ String.length (ListCmd.padStart amountWidth "Amount") = amountWidth)
    /\ (forall e, e ∈ shown -> (String.length (Expense.date e) <= 10)%nat ->
        exists cells amount x,
          Expense.amount e = JS.Number x
          /\ ListCmd.amount_toFixed e = ([], Return (JS.Number_toFixed 2 x))
          /\ ListCmd.row idWidth categoryWidth descWidth amountWidth e (JS.Number_toFixed 2 x)
             = cells +:+ amount
          /\ String.length cells = offset
          /\ amount = "$" +:+ ListCmd.padStart (amountWidth - 1) (JS.Number_toFixed 2 x)
          /\ (amountWidth <= String.length amount)%nat).
Proof.
  intros Hnumbers idWidth categoryWidth descWidth offset.
  subst idWidth categoryWidth descWidth offset.
  eexists. split; [now apply amountWidth_numbers |]. split.
  - exists ("# " +:+ ListCmd.padEnd (ListCmd.idWidth shown) "ID" +:+ "  "
            +:+ ListCmd.padEnd ListCmd.dateWidth "Date" +:+ "  "
            +:+ ListCmd.padEnd (ListCmd.categoryWidth shown) "Category" +:+ "  "
            +:+ ListCmd.padEnd (ListCmd.descWidth shown) "Description" +:+ "  ")%string.
    split; [| split].
    + unfold ListCmd.header. repeat (rewrite append_cons || rewrite append_assoc). reflexivity.
    + rewrite !length_append, !length_padEnd. unfold ListCmd.dateWidth.
      pose proof (proj1 (width_bounds 2 (map (fun e => String.length (JS.Number_toString (Expense.id e))) shown))).
      pose proof (proj1 (width_bounds 8 (map (fun e => String.length (JS.or_else (Expense.category e) "Other")) shown))).
      pose proof (proj1 (width_bounds 11 (map (fun e => String.length (Expense.description e)) shown))).
      unfold ListCmd.idWidth, ListCmd.categoryWidth, ListCmd.descWidth. cbn [String.length]. lia.
    + rewrite length_padStart.
      pose proof (proj1 (width_bounds 6 (map (fun e => (String.length (JS.Number_toString (JS.ToNumber (Expense.amount e))) + 3)%nat) shown))).
      cbn [String.length]. lia.
  - intros e He Hdate.
    assert (exists x, Expense.amount e = JS.Number x) as [x Hx].
    { rewrite Forall_forall in Hnumbers. specialize (Hnumbers e He).
      destruct (Expense.amount e) as [x |]; [now exists x | congruence]. }
    exists ("# " +:+ ListCmd.padEnd (ListCmd.idWidth shown) (JS.Number_toString (Expense.id e))
            +:+ "  " +:+ ListCmd.padEnd ListCmd.dateWidth (Expense.date e) +:+ "  "
            +:+ ListCmd.padEnd (ListCmd.categoryWidth shown)
                  (JS.or_else (Expense.category e) "Other") +:+ "  "
            +:+ ListCmd.padEnd (ListCmd.descWidth shown) (Expense.description e)
            +:+ "  ")%string.
    eexists. exists x. split; [exact Hx |]. split; [unfold ListCmd.amount_toFixed; now rewrite Hx |].
    split; [| split; [| split; [reflexivity |]]].
    + unfold ListCmd.row. repeat (rewrite append_cons || rewrite append_assoc). reflexivity.
    + rewrite !length_append, !length_padEnd. unfold ListCmd.dateWidth.
      pose proof (width_covers (fun e => String.length (JS.Number_toString (Expense.id e))) 2 shown e He).
      pose proof (width_covers (fun e => String.length (JS.or_else (Expense.category e) "Other")) 8 shown e He).
      pose proof (width_covers (fun e => String.length (Expense.description e)) 11 shown e He).
      unfold ListCmd.idWidth, ListCmd.categoryWidth, ListCmd.descWidth. cbn [String.length] in *. lia.
    + rewrite length_append, length_padStart. cbn [String.length]. lia.
Qed.

Lemma list_columns_aligned_witness :
  exists cells amount,
    ListCmd.row (ListCmd.idWidth [lunch; taxi; rent]) (ListCmd.categoryWidth [lunch; taxi; rent])
      (ListCmd.descWidth [lunch; taxi; rent]) 6 taxi "200.00"
    = cells +:+ amount
    /\ String.length cells = 41%nat
    /\ amount = "$200.00"%string.
Proof.
  destruct (list_columns_aligned [lunch; taxi; rent]) as (w & Hw & _ & H).
  - repeat constructor; discriminate.
  - destruct (H taxi) as (cells & amount & x & Hx & _ & H1 & H2 & H3 & H4).
    + right. left.
    + vm_compute. lia.
    + injection Hx as <-. vm_compute in Hw. injection Hw as <-.
      exists cells, amount. split; [| split].
      * rewrite <- H1. vm_compute. reflexivity.
      * rewrite H2. vm_compute. reflexivity.
      * rewrite H3. vm_compute. reflexivity.
Defined.

(** ** The commands that write the store *)

Lemma invalid_false_iff (e : expense) : invalid e = false <-> ~ has_falsy_field e.
Proof.
  rewrite <- invalid_iff. destruct (invalid e); split; intros H; congruence.
Qed.

Lemma persist_cases (expenses : list expense) (line : string) :
  (Exists has_falsy_field expenses
   /\ (writeExpenses expenses;; perform (console_log line))
      = ([], Throw "Invalid expense data"))
  \/ (Forall (fun e => ~ has_falsy_field e) expenses
      /\ (writeExpenses expenses;; perform (console_log line))
         = ([writeFileSync DATA_FILE (expenses_document expenses); console_log line],
            Return tt)).
Proof.
  unfold writeExpenses.
  assert (Exists (fun e => invalid e = true) expenses
          \/ Forall (fun e => invalid e = false) expenses) as [H | H].
  { induction expenses as [| e l [IH | IH]].
    - right. constructor.
    - left. now right.
    - destruct (invalid e) eqn:Ee; [left; now left | right; now constructor]. }
  - left. split.
    + eapply Exists_impl; [exact H |]. intros e. apply invalid_iff.
    + now rewrite validate_each_throws.
  - right. split.
    + eapply Forall_impl; [exact H |]. intros e. apply invalid_false_iff.
    + now rewrite validate_each_passes.
Qed.

Lemma persist_writes_valid (expenses : list expense) (line : string) (w : file * string) :
  w ∈ writes (writeExpenses expenses;; perform (console_log line)) ->
  w = (DATA_FILE, expenses_document expenses)
  /\ Forall (fun e => ~ has_falsy_field e) expenses.
Proof.
  destruct (persist_cases expenses line) as [[_ ->] | [H ->]]; cbn.
  - intros Hw. inversion Hw.
  - intros Hw. apply list_elem_of_singleton in Hw. now split.
Qed.

Lemma writes_after_read {A} (doc : read (list expense)) (k : list expense -> run A) :
  writes (readExpenses doc ≫= k)
  = writes (k match doc with parsed expenses => expenses | unreadable _ => [] end).
Proof.
  destruct doc as [expenses | msg]; cbn [readExpenses].
  - now rewrite bind_ret.
  - rewrite bind_assoc, bind_perform, bind_ret. reflexivity.
Qed.

(** X4. Every write of add, update and delete goes through the validation:
    what is written is the data file, holding the whole list that the command
    built (the store with the new record appended, with the record found
    updated, or without it), and only when no record of that list has a
    falsy id, date, description or amount in memory. This does not keep
    [null] out of the file: an infinite amount is truthy, and the amount
    member of a record that passed reads [null] exactly when its amount is
    infinite. *)
Theorem writing_commands_write_valid_stores (h : host) (doc : read (list expense))
  (a : Add.options) (u : Update.options) (d : Delete.options) (w : file * string) :
  let expenses := match doc with parsed expenses => expenses | unreadable _ => [] end in
  (w ∈ writes (Add.action h doc a) ->
   w = (DATA_FILE, document_layout (expenses ++ [Add.newExpense h a expenses]))
   /\ Forall (fun e => ~ has_falsy_field e) (expenses ++ [Add.newExpense h a expenses]))
  /\ (w ∈ writes (Update.action doc u) ->
      exists index,
        findIndex (fun e => (Expense.id e =? Update.id u)%float) expenses = Some index
        /\ w = (DATA_FILE, document_layout (alter (Update.assign u) index expenses))
        /\ Forall (fun e => ~ has_falsy_field e) (alter (Update.assign u) index expenses))
  /\ (w ∈ writes (Delete.action doc d) ->
      exists index,
        findIndex (fun e => (Expense.id e =? Delete.id d)%float) expenses = Some index
        /\ w = (DATA_FILE, document_layout (delete index expenses))
        /\ Forall (fun e => ~ has_falsy_field e) (delete index expenses))
  /\ (forall e, ~ has_falsy_field e ->
      (number_text (Expense.amount e) = "null"%string
       <-> exists x, Expense.amount e = JS.Number x /\ is_infinity x = true)).
Proof.
  intros expenses. unfold Add.action, Update.action, Delete.action.
  rewrite !writes_after_read. fold expenses.
  split; [| split; [| split]].
  - intros H. rewrite <- expenses_document_layout. eapply persist_writes_valid. exact H.
  - destruct (findIndex _ expenses) as [index |]; [| intros H; inversion H].
    intros H. exists index. split; [reflexivity |].
    rewrite <- expenses_document_layout. eapply persist_writes_valid. exact H.
  - destruct (findIndex _ expenses) as [index |]; [| intros H; inversion H].
    intros H. exists index. split; [reflexivity |].
    rewrite <- expenses_document_layout. eapply persist_writes_valid. exact H.
  - intros e He. rewrite number_text_null.
    assert (JS.ToBoolean (Expense.amount e) = true) as Ht.
    { destruct (JS.ToBoolean (Expense.amount e)) eqn:E; [reflexivity |].
      destruct He. unfold has_falsy_field. tauto. }
    destruct (Expense.amount e) as [x |]; [| discriminate Ht].
    cbn [JS.ToBoolean JS.read_back] in *. unfold JS.truthy in Ht.
    apply negb_true_iff, orb_false_iff in Ht as [_ Hn].
    unfold is_finite. rewrite Hn. cbn [orb]. split.
    + destruct (is_infinity x) eqn:Hi; [now exists x | discriminate].
    + intros (y & [= <-] & ->). reflexivity.
Qed.

Lemma writing_commands_write_valid_stores_witness :
  exists index,
    findIndex (fun e => (Expense.id e =? 2)%float) [lunch; taxi; rent] = Some index
    /\ (DATA_FILE, expenses_document [lunch; rent])
       = (DATA_FILE, document_layout (delete index [lunch; taxi; rent]))
    /\ Forall (fun e => ~ has_falsy_field e) (delete index [lunch; taxi; rent]).
Proof.
  apply (writing_commands_write_valid_stores sample_host (parsed [lunch; taxi; rent])
           {| Add.description := ""; Add.amount := 1; Add.category := None |}
           {| Update.id := 9; Update.description := None; Update.amount := None;
              Update.category := None |}
           {| Delete.id := 2 |}).
  vm_compute. left.
Defined.

(** X5. Update of an id that no record has prints the not-found line and
    nothing else: no write, a normal return. *)
Theorem update_unknown_id_reports_not_found (expenses : list expense) (o : Update.options) :
  (forall e, e ∈ expenses -> (Expense.id e =? Update.id o)%float = false) ->
  Update.action (parsed expenses) o
  = ([console_log ("# Expense with ID " +:+ JS.Number_toString (Update.id o) +:+ " not found")],
     Return tt).
Proof.
  intros Hnone.
  assert (findIndex (fun e => (Expense.id e =? Update.id o)%float) expenses = None) as E
    by now apply findIndex_None.
  unfold Update.action, readExpenses. now rewrite bind_ret, E.
Qed.

Lemma update_unknown_id_reports_not_found_witness :
  Update.action (parsed [lunch; taxi])
    {| Update.id := nan; Update.description := Some "x"%string; Update.amount := None;
       Update.category := None |}
  = ([console_log "# Expense with ID NaN not found"], Return tt).
Proof.
  apply (update_unknown_id_reports_not_found [lunch; taxi]
           {| Update.id := nan; Update.description := Some "x"%string;
              Update.amount := None; Update.category := None |}).
  intros e He. repeat (apply elem_of_cons in He as [-> | He]; [reflexivity |]).
  inversion He.
Defined.

Lemma assign_fields (o : Update.options) (e : expense) :
  Expense.description (Update.assign o e)
  = match Update.description o with
    | Some d => if JS.nonempty d then d else Expense.description e
    | None => Expense.description e
    end
  /\ Expense.amount (Update.assign o e)
     = match Update.amount o with
       | Some a => if JS.truthy a then JS.Number a else Expense.amount e
       | None => Expense.amount e
       end
  /\ Expense.category (Update.assign o e)
     = match Update.category o with
       | Some c => if JS.nonempty c then Some c else Expense.category e
       | None => Expense.category e
       end.
Proof.
  unfold Update.assign.
  destruct (Update.description o) as [d |], (Update.amount o) as [a |],
    (Update.category o) as [c |];
    repeat match goal with |- context [if ?b then _ else _] => destruct b end;
    cbn; repeat split; reflexivity.
Qed.

(** X6. What update puts in the record it finds: each of description,
    amount and category takes the value of its option when that value is
    truthy, independently of the other two; an empty description, an empty
    category and an amount of 0 or NaN on the command line are ignored and
    the record keeps its field. *)
Theorem update_sets_truthy_fields (expenses : list expense) (o : Update.options) :
  (exists e, e ∈ expenses /\ (Expense.id e =? Update.id o)%float = true) ->
  exists (index : nat) (old new : expense),
    expenses !! index = Some old
    /\ (Expense.id old =? Update.id o)%float = true
    /\ Update.action (parsed expenses) o
       = (writeExpenses (<[index := new]> expenses);;
          perform (console_log "# Expense updated successfully"))
    /\ Expense.description new
       = match Update.description o with
         | Some d => if String.eqb d "" then Expense.description old else d
         | None => Expense.description old
         end
    /\ Expense.amount new
       = match Update.amount o with
         | Some a => if JS.truthy a then JS.Number a else Expense.amount old
         | None => Expense.amount old
         end
    /\ Expense.category new
       = match Update.category o with
         | Some c => if String.eqb c "" then Expense.category old else Some c
         | None => Expense.category old
         end.
Proof.
  intros Hfound.
  destruct (findIndex_found (fun e => (Expense.id e =? Update.id o)%float) expenses Hfound)
    as [index Hindex].
  destruct (findIndex_Some _ _ _ Hindex) as ((old & Hold & Hid) & _).
  exists index, old, (Update.assign o old). split; [assumption |].
  split; [assumption |]. split.
  - unfold Update.action, readExpenses. rewrite bind_ret, Hindex.
    replace (alter (Update.assign o) index expenses)
      with (<[index := Update.assign o old]> expenses); [reflexivity |].
    apply list_eq. intros j. destruct (decide (j = index)) as [-> | Hj].
    + rewrite list_lookup_alter_eq, Hold.
      apply list_lookup_insert_eq. now apply lookup_lt_Some in Hold.
    + rewrite list_lookup_alter_ne, list_lookup_insert_ne by congruence. reflexivity.
  - destruct (assign_fields o old) as (-> & -> & ->). unfold JS.nonempty.
    destruct (Update.description o) as [d |], (Update.category o) as [c |];
      repeat split;
      repeat match goal with |- context [String.eqb ?a ?b] => destruct (String.eqb a b) end;
      reflexivity.
Qed.

Lemma update_sets_truthy_fields_witness :
  exists (index : nat) (old new : expense),
    [lunch; taxi; rent] !! index = Some old
    /\ (Expense.id old =? 2)%float = true
    /\ Expense.description new = Expense.description old
    /\ Expense.amount new = Expense.amount old
    /\ Expense.category new = Some "Transportation"%string.
Proof.
  destruct (update_sets_truthy_fields [lunch; taxi; rent]
              {| Update.id := 2; Update.description := Some ""%string;
                 Update.amount := Some 0%float;
                 Update.category := Some "Transportation"%string |})
    as (index & old & new & H1 & H2 & _ & H3 & H4 & H5).
  - exists taxi. split; [right; left | reflexivity].
  - exists index, old, new. auto.
Defined.

Lemma delete_action_found (expenses : list expense) (o : Delete.options) (index : nat) :
  findIndex (fun e => (Expense.id e =? Delete.id o)%float) expenses = Some index ->
  Delete.action (parsed expenses) o
  = (writeExpenses (delete index expenses);;
     perform (console_log "# Expense deleted successfully")).
Proof. intros H. unfold Delete.action, readExpenses. now rewrite bind_ret, H. Qed.

Lemma elem_of_delete {A} (l : list A) (i : nat) (x : A) :
  x ∈ delete i l -> exists j, j <> i /\ l !! j = Some x.
Proof.
  intros Hx. apply list_elem_of_lookup in Hx as [j Hj].
  destruct (decide (j < i)%nat) as [Hlt | Hge].
  - rewrite list_lookup_delete_lt in Hj by assumption. exists j. split; [lia | assumption].
  - rewrite list_lookup_delete_ge in Hj by lia. exists (S j). split; [lia | assumption].
Qed.

(** X7. Delete of an id that some record has removes one record, the first
    with that id: what it hands to [writeExpenses] is the store without that
    position, the other records in their order. When the ids of the store
    are pairwise distinct, no record with the id is left. *)
Theorem delete_removes_first_match (expenses : list expense) (o : Delete.options) :
  (exists e, e ∈ expenses /\ (Expense.id e =? Delete.id o)%float = true) ->
  exists (index : nat) (old : expense),
    expenses !! index = Some old
    /\ (Expense.id old =? Delete.id o)%float = true
    /\ (forall j e, (j < index)%nat -> expenses !! j = Some e ->
        (Expense.id e =? Delete.id o)%float = false)
    /\ Delete.action (parsed expenses) o
       = (writeExpenses (take index expenses ++ drop (S index) expenses);;
          perform (console_log "# Expense deleted successfully"))
    /\ S (length (take index expenses ++ drop (S index) expenses)) = length expenses
    /\ (distinct_ids expenses ->
        forall e, e ∈ take index expenses ++ drop (S index) expenses ->
                  (Expense.id e =? Delete.id o)%float = false).
Proof.
  intros Hfound.
  destruct (findIndex_found (fun e => (Expense.id e =? Delete.id o)%float) expenses Hfound)
    as [index Hindex].
  destruct (findIndex_Some _ _ _ Hindex) as ((old & Hold & Hid) & Hfirst).
  exists index, old. rewrite <- delete_take_drop.
  split; [assumption |]. split; [assumption |]. split; [exact Hfirst |].
  split; [now apply delete_action_found |]. split.
  - rewrite length_delete by (now exists old). apply lookup_lt_Some in Hold. lia.
  - intros Hdistinct e He. apply elem_of_delete in He as (j & Hj & Hlookup).
    destruct (Expense.id e =? Delete.id o)%float eqn:E; [| reflexivity].
    destruct Hj. apply (Hdistinct j index e old Hlookup Hold).
    apply eqb_trans with (Delete.id o); [assumption | now apply eqb_sym].
Qed.

Lemma delete_removes_first_match_witness :
  exists (index : nat) (old : expense),
    [lunch; taxi; rent] !! index = Some old
    /\ (Expense.id old =? 2)%float = true
    /\ Delete.action (parsed [lunch; taxi; rent]) {| Delete.id := 2 |}
       = (writeExpenses (take index [lunch; taxi; rent] ++ drop (S index) [lunch; taxi; rent]);;
          perform (console_log "# Expense deleted successfully")).
Proof.
  destruct (delete_removes_first_match [lunch; taxi; rent] {| Delete.id := 2 |})
    as (index & old & H1 & H2 & _ & H3 & _).
  - exists taxi. split; [right; left | reflexivity].
  - exists index, old. auto.
Defined.

Lemma assign_keeps_valid (o : Update.options) (e : expense) :
  invalid e = false -> invalid (Update.assign o e) = false.
Proof.
  unfold invalid. destruct (assign_frame o e) as (-> & -> & _).
  destruct (assign_fields o e) as (-> & -> & _).
  rewrite !orb_false_iff, !negb_false_iff. intros (((Hi & Hd) & Hs) & Ha).
  repeat split; try assumption.
  - destruct (Update.description o) as [d |]; [| assumption].
    destruct (JS.nonempty d) eqn:E; assumption.
  - destruct (Update.amount o) as [a |]; [| assumption].
    destruct (JS.truthy a) eqn:E; assumption.
Qed.

(** X8. A store whose records are all valid is never blocked: update and
    delete of an id that some record has always write (the validation of
    [writeExpenses] passes on what they hand to it) and return. *)
Theorem valid_store_accepts_update_and_delete (expenses : list expense)
  (u : Update.options) (d : Delete.options) :
  Forall (fun e => ~ has_falsy_field e) expenses ->
  ((exists e, e ∈ expenses /\ (Expense.id e =? Update.id u)%float = true) ->
   exists updated,
     Update.action (parsed expenses) u
     = ([writeFileSync DATA_FILE (expenses_document updated);
         console_log "# Expense updated successfully"], Return tt)
     /\ length updated = length expenses)
  /\ ((exists e, e ∈ expenses /\ (Expense.id e =? Delete.id d)%float = true) ->
      exists updated,
        Delete.action (parsed expenses) d
        = ([writeFileSync DATA_FILE (expenses_document updated);
            console_log "# Expense deleted successfully"], Return tt)
        /\ S (length updated) = length expenses).
Proof.
  intros Hvalid.
  assert (Forall (fun e => invalid e = false) expenses) as Hv.
  { eapply Forall_impl; [exact Hvalid |]. intros e. apply invalid_false_iff. }
  split; intros Hfound.
  - destruct (findIndex_found _ _ Hfound) as [index Hindex].
    exists (alter (Update.assign u) index expenses). split; [| apply length_alter].
    unfold Update.action, readExpenses. rewrite bind_ret, Hindex.
    destruct (persist_cases (alter (Update.assign u) index expenses)
                "# Expense updated successfully") as [[Hbad _] | [_ ->]]; [| reflexivity].
    exfalso. apply Exists_exists in Hbad as (e & He & Hfalsy).
    apply list_elem_of_lookup in He as [j Hj]. rewrite list_lookup_alter in Hj.
    rewrite Forall_lookup in Hv.
    destruct (decide (index = j)) as [-> | Hne].
    + destruct (expenses !! j) as [x |] eqn:Ex; [| discriminate]. injection Hj as <-.
      apply invalid_iff in Hfalsy. rewrite assign_keeps_valid in Hfalsy; [discriminate |].
      now apply (Hv j).
    + apply invalid_iff in Hfalsy. rewrite (Hv j e Hj) in Hfalsy. discriminate.
  - destruct (findIndex_found _ _ Hfound) as [index Hindex].
    destruct (findIndex_Some _ _ _ Hindex) as ((old & Hold & _) & _).
    exists (delete index expenses). split.
    + rewrite (delete_action_found _ _ _ Hindex).
      destruct (persist_cases (delete index expenses) "# Expense deleted successfully")
        as [[Hbad _] | [_ ->]]; [| reflexivity].
      exfalso. apply Exists_exists in Hbad as (e & He & Hfalsy).
      apply elem_of_delete in He as (j & _ & Hj).
      rewrite Forall_lookup in Hv. apply invalid_iff in Hfalsy.
      rewrite (Hv j e Hj) in Hfalsy. discriminate.
    + rewrite length_delete by (now exists old). apply lookup_lt_Some in Hold. lia.
Qed.

Lemma valid_store_accepts_update_and_delete_witness :
  exists updated,
    Delete.action (parsed [lunch; taxi; rent]) {| Delete.id := 3 |}
    = ([writeFileSync DATA_FILE (expenses_document updated);
        console_log "# Expense deleted successfully"], Return tt)
    /\ S (length updated) = 3%nat.
Proof.
  apply (valid_store_accepts_update_and_delete [lunch; taxi; rent]
           {| Update.id := 1; Update.description := None; Update.amount := None;
              Update.category := None |}
           {| Delete.id := 3 |}).
  - repeat constructor; intros [H | [H | [H | H]]]; discriminate H.
  - exists rent. split; [right; right; left | reflexivity].
Defined.

(** X9. Add never persists an expense whose amount is 0 or NaN (what
    [parseFloat] gives for text that is no number) or whose description is
    empty: whatever the store, it throws "Invalid expense data" and writes
    nothing. *)
Theorem add_rejects_falsy_amount_or_description (h : host) (doc : read (list expense))
  (o : Add.options) :
  JS.truthy (Add.amount o) = false \/ Add.description o = ""%string ->
  writes (Add.action h doc o) = []
  /\ snd (Add.action h doc o) = Throw "Invalid expense data".
Proof.
  intros Hbad. unfold Add.action.
  set (k := fun expenses : list expense => _).
  assert (forall expenses, k expenses = ([], Throw "Invalid expense data")) as Hk.
  { intros expenses. subst k. cbn beta.
    destruct (persist_cases (expenses ++ [Add.newExpense h o expenses])
                ("# Expense added successfully (ID: "
                 +:+ JS.Number_toString (Expense.id (Add.newExpense h o expenses)) +:+ ")"))
      as [[_ ->] | [Hvalid _]]; [reflexivity |].
    exfalso. apply Forall_app in Hvalid as [_ Hnew]. inversion Hnew as [| ? ? Hn _]; subst.
    apply Hn. unfold has_falsy_field, Add.newExpense. cbn [Expense.description Expense.amount].
    destruct Hbad; auto. }
  destruct doc as [expenses | msg]; cbn [readExpenses].
  - rewrite bind_ret, Hk. split; reflexivity.
  - rewrite bind_assoc, bind_perform, bind_ret, Hk. split; reflexivity.
Qed.

Lemma add_rejects_falsy_amount_or_description_witness :
  writes (Add.action sample_host (parsed [lunch])
            {| Add.description := "Free sample"; Add.amount := 0; Add.category := None |}) = []
  /\ snd (Add.action sample_host (parsed [lunch])
            {| Add.description := "Free sample"; Add.amount := 0; Add.category := None |})
     = Throw "Invalid expense data".
Proof.
  apply (add_rejects_falsy_amount_or_description sample_host (parsed [lunch])
           {| Add.description := "Free sample"; Add.amount := 0; Add.category := None |}).
  left. reflexivity.
Defined.

(** X10. Add on a data file that cannot be read starts over: after the read
    error is reported, a valid new expense gets id 1 and the data file is
    overwritten with a list that holds this expense alone. *)
Theorem add_on_unreadable_store_overwrites (h : host) (message : string) (o : Add.options) :
  JS.truthy (Add.amount o) = true ->
  Add.description o <> ""%string ->
  formatDate h <> ""%string ->
  Add.action h (unreadable message) o
  = ([console_error ("Error reading expenses: " +:+ message);
      writeFileSync DATA_FILE
        (expenses_document
           [Expense.mk 1 (formatDate h) (Add.description o) (JS.Number (Add.amount o))
              (Some (JS.or_else (Add.category o) "Other"))]);
      console_log "# Expense added successfully (ID: 1)"],
     Return tt).
Proof.
  intros Ha Hd Hf. unfold Add.action, readExpenses.
  rewrite bind_assoc, bind_perform, bind_ret.
  destruct (persist_cases ([] ++ [Add.newExpense h o []])
              ("# Expense added successfully (ID: "
               +:+ JS.Number_toString (Expense.id (Add.newExpense h o [])) +:+ ")"))
    as [[Hbad _] | [_ ->]]; [| reflexivity].
  exfalso. apply Exists_exists in Hbad as (e & He & Hfalsy).
  apply list_elem_of_singleton in He as ->. apply invalid_iff in Hfalsy.
  rewrite invalid_new_expense in Hfalsy; auto; discriminate.
Qed.

Lemma add_on_unreadable_store_overwrites_witness :
  Add.action sample_host (unreadable "Unexpected end of JSON input")
    {| Add.description := "Lunch"; Add.amount := 20; Add.category := None |}
  = ([console_error "Error reading expenses: Unexpected end of JSON input";
      writeFileSync DATA_FILE
        (expenses_document [Expense.mk 1 "2024-08-15" "Lunch" (JS.Number 20) (Some "Other"%string)]);
      console_log "# Expense added successfully (ID: 1)"],
     Return tt).
Proof.
  apply (add_on_unreadable_store_overwrites sample_host "Unexpected end of JSON input"
           {| Add.description := "Lunch"; Add.amount := 20; Add.category := None |});
    [reflexivity | discriminate | discriminate].
Defined.

(** ** The validators and the date *)

(** X11. [validateAmount] accepts exactly the numbers greater than 0, and
    returns them as they are; for 0, a negative number or NaN it throws. *)
Theorem validateAmount_accepts_positive_only (amount : float) :
  ((0 <? amount)%float = true -> validateAmount amount = ([], Return amount))
  /\ ((0 <? amount)%float = false ->
      validateAmount amount = ([], Throw "Amount must be a positive number")).
Proof.
  unfold validateAmount. split; intros H.
  - apply ltb_below in H as (_ & Hnan & Hlt). rewrite Hnan. cbn [orb].
    destruct (amount <=? 0)%float eqn:E; [| reflexivity].
    apply leb_key in E as (_ & _ & [E | E]).
    + destruct (below_irrefl (fkey 0%float)). eauto using below_trans.
    + rewrite E in Hlt. now destruct (below_irrefl (fkey 0%float)).
  - destruct (is_nan amount) eqn:Hnan; [reflexivity |]. cbn [orb].
    now rewrite (ltb_false_leb 0%float amount eq_refl Hnan H).
Qed.

Lemma validateAmount_accepts_positive_only_witness :
  validateAmount 12.5%float = ([], Return 12.5%float)
  /\ validateAmount (-3)%float = ([], Throw "Amount must be a positive number").
Proof.
  split.
  - apply (validateAmount_accepts_positive_only 12.5%float). reflexivity.
  - apply (validateAmount_accepts_positive_only (-3)%float). reflexivity.
Defined.

Lemma occurs_append (c : ascii) (a b : string) :
  occurs c (a +:+ b) <-> occurs c a \/ occurs c b.
Proof. unfold occurs. rewrite list_of_append. apply elem_of_app. Qed.

Lemma occurs_cons (c x : ascii) (s : string) :
  occurs c (String x s) <-> c = x \/ occurs c s.
Proof. unfold occurs. cbn [String.list_ascii_of_string]. apply elem_of_cons. Qed.

Lemma sanitize_no_open (inside : bool) (s : string) :
  ~ occurs "<" (sanitizeDescription_from inside s).
Proof.
  revert inside. induction s as [| c s IH]; intros inside; cbn [sanitizeDescription_from].
  - intros H. inversion H.
  - destruct inside.
    + destruct (Ascii.eqb c ">"); apply IH.
    + destruct (Ascii.eqb_spec c "<") as [-> | Hc]; [apply IH |].
      rewrite occurs_cons. intros [E | H]; [congruence | now apply IH in H].
Qed.

Lemma sanitize_fixed (s : string) :
  ~ occurs "<" s -> sanitizeDescription_from false s = s.
Proof.
  induction s as [| c s IH]; cbn [sanitizeDescription_from]; [reflexivity |].
  rewrite occurs_cons. intros H.
  destruct (Ascii.eqb_spec c "<") as [-> | Hc]; [destruct H; now left |].
  rewrite IH; [reflexivity | tauto].
Qed.

Lemma sanitize_inside_unclosed (s : string) :
  ~ occurs ">" s -> sanitizeDescription_from true s = ""%string.
Proof.
  induction s as [| c s IH]; cbn [sanitizeDescription_from]; [reflexivity |].
  rewrite occurs_cons. intros H.
  destruct (Ascii.eqb_spec c ">") as [-> | Hc]; [destruct H; now left |].
  apply IH. tauto.
Qed.

Lemma sanitize_append (a b : string) :
  ~ occurs "<" a ->
  sanitizeDescription_from false (a +:+ b) = a +:+ sanitizeDescription_from false b.
Proof.
  induction a as [| c a IH]; [reflexivity |].
  rewrite occurs_cons, !append_cons. cbn [sanitizeDescription_from]. intros H.
  destruct (Ascii.eqb_spec c "<") as [-> | Hc]; [destruct H; now left |].
  rewrite IH; [reflexivity | tauto].
Qed.

Lemma sanitize_sublist (inside : bool) (s : string) :
  sublist (String.list_ascii_of_string (sanitizeDescription_from inside s))
          (String.list_ascii_of_string s).
Proof.
  revert inside. induction s as [| c s IH]; intros inside; cbn [sanitizeDescription_from].
  - constructor.
  - cbn [String.list_ascii_of_string]. destruct inside.
    + destruct (Ascii.eqb c ">"); apply sublist_cons, IH.
    + destruct (Ascii.eqb c "<"); [apply sublist_cons, IH |].
      cbn [String.list_ascii_of_string]. apply sublist_skip, IH.
Qed.

(** X12. [sanitizeDescription] leaves no [<] in the text and adds nothing to
    it: the result is the text with some characters dropped. A text without
    [<] comes back unchanged, so sanitizing twice is sanitizing once. A [<]
    that no [>] follows takes the rest of the text with it. *)
Theorem sanitizeDescription_removes_tags (description : string) :
  ~ occurs "<" (sanitizeDescription description)
  /\ sublist (String.list_ascii_of_string (sanitizeDescription description))
             (String.list_ascii_of_string description)
  /\ (~ occurs "<" description -> sanitizeDescription description = description)
  /\ sanitizeDescription (sanitizeDescription description) = sanitizeDescription description
  /\ (forall before after,
        description = before +:+ "<" +:+ after ->
        ~ occurs "<" before -> ~ occurs ">" after ->
        sanitizeDescription description = before).
Proof.
  unfold sanitizeDescription. split; [apply sanitize_no_open |].
  split; [apply sanitize_sublist |]. split; [apply sanitize_fixed |].
  split; [apply sanitize_fixed, sanitize_no_open |].
  intros before after -> Hb Ha. rewrite sanitize_append by assumption.
  rewrite append_cons. cbn [sanitizeDescription_from String.append].
  change (Ascii.eqb "<" "<") with true. cbn iota.
  rewrite sanitize_inside_unclosed by assumption. apply append_nil_r.
Qed.

Lemma sanitizeDescription_removes_tags_witness :
  sanitizeDescription "price < 5 euros" = "price "%string.
Proof.
  destruct (sanitizeDescription_removes_tags "price < 5 euros") as (_ & _ & _ & _ & H).
  apply (H "price " " 5 euros").
  - reflexivity.
  - intros H'. vm_compute in H'.
    repeat (apply elem_of_cons in H' as [H' | H']; [discriminate H' |]). inversion H'.
  - intros H'. vm_compute in H'.
    repeat (apply elem_of_cons in H' as [H' | H']; [discriminate H' |]). inversion H'.
Defined.

Lemma split_no_separator (sep : ascii) (s : string) :
  ~ occurs sep s -> JS.String_split sep s = [s].
Proof.
  induction s as [| c s IH]; cbn [JS.String_split]; [reflexivity |].
  rewrite occurs_cons. intros H.
  destruct (Ascii.eqb_spec c sep) as [-> | Hc]; [destruct H; now left |].
  rewrite IH; [reflexivity | tauto].
Qed.

Lemma split_at_first (sep : ascii) (a b : string) :
  ~ occurs sep a ->
  JS.String_split sep (a +:+ String sep b) = a :: JS.String_split sep b.
Proof.
  induction a as [| c a IH].
  - intros _. change ("" +:+ String sep b) with (String sep b).
    cbn [JS.String_split]. now rewrite Ascii.eqb_refl.
  - rewrite occurs_cons, append_cons. cbn [JS.String_split]. intros H.
    destruct (Ascii.eqb_spec c sep) as [-> | Hc]; [destruct H; now left |].
    rewrite IH; [reflexivity | tauto].
Qed.

(** X13. An expense that add creates is found by the monthly summary of the
    month it was created in: when the clock reads [y-mm-ddTtime], the date
    of the new expense is [y-mm-dd], its month is [parseInt(mm)] and it
    passes the month filter of summary for that number. *)
Theorem added_expense_is_in_its_month (h : host) (o : Add.options) (expenses : list expense)
  (y mm dd time : string) :
  toISOString h = y +:+ "-" +:+ mm +:+ "-" +:+ dd +:+ "T" +:+ time ->
  ~ occurs "-" y -> ~ occurs "-" mm ->
  ~ occurs "T" y -> ~ occurs "T" mm -> ~ occurs "T" dd ->
  is_nan (JS.parseInt mm) = false ->
  Expense.date (Add.newExpense h o expenses) = y +:+ "-" +:+ mm +:+ "-" +:+ dd
  /\ Summary.month_of (Add.newExpense h o expenses) = JS.parseInt mm
  /\ Summary.in_month (JS.parseInt mm) (Add.newExpense h o expenses) = true.
Proof.
  intros Hiso Hy Hmm HTy HTmm HTdd Hnan.
  assert (formatDate h = y +:+ "-" +:+ mm +:+ "-" +:+ dd) as Hdate.
  { unfold formatDate. rewrite Hiso.
    replace (y +:+ "-" +:+ mm +:+ "-" +:+ dd +:+ "T" +:+ time)
      with ((y +:+ "-" +:+ mm +:+ "-" +:+ dd) +:+ String "T" time)
      by (repeat (rewrite append_cons || rewrite append_assoc); reflexivity).
    rewrite split_at_first; [reflexivity |].
    rewrite !occurs_append. intros [H | [H | [H | [H | H]]]]; try tauto;
      apply occurs_cons in H as [H | H]; try discriminate H; inversion H. }
  assert (Summary.month_of (Add.newExpense h o expenses) = JS.parseInt mm) as Hmonth.
  { unfold Summary.month_of, Add.newExpense. cbn [Expense.date]. rewrite Hdate.
    change (y +:+ "-" +:+ mm +:+ "-" +:+ dd) with (y +:+ String "-" (mm +:+ String "-" dd)).
    rewrite split_at_first by assumption.
    destruct (JS.String_split "-" (mm +:+ String "-" dd)) as [| first rest] eqn:E;
      rewrite split_at_first in E by assumption; [discriminate |].
    injection E as <- _. reflexivity. }
  split; [exact Hdate |]. split; [exact Hmonth |].
  unfold Summary.in_month. rewrite Hmonth. unfold is_nan in Hnan.
  now destruct (JS.parseInt mm =? JS.parseInt mm)%float.
Qed.

Lemma added_expense_is_in_its_month_witness :
  Summary.in_month 8
    (Add.newExpense sample_host
       {| Add.description := "Lunch"; Add.amount := 20; Add.category := None |} [lunch])
  = true.
Proof.
  apply (added_expense_is_in_its_month sample_host
           {| Add.description := "Lunch"; Add.amount := 20; Add.category := None |} [lunch]
           "2024" "08" "15" "10:00:00.000Z");
    try reflexivity;
    intros H; vm_compute in H;
    repeat (apply elem_of_cons in H as [H | H]; [discriminate H |]); inversion H.
Defined.

(** ** The budgets *)

Lemma get_None {A} (o : JS.object A) (k : string) :
  JS.get o k = None <-> k ∉ map fst o.
Proof.
  induction o as [| [k' v] o IH]; cbn [JS.get map fst].
  - split; [intros _ H; inversion H | reflexivity].
  - rewrite not_elem_of_cons. destruct (String.eqb_spec k' k) as [-> | Hne].
    + split; [discriminate | intros [H _]; congruence].
    + rewrite IH. split; [intros H; split; [congruence | assumption] | tauto].
Qed.

Lemma get_Some_elem {A} (o : JS.object A) (k : string) (v : A) :
  JS.get o k = Some v -> (k, v) ∈ o.
Proof.
  induction o as [| [k' v'] o IH]; cbn [JS.get]; [discriminate |].
  destruct (String.eqb_spec k' k) as [-> | Hne].
  - intros [= ->]. left.
  - intros H. right. now apply IH.
Qed.

Lemma set_keys {A} (o : JS.object A) (k : string) (v : A) :
  map fst (JS.set o k v)
  = match JS.get o k with Some _ => map fst o | None => map fst o ++ [k] end.
Proof.
  induction o as [| [k' v'] o IH]; cbn [JS.set JS.get map fst app]; [reflexivity |].
  destruct (String.eqb_spec k' k) as [-> | Hne]; [reflexivity |].
  cbn [map fst]. rewrite IH. now destruct (JS.get o k).
Qed.

Lemma set_NoDup {A} (o : JS.object A) (k : string) (v : A) :
  NoDup (map fst o) -> NoDup (map fst (JS.set o k v)).
Proof.
  intros H. rewrite set_keys. destruct (JS.get o k) eqn:E; [assumption |].
  apply NoDup_app. split; [assumption |]. split; [| apply NoDup_singleton].
  intros x Hx Hk. apply list_elem_of_singleton in Hk as ->.
  now apply get_None in E.
Qed.

Lemma insert_by_index_Permutation {A} (n : N) (kv : string * A)
  (l : list (N * (string * A))) :
  JS.insert_by_index n kv l ≡ₚ (n, kv) :: l.
Proof.
  induction l as [| [m kv'] l IH]; cbn [JS.insert_by_index]; [reflexivity |].
  destruct (n <? m)%N; [reflexivity |]. rewrite IH. apply Permutation_swap.
Qed.

Lemma Object_entries_Permutation {A} (o : JS.object A) : JS.Object_entries o ≡ₚ o.
Proof.
  unfold JS.Object_entries.
  induction o as [| [k v] o IH]; cbn [JS.index_properties JS.string_properties];
    [reflexivity |].
  destruct (JS.array_index k) as [n |].
  - rewrite insert_by_index_Permutation. cbn [map snd app]. now rewrite IH.
  - rewrite <- Permutation_middle. now rewrite IH.
Qed.

Lemma Object_entries_one {A} (k : string) (v : A) : JS.Object_entries [(k, v)] = [(k, v)].
Proof.
  unfold JS.Object_entries. cbn [JS.index_properties JS.string_properties].
  now destruct (JS.array_index k).
Qed.

(** X14. Set-budget when the budgets file is missing, or cannot be read,
    writes a document with one member, the month just set: in the second
    case the read error is reported and whatever the file held is replaced. *)
Theorem set_budget_without_readable_file (h : host) (o : SetBudget.options) :
  let document :=
    ("{" +:+ JS.newline
     +:+ "  " +:+ JS.quote (JS.Number_toString (SetBudget.month o)) +:+ ": "
     +:+ (if is_finite (SetBudget.amount o)
          then JS.Number_toString (SetBudget.amount o) else "null")
     +:+ JS.newline +:+ "}")%string in
  let line := ("# Budget for " +:+ monthName h (SetBudget.month o) +:+ " set to $"
               +:+ JS.Number_toString (SetBudget.amount o))%string in
  SetBudget.action h None o
  = ([writeFileSync budgetsFile document; console_log line], Return tt)
  /\ (forall message,
      SetBudget.action h (Some (unreadable message)) o
      = ([console_error ("Error reading budgets: " +:+ message);
          writeFileSync budgetsFile document; console_log line],
         Return tt)).
Proof.
  intros document line.
  assert (budgets_document
            [(JS.Number_toString (SetBudget.month o), JS.Number (SetBudget.amount o))]
          = document) as Hdoc.
  { rewrite budgets_document_layout, Object_entries_one. subst document.
    unfold budgets_layout, budget_member. cbn [map fst snd String.concat number_text].
    repeat (rewrite append_cons || rewrite append_assoc). reflexivity. }
  split; [| intros message]; unfold SetBudget.action, readBudgets, writeBudgets.
  - rewrite bind_ret. cbn [JS.set]. rewrite Hdoc. reflexivity.
  - rewrite bind_assoc, bind_perform, bind_ret. cbn [JS.set]. rewrite Hdoc. reflexivity.
Qed.

Lemma get_elem_NoDup {A} (o : JS.object A) (k : string) (v : A) :
  NoDup (map fst o) -> (k, v) ∈ o -> JS.get o k = Some v.
Proof.
  induction o as [| [k' v'] o IH]; cbn [map fst JS.get]; intros Hnd Hin; [inversion Hin |].
  apply NoDup_cons in Hnd as [Hk' Hnd].
  apply elem_of_cons in Hin as [[= -> ->] | Hin].
  - now rewrite String.eqb_refl.
  - destruct (String.eqb_spec k' k) as [-> | Hne]; [| now apply IH].
    destruct Hk'. apply list_elem_of_fmap. now exists (k, v).
Qed.

Lemma filter_key_NoDup {A} (l : list (string * A)) (k : string) (v : A) :
  NoDup (map fst l) -> (k, v) ∈ l -> filter (fun member => fst member = k) l = [(k, v)].
Proof.
  induction l as [| [k' v'] l IH]; cbn [map fst]; intros Hnd Hin; [inversion Hin |].
  apply NoDup_cons in Hnd as [Hk' Hnd].
  assert (forall l', k ∉ map fst l' -> filter (fun member : string * A => fst member = k) l' = [])
    as Hnone.
  { clear. induction l' as [| [k0 v0] l' IH]; cbn [map fst]; [reflexivity |].
    rewrite not_elem_of_cons. intros [Hne H].
    rewrite filter_cons_False by (cbn; congruence). now apply IH. }
  apply elem_of_cons in Hin as [[= -> ->] | Hin].
  - rewrite filter_cons_True by reflexivity. now rewrite Hnone.
  - rewrite filter_cons_False; [now apply IH |].
    cbn. intros ->. destruct Hk'. apply list_elem_of_fmap. now exists (k, v).
Qed.

(** X15. Set-budget keeps at most one budget per month: when the keys of the
    mapping read are pairwise distinct, so are the members of the document
    written, which holds one member for the month, with the amount just set,
    and has one member more than the mapping read when the month had no
    budget and the same number when it had one. *)
Theorem set_budget_keeps_one_budget_per_month (h : host)
  (existing : JS.object JS.number_or_null) (o : SetBudget.options) :
  NoDup (map fst existing) ->
  let key := JS.Number_toString (SetBudget.month o) in
  let members := JS.Object_entries (JS.set existing key (JS.Number (SetBudget.amount o))) in
  SetBudget.action h (Some (parsed existing)) o
  = ([writeFileSync budgetsFile (budgets_layout members);
      console_log ("# Budget for " +:+ monthName h (SetBudget.month o) +:+ " set to $"
                   +:+ JS.Number_toString (SetBudget.amount o))],
     Return tt)
  /\ NoDup (map fst members)
  /\ filter (fun member => fst member = key) members
     = [(key, JS.Number (SetBudget.amount o))]
  /\ length members
     = match JS.get existing key with
       | Some _ => length existing
       | None => S (length existing)
       end.
Proof.
  intros Hnodup key members.
  pose proof (Object_entries_Permutation
                (JS.set existing key (JS.Number (SetBudget.amount o)))) as Hperm.
  fold members in Hperm.
  assert (NoDup (map fst members)) as Hmembers.
  { rewrite Hperm. now apply set_NoDup. }
  split; [| split; [exact Hmembers | split]].
  - unfold SetBudget.action, readBudgets, writeBudgets.
    now rewrite bind_ret, budgets_document_layout.
  - apply filter_key_NoDup; [exact Hmembers |].
    apply elem_of_Object_entries, get_Some_elem, get_set_eq.
  - rewrite Hperm, <- (length_map fst (JS.set existing key _)). rewrite set_keys.
    destruct (JS.get existing key); rewrite ?length_app, length_map; cbn; lia.
Qed.

Lemma set_budget_keeps_one_budget_per_month_witness :
  length (JS.Object_entries (JS.set [("7", JS.Number 300); ("8", JS.Number 500)]%string
                               (JS.Number_toString 8) (JS.Number 650))) = 2%nat.
Proof.
  apply (set_budget_keeps_one_budget_per_month sample_host
           [("7", JS.Number 300); ("8", JS.Number 500)]%string
           {| SetBudget.month := 8; SetBudget.amount := 650 |}).
  repeat constructor; intros H; vm_compute in H;
    repeat (apply elem_of_cons in H as [H | H]; [discriminate H |]); inversion H.
Defined.

Lemma get_reread_budgets (BUDGETS : JS.object JS.number_or_null) (k : string)
  (v : JS.number_or_null) :
  NoDup (map fst BUDGETS) ->
  JS.get BUDGETS k = Some v ->
  JS.get (reread_budgets BUDGETS) k = Some (JS.read_back v).
Proof.
  intros Hnd Hget. apply get_elem_NoDup.
  - unfold reread_budgets. rewrite map_map. cbn [fst].
    pose proof (Object_entries_Permutation BUDGETS) as Hperm.
    change (NoDup (map fst (JS.Object_entries BUDGETS))). now rewrite Hperm.
  - unfold reread_budgets. apply list_elem_of_fmap. exists (k, v).
    split; [reflexivity |]. now apply elem_of_Object_entries, get_Some_elem.
Qed.

Lemma number_text_read_back (v : JS.number_or_null) :
  number_text (JS.read_back v) = number_text v.
Proof.
  destruct v as [x |]; cbn [JS.read_back number_text]; [| reflexivity].
  destruct (is_finite x) eqn:Hfin; cbn [number_text]; [| reflexivity].
  destruct (is_zero x) eqn:Hz; [| now rewrite Hfin].
  change (is_finite 0) with true. cbn iota.
  unfold JS.Number_toString. rewrite Hz.
  unfold is_finite in Hfin. apply negb_true_iff, orb_false_iff in Hfin as [-> _].
  reflexivity.
Qed.

(** The members read back are the members of the document written. *)
Lemma reread_budgets_layout (BUDGETS : JS.object JS.number_or_null) :
  budgets_layout (reread_budgets BUDGETS) = budgets_document BUDGETS.
Proof.
  rewrite budgets_document_layout. unfold reread_budgets, budgets_layout.
  destruct (JS.Object_entries BUDGETS) as [| m l]; [reflexivity |].
  cbn [map]. rewrite map_map.
  assert (forall kv : string * JS.number_or_null,
            budget_member (fst kv, JS.read_back (snd kv)) = budget_member kv) as Hmember.
  { intros kv. unfold budget_member. cbn [fst snd]. now rewrite number_text_read_back. }
  now rewrite Hmember, (map_ext _ budget_member Hmember).
Qed.

(** X16. The budget that set-budget stores for a month is the one that a
    later summary of that month compares with, when the amount is finite:
    on the budgets read back from the document written (its members, with
    [null] for what is no finite number), summary prints the
    month total and then the budget line for the amount just set, whatever
    budget the month had before (for a month and an amount other than 0 and
    NaN). An infinite amount is written as [null]: summary then prints no
    budget line, as when there is no budgets file. *)
Theorem budget_set_is_budget_compared (h : host) (expenses : list expense)
  (existing : JS.object JS.number_or_null) (b : SetBudget.options) (o : Summary.options) :
  NoDup (map fst existing) ->
  Summary.month o = Some (SetBudget.month b) ->
  JS.truthy (SetBudget.month b) = true ->
  JS.truthy (SetBudget.amount b) = true ->
  let m := SetBudget.month b in
  let budget := SetBudget.amount b in
  let written := JS.set existing (JS.Number_toString m) (JS.Number budget) in
  let total := Summary.sum (filter (fun e => Summary.in_month m e) expenses) in
  writes (SetBudget.action h (Some (parsed existing)) b)
  = [(budgetsFile, budgets_layout (reread_budgets written))]
  /\ JS.get (reread_budgets written) (JS.Number_toString m)
     = Some (if is_finite budget then JS.Number budget else JS.Null)
  /\ (is_finite budget = true ->
      exists rest,
        trace (Summary.action h (parsed expenses) (Some (parsed (reread_budgets written))) o)
        = console_log ("# Total expenses for " +:+ monthName h m +:+ ": $"
                       +:+ JS.Number_toString total)
          :: console_log
               (if (budget <=? total)%float
                then "# WARNING: You've exceeded your " +:+ monthName h m +:+ " budget of $"
                     +:+ JS.Number_toString budget +:+ " by $"
                     +:+ JS.Number_toFixed 2 (total - budget)%float
                else "# Remaining budget for " +:+ monthName h m +:+ ": $"
                     +:+ JS.Number_toFixed 2 (budget - total)%float)
          :: rest)
  /\ (is_finite budget = false ->
      Summary.action h (parsed expenses) (Some (parsed (reread_budgets written))) o
      = Summary.action h (parsed expenses) None o).
Proof.
  intros Hnd Hm Ht Hb m budget written total.
  assert (JS.get (reread_budgets written) (JS.Number_toString m)
          = Some (if is_finite budget then JS.Number budget else JS.Null)) as Hget.
  { replace (if is_finite budget then JS.Number budget else JS.Null)
      with (JS.read_back (JS.Number budget)).
    - apply get_reread_budgets; [now apply set_NoDup | apply get_set_eq].
    - cbn [JS.read_back]. fold budget in Hb. unfold JS.truthy in Hb.
      apply negb_true_iff, orb_false_iff in Hb as [-> _]. reflexivity. }
  split; [| split; [exact Hget | split]].
  - unfold SetBudget.action, readBudgets, writeBudgets.
    now rewrite bind_ret, reread_budgets_layout.
  - intros Hfin. rewrite Hfin in Hget. unfold Summary.action, readExpenses.
    rewrite !bind_ret, Hm, Ht, bind_assoc, bind_perform. cbn [trace fst].
    rewrite budget_check_run. fold m. rewrite Hget. fold budget in Hb. rewrite Hb.
    fold total. rewrite bind_assoc. cbn [mbind run_bind].
    destruct (mret _ ≫= _) as [t r]. eexists. reflexivity.
  - intros Hfin. rewrite Hfin in Hget. unfold Summary.action, readExpenses.
    rewrite !bind_ret, Hm, Ht. rewrite !budget_check_run. fold m. now rewrite Hget.
Qed.

Lemma budget_set_is_budget_compared_witness :
  exists rest,
    trace (Summary.action sample_host (parsed [lunch; taxi; rent])
             (Some (parsed (reread_budgets
                              (JS.set [("8"%string, JS.Number 500)] (JS.Number_toString 8)
                                 (JS.Number 1000)))))
             {| Summary.month := Some 8%float; Summary.category := None;
                Summary.byCategory := false |})
    = console_log "# Total expenses for August: $600"
      :: console_log "# Remaining budget for August: $400.00"
      :: rest.
Proof.
  apply (budget_set_is_budget_compared sample_host [lunch; taxi; rent]
           [("8"%string, JS.Number 500)]
           {| SetBudget.month := 8; SetBudget.amount := 1000 |}
           {| Summary.month := Some 8%float; Summary.category := None;
              Summary.byCategory := false |});
    try reflexivity.
  repeat constructor. intros H. inversion H.
Defined.

(** ** The breakdown by category *)

Lemma accumulate_keys (acc : JS.object Summary.subtotal) (e : expense) :
  let c := JS.or_else (Expense.category e) "Other" in
  (NoDup (map fst acc) -> NoDup (map fst (Summary.accumulate acc e)))
  /\ (forall k, k ∈ map fst (Summary.accumulate acc e)
                <-> k ∈ map fst acc \/ (k = c /\ c <> "__proto__"%string)).
Proof.
  intros c. unfold Summary.accumulate. fold c.
  destruct (String.eqb_spec c "__proto__") as [Hp | Hp].
  - split; [auto |]. intros k. split; [auto | intros [H | [_ H]]; [assumption | contradiction]].
  - assert (forall v, JS.get acc c <> None ->
              forall k, k ∈ map fst (JS.set acc c v) <-> k ∈ map fst acc \/ (k = c /\ c <> "__proto__"%string)) as Hpresent.
    { intros v Hget k. rewrite set_keys. destruct (JS.get acc c) eqn:E; [| congruence].
      split; [auto |]. intros [H | [-> _]]; [assumption |].
      destruct (decide (c ∈ map fst acc)) as [Hin | Hout]; [assumption |].
      apply get_None in Hout. congruence. }
    assert (forall v, JS.get acc c = None ->
              forall k, k ∈ map fst (JS.set acc c v) <-> k ∈ map fst acc \/ (k = c /\ c <> "__proto__"%string)) as Habsent.
    { intros v Hget k. rewrite set_keys, Hget, elem_of_app, list_elem_of_singleton. tauto. }
    destruct (JS.get acc c) as [[x |] |] eqn:E.
    + split; [apply set_NoDup |]. apply Hpresent. congruence.
    + split; [auto |]. intros k. split; [auto |]. intros [H | [-> _]]; [assumption |].
      destruct (decide (c ∈ map fst acc)) as [Hin | Hout]; [assumption |].
      apply get_None in Hout. congruence.
    + destruct (bool_decide _); (split; [apply set_NoDup | now apply Habsent]).
Qed.

Lemma fold_accumulate_keys (filtered : list expense) (acc : JS.object Summary.subtotal) :
  (NoDup (map fst acc) -> NoDup (map fst (fold_left Summary.accumulate filtered acc)))
  /\ (forall k, k ∈ map fst (fold_left Summary.accumulate filtered acc)
                <-> k ∈ map fst acc
                    \/ (k <> "__proto__"%string
                        /\ exists e, e ∈ filtered /\ JS.or_else (Expense.category e) "Other" = k)).
Proof.
  revert acc. induction filtered as [| e l IH]; intros acc; cbn [fold_left].
  - split; [auto |]. intros k. split; [auto |].
    intros [H | (_ & e & He & _)]; [assumption | inversion He].
  - destruct (IH (Summary.accumulate acc e)) as [IH1 IH2].
    destruct (accumulate_keys acc e) as [H1 H2]. split; [auto |].
    intros k. rewrite IH2, H2. split.
    + intros [[H | [-> Hp]] | (Hp & x & Hx & Hk)].
      * now left.
      * right. split; [assumption |]. exists e. split; [left | reflexivity].
      * right. split; [assumption |]. exists x. split; [now right | assumption].
    + intros [H | (Hp & x & Hx & Hk)]; [now left; left |].
      apply elem_of_cons in Hx as [-> | Hx].
      * left. right. subst k. now split.
      * right. split; [assumption |]. now exists x.
Qed.

Lemma set_Forall {A} (P : A -> Prop) (o : JS.object A) (k : string) (v : A) :
  Forall (fun kv => P (snd kv)) o -> P v -> Forall (fun kv => P (snd kv)) (JS.set o k v).
Proof.
  intros Ho Hv. induction Ho as [| [k' v'] o Hx Ho IH]; cbn [JS.set].
  - now constructor.
  - destruct (String.eqb k' k); constructor; assumption.
Qed.

Lemma fold_accumulate_numbers (filtered : list expense) (acc : JS.object Summary.subtotal) :
  Forall (fun e => JS.or_else (Expense.category e) "Other" ∉ JS.inherited) filtered ->
  Forall (fun kv => exists x, snd kv = Summary.number x) acc ->
  Forall (fun kv => exists x, snd kv = Summary.number x)
         (fold_left Summary.accumulate filtered acc).
Proof.
  intros Hf. revert acc. induction Hf as [| e l He _ IH]; intros acc Hacc; cbn [fold_left];
    [assumption |].
  apply IH. unfold Summary.accumulate.
  destruct (String.eqb _ "__proto__"); [assumption |].
  destruct (JS.get acc _) as [[x |] |].
  - apply (set_Forall (fun v => exists x, v = Summary.number x)); eauto.
  - assumption.
  - rewrite bool_decide_eq_false_2 by assumption.
    apply (set_Forall (fun v => exists x, v = Summary.number x)); eauto.
Qed.

Lemma print_number_entries (subtotals : list (string * float)) :
  Summary.print_entries (map (fun kv => (fst kv, Summary.number (snd kv))) subtotals)
  = (map (fun kv => console_log ("# " +:+ Summary.padEnd 12 (fst kv) +:+ ": $"
                                 +:+ JS.Number_toFixed 2 (snd kv))) subtotals,
     Return tt).
Proof.
  induction subtotals as [| [c x] l IH]; cbn [map Summary.print_entries fst snd];
    [reflexivity |].
  now rewrite bind_perform, IH.
Qed.

Lemma numbers_as_subtotals (entries : list (string * Summary.subtotal)) :
  Forall (fun kv => exists x, snd kv = Summary.number x) entries ->
  exists subtotals : list (string * float),
    entries = map (fun kv => (fst kv, Summary.number (snd kv))) subtotals.
Proof.
  induction 1 as [| [c v] l [x Hx] _ [subtotals ->]].
  - now exists [].
  - cbn in Hx. subst v. now exists ((c, x) :: subtotals).
Qed.

(** X17. The breakdown of summary has one line per category: the entries it
    prints have pairwise distinct categories, and a category is among them
    exactly when some record of the filtered set has it ("Other" standing
    for an absent or empty category; the name [__proto__] is left out). When
    no category is a name that every object inherits, summary with the
    by-category flag alone prints the total, the heading, and one line with
    two decimals for each entry. *)
Theorem breakdown_has_one_line_per_category (h : host) (expenses : list expense)
  (budgets : option (read (JS.object JS.number_or_null))) :
  let entries := JS.Object_entries (fold_left Summary.accumulate expenses []) in
  NoDup (map fst entries)
  /\ (forall c, c ∈ map fst entries
                <-> c <> "__proto__"%string
                    /\ exists e, e ∈ expenses /\ JS.or_else (Expense.category e) "Other" = c)
  /\ (Forall (fun e => JS.or_else (Expense.category e) "Other" ∉ JS.inherited) expenses ->
      exists subtotals : list (string * float),
        map fst subtotals = map fst entries
        /\ Summary.action h (parsed expenses) budgets
             {| Summary.month := None; Summary.category := None; Summary.byCategory := true |}
           = (console_log ("# Total expenses: $"
                           +:+ JS.Number_toString (Summary.sum expenses))
              :: console_log (JS.newline +:+ "# Expenses by category:")
              :: map (fun kv => console_log ("# " +:+ Summary.padEnd 12 (fst kv) +:+ ": $"
                                             +:+ JS.Number_toFixed 2 (snd kv))) subtotals,
              Return tt)).
Proof.
  intros entries. subst entries.
  destruct (fold_accumulate_keys expenses []) as [Hnodup Hkeys].
  pose proof (Object_entries_Permutation (fold_left Summary.accumulate expenses [])) as Hperm.
  split; [rewrite Hperm; apply Hnodup; constructor |]. split.
  - intros c. rewrite Hperm, Hkeys. cbn [map]. split; [| auto].
    intros [H | H]; [inversion H | assumption].
  - intros Hplain.
    assert (Forall (fun kv => exists x, snd kv = Summary.number x)
              (JS.Object_entries (fold_left Summary.accumulate expenses []))) as Hnum.
    { rewrite Hperm. apply fold_accumulate_numbers; [assumption | constructor]. }
    destruct (numbers_as_subtotals _ Hnum) as [subtotals Hs].
    exists subtotals. split.
    + rewrite Hs, map_map. reflexivity.
    + unfold Summary.action, readExpenses. cbn [Summary.month Summary.category
        Summary.byCategory]. rewrite !bind_ret, bind_assoc, bind_perform, bind_ret,
        bind_perform, Hs, print_number_entries. reflexivity.
Qed.

Lemma breakdown_has_one_line_per_category_witness :
  exists subtotals : list (string * float),
    map fst subtotals
    = map fst (JS.Object_entries (fold_left Summary.accumulate [lunch; taxi; rent; lunch] []))
    /\ Summary.action sample_host (parsed [lunch; taxi; rent; lunch]) None
         {| Summary.month := None; Summary.category := None; Summary.byCategory := true |}
       = (console_log ("# Total expenses: $"
                       +:+ JS.Number_toString (Summary.sum [lunch; taxi; rent; lunch]))
          :: console_log (JS.newline +:+ "# Expenses by category:")
          :: map (fun kv => console_log ("# " +:+ Summary.padEnd 12 (fst kv) +:+ ": $"
                                         +:+ JS.Number_toFixed 2 (snd kv))) subtotals,
          Return tt).
Proof.
  apply (breakdown_has_one_line_per_category sample_host [lunch; taxi; rent; lunch] None).
  repeat constructor; intros H; vm_compute in H;
    repeat (apply elem_of_cons in H as [H | H]; [discriminate H |]); inversion H.
Defined.

Lemma inherited_stays_not_a_number (filtered : list expense)
  (acc : JS.object Summary.subtotal) (k : string) :
  k ∈ JS.inherited ->
  JS.get acc k = None \/ JS.get acc k = Some Summary.not_a_number ->
  JS.get (fold_left Summary.accumulate filtered acc) k = None
  \/ JS.get (fold_left Summary.accumulate filtered acc) k = Some Summary.not_a_number.
Proof.
  intros Hk. revert acc. induction filtered as [| e l IH]; intros acc Hacc; cbn [fold_left];
    [assumption |].
  apply IH. unfold Summary.accumulate.
  generalize (JS.or_else (Expense.category e) "Other"). intros c.
  destruct (String.eqb c "__proto__"); [assumption |].
  destruct (String.eqb_spec c k) as [-> | Hne].
  - destruct Hacc as [Hacc | Hacc]; rewrite Hacc; [| now right].
    rewrite bool_decide_eq_true_2 by assumption. right. apply get_set_eq.
  - destruct (JS.get acc c) as [[x |] |]; [| assumption |].
    + rewrite get_set_ne by congruence. assumption.
    + destruct (bool_decide _); rewrite get_set_ne by congruence; assumption.
Qed.

Lemma print_entries_throws (entries : list (string * Summary.subtotal)) (c : string) :
  (c, Summary.not_a_number) ∈ entries ->
  snd (Summary.print_entries entries) = Throw "amount.toFixed is not a function".
Proof.
  induction entries as [| [k [x |]] l IH]; cbn [Summary.print_entries]; intros H.
  - inversion H.
  - apply elem_of_cons in H as [[=] | H]. rewrite bind_perform. cbn [snd]. now apply IH.
  - reflexivity.
Qed.

(** X18. A record whose category is the name of a method that every object
    inherits ([constructor], [toString], [valueOf], ...) breaks the
    breakdown: summary with the by-category flag throws a type error after
    the total, the heading and the lines of the entries before it. *)
Theorem breakdown_throws_on_inherited_category (h : host) (expenses : list expense)
  (budgets : option (read (JS.object JS.number_or_null))) (e : expense) (c : string) :
  e ∈ expenses ->
  Expense.category e = Some c ->
  c ∈ JS.inherited ->
  c <> "__proto__"%string ->
  snd (Summary.action h (parsed expenses) budgets
         {| Summary.month := None; Summary.category := None; Summary.byCategory := true |})
  = Throw "amount.toFixed is not a function".
Proof.
  intros He Hc Hin Hp.
  assert (JS.or_else (Expense.category e) "Other" = c) as Hcat.
  { rewrite Hc. cbn [JS.or_else]. destruct (JS.nonempty c) eqn:E; [reflexivity |].
    unfold JS.nonempty in E. apply negb_false_iff, String.eqb_eq in E. subst c.
    vm_compute in Hin. repeat (apply elem_of_cons in Hin as [Hin | Hin]; [discriminate Hin |]).
    inversion Hin. }
  assert ((c, Summary.not_a_number)
          ∈ JS.Object_entries (fold_left Summary.accumulate expenses [])) as Hentry.
  { apply elem_of_Object_entries, get_Some_elem.
    destruct (inherited_stays_not_a_number expenses [] c Hin (or_introl eq_refl))
      as [Hnone | Hsome]; [| assumption].
    exfalso. apply get_None in Hnone. apply Hnone.
    apply (proj2 (fold_accumulate_keys expenses [])). right. split; [assumption |].
    now exists e. }
  unfold Summary.action, readExpenses. cbn [Summary.month Summary.category Summary.byCategory].
  rewrite !bind_ret, bind_assoc, bind_perform, bind_ret, bind_perform. cbn [snd].
  now apply print_entries_throws with c.
Qed.

Lemma breakdown_throws_on_inherited_category_witness :
  snd (Summary.action sample_host
         (parsed [lunch; Expense.mk 2 "2024-08-02" "Odd" (JS.Number 7) (Some "constructor"%string)]) None
         {| Summary.month := None; Summary.category := None; Summary.byCategory := true |})
  = Throw "amount.toFixed is not a function".
Proof.
  apply (breakdown_throws_on_inherited_category sample_host
           [lunch; Expense.mk 2 "2024-08-02" "Odd" (JS.Number 7) (Some "constructor"%string)] None
           (Expense.mk 2 "2024-08-02" "Odd" (JS.Number 7) (Some "constructor"%string)) "constructor").
  - right. left.
  - reflexivity.
  - left.
  - discriminate.
Defined.

(** ** How the commands compose *)

Lemma set_set {A} (o : JS.object A) (k : string) (v1 v2 : A) :
  JS.set (JS.set o k v1) k v2 = JS.set o k v2.
Proof.
  induction o as [| [k' v'] o IH]; cbn [JS.set].
  - now rewrite String.eqb_refl.
  - destruct (String.eqb k' k) eqn:E; cbn [JS.set]; rewrite E; [reflexivity | now rewrite IH].
Qed.

(** X19. The last set-budget for a month wins: setting the budget of a month
    and then setting it again writes the same document as setting it to the
    second amount straight away. *)
Theorem set_budget_twice_is_last_wins (h : host) (existing : JS.object JS.number_or_null)
  (first second : SetBudget.options) :
  (JS.Number_toString (SetBudget.month first) =
   JS.Number_toString (SetBudget.month second)) ->
  let after_first :=
    JS.set existing (JS.Number_toString (SetBudget.month first))
      (JS.Number (SetBudget.amount first)) in
  writes (SetBudget.action h (Some (parsed existing)) first)
  = [(budgetsFile, budgets_document after_first)]
  /\ writes (SetBudget.action h (Some (parsed after_first)) second)
     = writes (SetBudget.action h (Some (parsed existing)) second).
Proof.
  intros Hkey. cbv zeta. split; [reflexivity |].
  unfold SetBudget.action, readBudgets. rewrite !bind_ret.
  now rewrite Hkey, set_set.
Qed.

Lemma set_budget_twice_is_last_wins_witness :
  writes (SetBudget.action sample_host
            (Some (parsed (JS.set [("7"%string, JS.Number 300)] (JS.Number_toString 8)
                             (JS.Number 500))))
            {| SetBudget.month := 8; SetBudget.amount := 650 |})
  = writes (SetBudget.action sample_host (Some (parsed [("7"%string, JS.Number 300)]))
              {| SetBudget.month := 8; SetBudget.amount := 650 |}).
Proof.
  apply (set_budget_twice_is_last_wins sample_host [("7"%string, JS.Number 300)]
           {| SetBudget.month := 8; SetBudget.amount := 500 |}
           {| SetBudget.month := 8; SetBudget.amount := 650 |}).
  reflexivity.
Defined.

Lemma assign_idempotent (o : Update.options) (e : expense) :
  Update.assign o (Update.assign o e) = Update.assign o e.
Proof.
  unfold Update.assign.
  destruct (Update.description o) as [d |], (Update.amount o) as [a |],
    (Update.category o) as [c |];
    repeat match goal with |- context [if ?b then _ else _] => destruct b end;
    destruct e; reflexivity.
Qed.

Lemma findIndex_ext_lookup {A} (p : A -> bool) (l l' : list A) :
  map p l = map p l' -> findIndex p l = findIndex p l'.
Proof.
  revert l'. induction l as [| x l IH]; intros [| x' l']; cbn [map findIndex]; try discriminate.
  - reflexivity.
  - intros [= Hx Hl]. rewrite Hx, (IH l' Hl). reflexivity.
Qed.

Lemma findIndex_alter_assign (o : Update.options) (p : expense -> bool) (i : nat)
  (l : list expense) :
  (forall e, p (Update.assign o e) = p e) ->
  findIndex p (alter (Update.assign o) i l) = findIndex p l.
Proof.
  intros Hp. apply findIndex_ext_lookup. apply list_eq. intros j.
  rewrite !list_lookup_fmap, list_lookup_alter.
  destruct (decide (i = j)) as [-> | Hne]; [| reflexivity].
  destruct (l !! j) as [x |]; [| reflexivity]. cbn. now rewrite Hp.
Qed.

(** X20. Update is idempotent: run again with the same options on the store
    it has written, it finds the same record and hands the same store to
    [writeExpenses]. *)
Theorem update_twice_is_update_once (expenses : list expense) (o : Update.options)
  (index : nat) :
  findIndex (fun e => (Expense.id e =? Update.id o)%float) expenses = Some index ->
  let updated := alter (Update.assign o) index expenses in
  Update.action (parsed expenses) o
  = (writeExpenses updated;; perform (console_log "# Expense updated successfully"))
  /\ Update.action (parsed updated) o = Update.action (parsed expenses) o.
Proof.
  intros Hindex updated.
  assert (findIndex (fun e => (Expense.id e =? Update.id o)%float) updated = Some index)
    as Hagain.
  { subst updated. rewrite findIndex_alter_assign; [assumption |].
    intros e. now destruct (assign_frame o e) as (-> & _). }
  unfold Update.action, readExpenses. rewrite !bind_ret, Hindex, Hagain.
  split; [reflexivity |]. subst updated.
  rewrite list_alter_alter_eq.
  replace (alter (Update.assign o ∘ Update.assign o) index expenses)
    with (alter (Update.assign o) index expenses); [reflexivity |].
  apply list_alter_ext; [| reflexivity]. intros x _. cbn. now rewrite assign_idempotent.
Qed.

Lemma update_twice_is_update_once_witness :
  Update.action
    (parsed (alter (Update.assign
                      {| Update.id := 2; Update.description := Some "Bus"%string;
                         Update.amount := None; Update.category := None |}) 1%nat
               [lunch; taxi; rent]))
    {| Update.id := 2; Update.description := Some "Bus"%string;
       Update.amount := None; Update.category := None |}
  = Update.action (parsed [lunch; taxi; rent])
      {| Update.id := 2; Update.description := Some "Bus"%string;
         Update.amount := None; Update.category := None |}.
Proof.
  apply (update_twice_is_update_once [lunch; taxi; rent]
           {| Update.id := 2; Update.description := Some "Bus"%string;
              Update.amount := None; Update.category := None |} 1%nat).
  reflexivity.
Defined.

(** X21. Delete is not repeatable on a store with pairwise distinct ids: the
    second delete of the same id, run on the store the first one wrote,
    finds nothing, prints the not-found line and writes nothing. *)
Theorem delete_twice_reports_not_found (expenses : list expense) (o : Delete.options)
  (index : nat) :
  distinct_ids expenses ->
  findIndex (fun e => (Expense.id e =? Delete.id o)%float) expenses = Some index ->
  Delete.action (parsed expenses) o
  = (writeExpenses (delete index expenses);;
     perform (console_log "# Expense deleted successfully"))
  /\ Delete.action (parsed (delete index expenses)) o
     = ([console_log ("# Expense with ID " +:+ JS.Number_toString (Delete.id o)
                      +:+ " not found")],
        Return tt).
Proof.
  intros Hdistinct Hindex. split; [now apply delete_action_found |].
  destruct (findIndex_Some _ _ _ Hindex) as ((old & Hold & Hid) & _).
  assert (findIndex (fun e => (Expense.id e =? Delete.id o)%float) (delete index expenses)
          = None) as Hnone.
  { apply findIndex_None. intros e He. apply elem_of_delete in He as (j & Hj & Hlookup).
    destruct (Expense.id e =? Delete.id o)%float eqn:E; [| reflexivity].
    destruct Hj. apply (Hdistinct j index e old Hlookup Hold).
    apply eqb_trans with (Delete.id o); [assumption | now apply eqb_sym]. }
  unfold Delete.action, readExpenses. now rewrite bind_ret, Hnone.
Qed.

Lemma distinct_ids_sample : distinct_ids [lunch; taxi; rent].
Proof.
  intros i j a b Ha Hb Hid.
  destruct i as [| [| [| i]]], j as [| [| [| j]]]; cbn in Ha, Hb;
    try discriminate Ha; try discriminate Hb; try reflexivity;
    injection Ha as <-; injection Hb as <-; discriminate Hid.
Qed.

Lemma delete_twice_reports_not_found_witness :
  Delete.action (parsed (delete 1%nat [lunch; taxi; rent])) {| Delete.id := 2 |}
  = ([console_log "# Expense with ID 2 not found"], Return tt).
Proof.
  apply (delete_twice_reports_not_found [lunch; taxi; rent] {| Delete.id := 2 |} 1%nat).
  - apply distinct_ids_sample.
  - reflexivity.
Defined.

Lemma findIndex_last {A} (p : A -> bool) (l : list A) (x : A) :
  (forall y, y ∈ l -> p y = false) -> p x = true ->
  findIndex p (l ++ [x]) = Some (length l).
Proof.
  intros Hl Hx. induction l as [| y l IH]; cbn [app findIndex length].
  - now rewrite Hx.
  - rewrite (Hl y) by left. rewrite IH; [reflexivity |]. intros z Hz. apply Hl. now right.
Qed.

Lemma delete_last {A} (l : list A) (x : A) : delete (length l) (l ++ [x]) = l.
Proof.
  induction l as [| y l IH]; [reflexivity |]. cbn [app length].
  change (delete (S (length l)) (y :: (l ++ [x]))) with (y :: delete (length l) (l ++ [x])).
  now rewrite IH.
Qed.

(** X22. Add and then delete of the id just assigned gives the store back:
    when the generated id is a number that no record of the store has,
    delete of that id on the store that add wrote removes the new expense
    and hands the original store to [writeExpenses]. *)
Theorem add_then_delete_restores_store (h : host) (a : Add.options)
  (expenses : list expense) :
  let new := Add.newExpense h a expenses in
  is_nan (Expense.id new) = false ->
  (forall e, e ∈ expenses -> (Expense.id e =? Expense.id new)%float = false) ->
  Add.action h (parsed expenses) a
  = (writeExpenses (expenses ++ [new]);;
     perform (console_log ("# Expense added successfully (ID: "
        +:+ JS.Number_toString (Expense.id new) +:+ ")")))
  /\ Delete.action (parsed (expenses ++ [new])) {| Delete.id := Expense.id new |}
     = (writeExpenses expenses;; perform (console_log "# Expense deleted successfully")).
Proof.
  intros new Hnan Hfresh. split; [apply add_action_unfold |].
  assert (findIndex (fun e => (Expense.id e =? Expense.id new)%float) (expenses ++ [new])
          = Some (length expenses)) as Hindex.
  { apply findIndex_last; [exact Hfresh |].
    unfold is_nan in Hnan. now destruct (Expense.id new =? Expense.id new)%float. }
  rewrite (delete_action_found _ {| Delete.id := Expense.id new |} _ Hindex).
  now rewrite delete_last.
Qed.

Lemma add_then_delete_restores_store_witness :
  Delete.action
    (parsed ([lunch; taxi]
             ++ [Add.newExpense sample_host
                   {| Add.description := "Bus"; Add.amount := 3; Add.category := None |}
                   [lunch; taxi]]))
    {| Delete.id := 3 |}
  = (writeExpenses [lunch; taxi];; perform (console_log "# Expense deleted successfully")).
Proof.
  apply (add_then_delete_restores_store sample_host
           {| Add.description := "Bus"; Add.amount := 3; Add.category := None |}
           [lunch; taxi]).
  - reflexivity.
  - intros e He. repeat (apply elem_of_cons in He as [-> | He]; [reflexivity |]).
    inversion He.
Defined.
